(** * The order/position simulation engine of [services/aggregate.py]

    A shallow embedding of [AggregateService]: the two in-memory
    dictionaries [positions] and [orders], the handlers
    [process_signal], [process_candle], [update_tp_sl] and the routines
    they call, followed by the properties of the engine.

    Conventions of the embedding.
    - Python dictionaries keyed by strings are [gmap string _]; the
      two-level dictionaries [self.positions[strategy_id][symbol]] and
      [self.orders[strategy_id][symbol]] are maps of maps.
    - Prices and times are Python floats.  They are embedded as
      rationals [Q]: the engine only compares them, tests them for
      truthiness and, for the pnl, subtracts and multiplies by the
      size; NaN and infinities are outside the model.
    - The calls that leave the process (Redis [publish], [hset],
      [hdel]; SQLite inserts) and the writes to the in-memory
      dictionaries are recorded, in program order, in the [trace]
      component of the state.  Calls to [print] are not recorded.
    - A stored order or position is a non-empty dictionary, so the
      tests [if order:] and [if pos:] succeed exactly when the lookup
      found one.
    - [time.time()] is an input of every handler ([now]).
    - An exception leaves the handler at once with the state as
      mutated so far; the loop of [run] catches it and goes on.
    - The handlers are given messages that carry the fields of their
      event class.  The calls to SQLite, Redis and the bus return in
      the handlers; a turn of the loop in which one of them raises is
      the subject of [turn] and [possible]. *)

From Stdlib Require Import QArith Lqa String List.
From stdpp Require Import base option gmap strings list.
Import ListNotations.

Local Open Scope string_scope.
Local Open Scope list_scope.

(** ** Python idioms *)

Module Py.

(** Truth value of an optional float: [None] and [0.0] are falsy. *)
Definition truthy (x : option Q) : bool :=
  match x with
  | Some q => negb (Qeq_bool q 0)
  | None => false
  end.

(** [x or y]. *)
Definition or_else (x : option Q) (y : Q) : Q :=
  match x with
  | Some q => if Qeq_bool q 0 then y else q
  | None => y
  end.

(** [b and test(b)] for an optional bound [b]. *)
Definition and_test (b : option Q) (test : Q -> bool) : bool :=
  match b with
  | Some q => negb (Qeq_bool q 0) && test q
  | None => false
  end.

(** [d.get(k1, {}).get(k2)] on a dictionary of dictionaries. *)
Definition get2 {V} (d : gmap string (gmap string V)) (k1 k2 : string)
  : option V :=
  match d !! k1 with
  | Some inner => inner !! k2
  | None => None
  end.

(** [d.setdefault(k1, {})[k2] = v]. *)
Definition set2 {V} (d : gmap string (gmap string V)) (k1 k2 : string)
  (v : V) : gmap string (gmap string V) :=
  <[k1 := <[k2 := v]> (default ∅ (d !! k1))]> d.

(** [d[k1].pop(k2)]: [None] stands for the [KeyError]. *)
Definition pop2 {V} (d : gmap string (gmap string V)) (k1 k2 : string)
  : option (gmap string (gmap string V)) :=
  match d !! k1 with
  | Some inner =>
      match inner !! k2 with
      | Some _ => Some (<[k1 := delete k2 inner]> d)
      | None => None
      end
  | None => None
  end.

(** In-place update of the object stored at [d[k1][k2]]. *)
Definition alter2 {V} (f : V -> V) (d : gmap string (gmap string V))
  (k1 k2 : string) : gmap string (gmap string V) :=
  alter (alter f k2) k1 d.

End Py.

(** ** Data model *)

Inductive OrderType := MARKET | LIMIT.
Inductive Side := LONG | SHORT | FLAT.
Inductive BuySell := BUY | SELL.
Inductive Reason := SL | TP | SIGNAL.
Inductive Trigger := TriggerTP | TriggerSL.

(** Incoming [StrategySignalEvent] as decoded from JSON; the fields the
    engine never reads ([risk_pct], [close_percent], [leverage],
    [timestamp]) are left out. *)
Record StrategySignalEvent := {
  sig_event_id : string;
  sig_strategy_id : string;
  sig_symbol : string;
  sig_action : string;
  sig_price : option Q;
  sig_stop_loss : option Q;
  sig_take_profit : option Q
}.

(** Incoming [CandleUpdateEvent]. *)
Record CandleUpdateEvent := {
  cdl_strategy_id : string;
  cdl_symbol : string;
  cdl_open : Q;
  cdl_high : Q;
  cdl_low : Q;
  cdl_close : Q;
  cdl_timestamp : Q
}.

(** Incoming [StrategySetTPSLEvent].  The outer option of a bound tells
    whether the key is in the dictionary, the inner one is its value
    (a number or [null]). *)
Record StrategySetTPSLEvent := {
  req_strategy_id : string;
  req_symbol : string;
  req_stop_loss : option (option Q);
  req_take_profit : option (option Q)
}.

(** A pending order is the signal dictionary with the key [order_type]
    added by [_add_order]. *)
Record Order := {
  order_data : StrategySignalEvent;
  order_type : OrderType
}.

(** The position dictionary built by [check_order_fill].  [pos_last_close]
    is the key ['last_close'] that [close_position] looks up. *)
Record Position := {
  pos_strategy_id : string;
  pos_symbol : string;
  pos_side : Side;
  pos_size : Q;
  pos_entry_price : Q;
  pos_entry_time : Q;
  pos_stop_loss : option Q;
  pos_take_profit : option Q;
  pos_unrealised_pnl : Q;
  pos_last_close : option Q
}.

Inductive Bound := StopLoss | TakeProfit.

Definition set_bound (b : Bound) (v : option Q) (p : Position) : Position :=
  match b with
  | StopLoss =>
      {| pos_strategy_id := pos_strategy_id p; pos_symbol := pos_symbol p;
         pos_side := pos_side p; pos_size := pos_size p;
         pos_entry_price := pos_entry_price p;
         pos_entry_time := pos_entry_time p;
         pos_stop_loss := v; pos_take_profit := pos_take_profit p;
         pos_unrealised_pnl := pos_unrealised_pnl p;
         pos_last_close := pos_last_close p |}
  | TakeProfit =>
      {| pos_strategy_id := pos_strategy_id p; pos_symbol := pos_symbol p;
         pos_side := pos_side p; pos_size := pos_size p;
         pos_entry_price := pos_entry_price p;
         pos_entry_time := pos_entry_time p;
         pos_stop_loss := pos_stop_loss p; pos_take_profit := v;
         pos_unrealised_pnl := pos_unrealised_pnl p;
         pos_last_close := pos_last_close p |}
  end.

(** Published events ([events.py]); [event_id] and [timestamp] come from
    default factories and are not part of the model. *)
Record OrderExecutionEvent := {
  oe_strategy_id : string;
  oe_symbol : string;
  oe_order_id : string;
  oe_order_type : OrderType;
  oe_side : BuySell;
  oe_price : Q;
  oe_qty : Q;
  oe_status : string
}.

Record PositionStateEvent := {
  ps_strategy_id : string;
  ps_symbol : string;
  ps_side : Side;
  ps_size : Q;
  ps_entry_price : Q;
  ps_unrealised_pnl : Q;
  ps_stop_loss : option Q;
  ps_take_profit : option Q
}.

Record TradeTerminalEvent := {
  tt_strategy_id : string;
  tt_symbol : string;
  tt_trigger_type : Trigger;
  tt_exit_price : Q;
  tt_pnl : Q;
  tt_realised_pnl : Q
}.

Inductive OutEvent :=
| EvOrderExecution (e : OrderExecutionEvent)
| EvPositionState (e : PositionStateEvent)
| EvTradeTerminal (e : TradeTerminalEvent).

(** Rows handed to [TradeStorage] ([storage.py]). *)
Record TradeRow := {
  tr_strategy_id : string;
  tr_symbol : string;
  tr_side : Side;
  tr_entry_price : Q;
  tr_exit_price : Q;
  tr_qty : Q;
  tr_pnl : Q;
  tr_entry_time : Q;
  tr_exit_time : Q;
  tr_reason : option Reason
}.

Record OrderRow := {
  or_order_id : string;
  or_strategy_id : string;
  or_symbol : string;
  or_side : string;
  or_price : Q;
  or_qty : Q;
  or_type : OrderType;
  or_status : string
}.

(** What [json.dumps] is applied to in [_sync_state_to_redis]. *)
Inductive Json :=
| JNull
| JOrder (o : Order)
| JPosition (p : Position).

(** ** Effects, in program order *)

Inductive MemOp :=
| SetOrder (sid sym : string) (o : Order)
| PopOrder (sid sym : string)
| SetPosition (sid sym : string) (p : Position)
| PopPosition (sid sym : string)
| SetBound (sid sym : string) (b : Bound) (v : option Q).

Inductive LedgerOp :=
| SaveOrder (row : OrderRow)
| SaveTrade (row : TradeRow).

Inductive MirrorOp :=
| Hset (key field : string) (v : Json)
| Hdel (key field : string).

Inductive Effect :=
| Mem (op : MemOp)
| Ledger (op : LedgerOp)
| Mirror (op : MirrorOp)
| Publish (e : OutEvent).

(** ** Engine state and the handler monad *)

Record State := {
  positions : gmap string (gmap string Position);
  orders : gmap string (gmap string Order);
  trace : list Effect
}.

Definition init : State :=
  {| positions := ∅; orders := ∅; trace := [] |}.

Inductive Exn := KeyError | TypeError.

Inductive Res (A : Type) :=
| Ok (a : A) (s : State)
| Raise (e : Exn) (s : State).
Arguments Ok {A} a s.
Arguments Raise {A} e s.

Definition M (A : Type) : Type := State -> Res A.

Definition ret {A} (a : A) : M A := fun s => Ok a s.

Definition bind {A B} (m : M A) (k : A -> M B) : M B :=
  fun s =>
    match m s with
    | Ok a s' => k a s'
    | Raise e s' => Raise e s'
    end.

Definition raise {A} (e : Exn) : M A := fun s => Raise e s.

Definition gets {A} (f : State -> A) : M A := fun s => Ok (f s) s.

Declare Scope handler_scope.
Delimit Scope handler_scope with handler.
Notation "x <- m ;; k" := (bind m (fun x => k))
  (at level 20, m at level 99, k at level 200, only parsing) : handler_scope.
Notation "m ;; k" := (bind m (fun _ => k))
  (at level 100, k at level 200, right associativity, only parsing)
  : handler_scope.
Local Open Scope handler_scope.

Definition state_of {A} (r : Res A) : State :=
  match r with
  | Ok _ s => s
  | Raise _ s => s
  end.

Definition log (e : Effect) (s : State) : State :=
  {| positions := positions s; orders := orders s;
     trace := trace s ++ [e] |}.

(** ** Primitive operations *)

(** [self.orders[strategy_id][symbol] = data], after the [setdefault]. *)
Definition mem_set_order (sid sym : string) (o : Order) : M unit :=
  fun s => Ok tt {| positions := positions s;
                    orders := Py.set2 (orders s) sid sym o;
                    trace := trace s ++ [Mem (SetOrder sid sym o)] |}.

(** [self.positions.setdefault(strategy_id, {})[symbol] = new_pos]. *)
Definition mem_set_position (sid sym : string) (p : Position) : M unit :=
  fun s => Ok tt {| positions := Py.set2 (positions s) sid sym p;
                    orders := orders s;
                    trace := trace s ++ [Mem (SetPosition sid sym p)] |}.

(** [self.orders[strategy_id].pop(symbol)]. *)
Definition mem_pop_order (sid sym : string) : M unit :=
  fun s =>
    match Py.pop2 (orders s) sid sym with
    | Some d => Ok tt {| positions := positions s; orders := d;
                         trace := trace s ++ [Mem (PopOrder sid sym)] |}
    | None => Raise KeyError s
    end.

(** [self.positions[strategy_id].pop(symbol)]. *)
Definition mem_pop_position (sid sym : string) : M unit :=
  fun s =>
    match Py.pop2 (positions s) sid sym with
    | Some d => Ok tt {| positions := d; orders := orders s;
                         trace := trace s ++ [Mem (PopPosition sid sym)] |}
    | None => Raise KeyError s
    end.

(** [pos['stop_loss'] = v] / [pos['take_profit'] = v], where [pos] is the
    dictionary stored at [self.positions[strategy_id][symbol]]. *)
Definition mem_set_bound (sid sym : string) (b : Bound) (v : option Q)
  : M unit :=
  fun s => Ok tt {| positions :=
                      Py.alter2 (set_bound b v) (positions s) sid sym;
                    orders := orders s;
                    trace := trace s ++ [Mem (SetBound sid sym b v)] |}.

Definition storage_save_order (row : OrderRow) : M unit :=
  fun s => Ok tt (log (Ledger (SaveOrder row)) s).

Definition storage_save_trade (row : TradeRow) : M unit :=
  fun s => Ok tt (log (Ledger (SaveTrade row)) s).

Definition _publish_event (e : OutEvent) : M unit :=
  fun s => Ok tt (log (Publish e) s).

(** [f"strategy:{strategy_id}:{state_type}"]. *)
Definition redis_key (sid state_type : string) : string :=
  String.append "strategy:" (String.append sid (String.append ":" state_type)).

Definition _sync_state_to_redis (sid sym state_type : string) (data : Json)
  (remove : bool) : M unit :=
  let key := redis_key sid state_type in
  fun s =>
    if remove then Ok tt (log (Mirror (Hdel key sym)) s)
    else Ok tt (log (Mirror (Hset key sym data)) s).

Definition _get_order (sid sym : string) (s : State) : option Order :=
  Py.get2 (orders s) sid sym.

Definition _get_position (sid sym : string) (s : State) : option Position :=
  Py.get2 (positions s) sid sym.

Definition _add_order (sid sym : string) (data : StrategySignalEvent)
  (ot : OrderType) : M unit :=
  let data := {| order_data := data; order_type := ot |} in
  mem_set_order sid sym data ;;
  _sync_state_to_redis sid sym "orders" (JOrder data) false.

(** ** The handlers *)

(** [reason if reason in ["TP", "SL"] else "TP"]. *)
Definition trigger_of (reason : option Reason) : Trigger :=
  match reason with
  | Some TP => TriggerTP
  | Some SL => TriggerSL
  | _ => TriggerTP
  end.

(** [(exit_price - entry) * size] for a LONG, mirrored otherwise. *)
Definition pnl_of (pos : Position) (exit_price : Q) : Q :=
  match pos_side pos with
  | LONG => (exit_price - pos_entry_price pos) * pos_size pos
  | _ => (pos_entry_price pos - exit_price) * pos_size pos
  end%Q.

(** [price_override or pos.get('last_close', pos['entry_price'])]. *)
Definition exit_price_of (pos : Position) (price_override : option Q) : Q :=
  Py.or_else price_override
    (default (pos_entry_price pos) (pos_last_close pos)).

(** The dictionary passed to [storage.save_trade]. *)
Definition trade_row (now : Q) (sid sym : string) (pos : Position)
  (price_override : option Q) (reason : option Reason)
  (timestamp : option Q) : TradeRow :=
  let exit_price := exit_price_of pos price_override in
  {| tr_strategy_id := sid; tr_symbol := sym; tr_side := pos_side pos;
     tr_entry_price := pos_entry_price pos; tr_exit_price := exit_price;
     tr_qty := pos_size pos; tr_pnl := pnl_of pos exit_price;
     tr_entry_time := pos_entry_time pos;
     tr_exit_time := Py.or_else timestamp now;
     tr_reason := reason |}.

Definition terminal_event (sid sym : string) (pos : Position)
  (price_override : option Q) (reason : option Reason)
  : TradeTerminalEvent :=
  let exit_price := exit_price_of pos price_override in
  {| tt_strategy_id := sid; tt_symbol := sym;
     tt_trigger_type := trigger_of reason;
     tt_exit_price := exit_price; tt_pnl := pnl_of pos exit_price;
     tt_realised_pnl := pnl_of pos exit_price |}.

Definition flat_event (sid sym : string) : PositionStateEvent :=
  {| ps_strategy_id := sid; ps_symbol := sym; ps_side := FLAT;
     ps_size := 0; ps_entry_price := 0; ps_unrealised_pnl := 0;
     ps_stop_loss := None; ps_take_profit := None |}.

Definition close_position (now : Q) (sid sym : string) (pos : Position)
  (price_override : option Q) (reason : option Reason)
  (timestamp : option Q) : M unit :=
  storage_save_trade
    (trade_row now sid sym pos price_override reason timestamp) ;;
  mem_pop_position sid sym ;;
  _sync_state_to_redis sid sym "positions" JNull true ;;
  _publish_event
    (EvTradeTerminal (terminal_event sid sym pos price_override reason)) ;;
  _publish_event (EvPositionState (flat_event sid sym)).

(** The pair [(exit_price, reason)] computed by [check_position_exit]. *)
Definition exit_decision (pos : Position) (candle : CandleUpdateEvent)
  : option Q * option Reason :=
  let sl := pos_stop_loss pos in
  let tp := pos_take_profit pos in
  match pos_side pos with
  | LONG =>
      if Py.and_test sl (fun sl => Qle_bool (cdl_low candle) sl)
      then (sl, Some SL)
      else if Py.and_test tp (fun tp => Qle_bool tp (cdl_high candle))
      then (tp, Some TP)
      else (None, None)
  | _ =>
      if Py.and_test sl (fun sl => Qle_bool sl (cdl_high candle))
      then (sl, Some SL)
      else if Py.and_test tp (fun tp => Qle_bool (cdl_low candle) tp)
      then (tp, Some TP)
      else (None, None)
  end.

Definition check_position_exit (now : Q) (sid sym : string) (pos : Position)
  (candle : CandleUpdateEvent) : M unit :=
  let '(exit_price, reason) := exit_decision pos candle in
  if Py.truthy exit_price
  then close_position now sid sym pos exit_price reason
         (Some (cdl_timestamp candle))
  else ret tt.

(** The fill decision of [check_order_fill]: [Some fill_price] when
    [filled] is set, [None] when it is not; comparing a missing price
    with the candle raises [TypeError]. *)
Definition fill_decision (order : Order) (candle : CandleUpdateEvent)
  : M (option Q) :=
  match order_type order with
  | MARKET => ret (Some (cdl_open candle))
  | LIMIT =>
      match sig_price (order_data order) with
      | Some price =>
          if Qle_bool (cdl_low candle) price
             && Qle_bool price (cdl_high candle)
          then ret (Some price)
          else ret None
      | None => raise TypeError
      end
  end.

Definition side_of_action (action : string) : Side :=
  if String.eqb action "OPEN_LONG" then LONG else SHORT.

(** [new_pos] of [check_order_fill]. *)
Definition new_position (sid sym : string) (order : Order)
  (candle : CandleUpdateEvent) (fill_price : Q) : Position :=
  {| pos_strategy_id := sid; pos_symbol := sym;
     pos_side := side_of_action (sig_action (order_data order));
     pos_size := 1; pos_entry_price := fill_price;
     pos_entry_time := cdl_timestamp candle;
     pos_stop_loss := sig_stop_loss (order_data order);
     pos_take_profit := sig_take_profit (order_data order);
     pos_unrealised_pnl := 0; pos_last_close := None |}.

Definition fill_event (sid sym : string) (order : Order) (fill_price : Q)
  : OrderExecutionEvent :=
  {| oe_strategy_id := sid; oe_symbol := sym;
     oe_order_id := sig_event_id (order_data order);
     oe_order_type := order_type order;
     oe_side := match side_of_action (sig_action (order_data order)) with
                | LONG => BUY
                | _ => SELL
                end;
     oe_price := fill_price; oe_qty := 1; oe_status := "FILLED" |}.

(** The dictionary passed to [storage.save_order]. *)
Definition order_row (sid sym : string) (order : Order) (fill_price : Q)
  : OrderRow :=
  {| or_order_id := sig_event_id (order_data order);
     or_strategy_id := sid; or_symbol := sym;
     or_side := sig_action (order_data order);
     or_price := fill_price; or_qty := 1;
     or_type := order_type order; or_status := "FILLED" |}.

Definition check_order_fill (sid sym : string) (order : Order)
  (candle : CandleUpdateEvent) : M unit :=
  filled <- fill_decision order candle ;;
  match filled with
  | Some fill_price =>
      let new_pos := new_position sid sym order candle fill_price in
      mem_set_position sid sym new_pos ;;
      mem_pop_order sid sym ;;
      _publish_event (EvOrderExecution (fill_event sid sym order fill_price)) ;;
      storage_save_order (order_row sid sym order fill_price) ;;
      _sync_state_to_redis sid sym "orders" JNull true ;;
      _sync_state_to_redis sid sym "positions" (JPosition new_pos) false
  | None => ret tt
  end.

Definition process_signal (now : Q) (data : StrategySignalEvent) : M unit :=
  let strategy_id := sig_strategy_id data in
  let symbol := sig_symbol data in
  let action := sig_action data in
  let price := sig_price data in
  if String.prefix "OPEN" action then
    if negb (Py.truthy price)
    then _add_order strategy_id symbol data MARKET
    else _add_order strategy_id symbol data LIMIT
  else if String.prefix "CLOSE" action then
    pos <- gets (_get_position strategy_id symbol) ;;
    match pos with
    | Some pos => close_position now strategy_id symbol pos None
                    (Some SIGNAL) None
    | None => ret tt
    end
  else ret tt.

Definition process_candle (now : Q) (data : CandleUpdateEvent) : M unit :=
  let strategy_id := cdl_strategy_id data in
  let symbol := cdl_symbol data in
  order <- gets (_get_order strategy_id symbol) ;;
  match order with
  | Some order => check_order_fill strategy_id symbol order data
  | None => ret tt
  end ;;
  pos <- gets (_get_position strategy_id symbol) ;;
  match pos with
  | Some pos => check_position_exit now strategy_id symbol pos data
  | None => ret tt
  end.

(** The notice [update_tp_sl] publishes; [unrealised_pnl] takes the
    default of the schema. *)
Definition state_event (sid sym : string) (pos : Position)
  : PositionStateEvent :=
  {| ps_strategy_id := sid; ps_symbol := sym;
     ps_side := pos_side pos; ps_size := pos_size pos;
     ps_entry_price := pos_entry_price pos; ps_unrealised_pnl := 0;
     ps_stop_loss := pos_stop_loss pos;
     ps_take_profit := pos_take_profit pos |}.

Definition update_tp_sl (data : StrategySetTPSLEvent) : M unit :=
  let strategy_id := req_strategy_id data in
  let symbol := req_symbol data in
  pos <- gets (_get_position strategy_id symbol) ;;
  match pos with
  | Some _ =>
      match req_stop_loss data with
      | Some v => mem_set_bound strategy_id symbol StopLoss v
      | None => ret tt
      end ;;
      match req_take_profit data with
      | Some v => mem_set_bound strategy_id symbol TakeProfit v
      | None => ret tt
      end ;;
      (* [pos] names the dictionary just mutated, which is still in
         the slot: the second lookup finds it *)
      pos <- gets (_get_position strategy_id symbol) ;;
      match pos with
      | Some pos =>
          _publish_event
            (EvPositionState (state_event strategy_id symbol pos)) ;;
          _sync_state_to_redis strategy_id symbol "positions"
            (JPosition pos) false
      | None => raise KeyError
      end
  | None => ret tt
  end.

(** The decoded message of the channel, by its [event_type]. *)
Inductive Event :=
| Signal (data : StrategySignalEvent)
| Candle (data : CandleUpdateEvent)
| SetTPSL (data : StrategySetTPSLEvent)
| Other (event_type : string).

Definition handle_event (now : Q) (ev : Event) : M unit :=
  match ev with
  | Signal data => process_signal now data
  | Candle data => process_candle now data
  | SetTPSL data => update_tp_sl data
  | Other _ => ret tt
  end.

(** One turn of the loop of [run]: the handler runs, and an exception is
    caught and printed, keeping what was mutated before it. *)
Definition step (s : State) (m : Q * Event) : State :=
  state_of (handle_event (fst m) (snd m) s).

Definition run (msgs : list (Q * Event)) (s : State) : State :=
  fold_left step msgs s.

(** ** Views of the trace *)

Definition ledger_trades (tr : list Effect) : list TradeRow :=
  flat_map (fun e => match e with
                     | Ledger (SaveTrade row) => [row]
                     | _ => []
                     end) tr.

Definition published (tr : list Effect) : list OutEvent :=
  flat_map (fun e => match e with Publish ev => [ev] | _ => [] end) tr.

Inductive Stage := StMemory | StLedger | StMirror | StPublish.

Definition stage_of (e : Effect) : Stage :=
  match e with
  | Mem _ => StMemory
  | Ledger _ => StLedger
  | Mirror _ => StMirror
  | Publish _ => StPublish
  end.

(** The effects a handler added to the trace, given the states before
    and after it. *)
Definition effects_since (s s' : State) : list Effect :=
  drop (length (trace s)) (trace s').

(** The order of effects stated in the design notes: memory, then
    Ledger, then Mirror, then the published notice. *)
Definition stage_rank (st : Stage) : nat :=
  match st with
  | StMemory => 0
  | StLedger => 1
  | StMirror => 2
  | StPublish => 3
  end.

Fixpoint nondecreasing (l : list nat) : bool :=
  match l with
  | a :: ((b :: _) as tl) => Nat.leb a b && nondecreasing tl
  | _ => true
  end.

Definition memory_ledger_mirror_publish (l : list Effect) : bool :=
  nondecreasing (map (fun e => stage_rank (stage_of e)) l).

(** The effects of a fill and of a close, in the order of the code. *)
Definition fill_effects (sid sym : string) (order : Order)
  (candle : CandleUpdateEvent) (fill_price : Q) : list Effect :=
  let new_pos := new_position sid sym order candle fill_price in
  [ Mem (SetPosition sid sym new_pos);
    Mem (PopOrder sid sym);
    Publish (EvOrderExecution (fill_event sid sym order fill_price));
    Ledger (SaveOrder (order_row sid sym order fill_price));
    Mirror (Hdel (redis_key sid "orders") sym);
    Mirror (Hset (redis_key sid "positions") sym (JPosition new_pos)) ].

Definition close_effects (now : Q) (sid sym : string) (pos : Position)
  (price_override : option Q) (reason : option Reason)
  (timestamp : option Q) : list Effect :=
  [ Ledger (SaveTrade
      (trade_row now sid sym pos price_override reason timestamp));
    Mem (PopPosition sid sym);
    Mirror (Hdel (redis_key sid "positions") sym);
    Publish (EvTradeTerminal
      (terminal_event sid sym pos price_override reason));
    Publish (EvPositionState (flat_event sid sym)) ].

(** ** Slots *)

(** A slot holds both a pending order and a position. *)
Definition holds_both (s : State) (sid sym : string) : Prop :=
  is_Some (_get_order sid sym s) /\ is_Some (_get_position sid sym s).

Definition exclusive (s : State) : Prop :=
  forall sid sym, ~ holds_both s sid sym.

(** A message that is not an open signal for a slot holding a position. *)
Definition no_open_on_position (s : State) (ev : Event) : bool :=
  match ev with
  | Signal data =>
      if String.prefix "OPEN" (sig_action data)
      then match _get_position (sig_strategy_id data) (sig_symbol data) s with
           | Some _ => false
           | None => true
           end
      else true
  | _ => true
  end.

(** Every message of [msgs], processed in turn from [s], passes
    [no_open_on_position] in the state it meets. *)
Fixpoint guarded_from (s : State) (msgs : list (Q * Event)) : bool :=
  match msgs with
  | [] => true
  | m :: rest => no_open_on_position s (snd m) && guarded_from (step s m) rest
  end.

(** The order [_add_order] stores for an open signal. *)
Definition order_of_signal (data : StrategySignalEvent) : Order :=
  {| order_data := data;
     order_type := if Py.truthy (sig_price data) then LIMIT else MARKET |}.

(** The position after the assignments of [update_tp_sl]. *)
Definition apply_request (data : StrategySetTPSLEvent) (pos : Position)
  : Position :=
  let pos := match req_stop_loss data with
             | Some v => set_bound StopLoss v pos
             | None => pos
             end in
  match req_take_profit data with
  | Some v => set_bound TakeProfit v pos
  | None => pos
  end.

Definition bound_effects (sid sym : string) (b : Bound)
  (v : option (option Q)) : list Effect :=
  match v with
  | Some v => [Mem (SetBound sid sym b v)]
  | None => []
  end.

(** The two phases of [process_candle] on a state. *)
Definition fill_phase (data : CandleUpdateEvent) : M unit :=
  order <- gets (_get_order (cdl_strategy_id data) (cdl_symbol data)) ;;
  match order with
  | Some order =>
      check_order_fill (cdl_strategy_id data) (cdl_symbol data) order data
  | None => ret tt
  end.

Definition exit_phase (now : Q) (data : CandleUpdateEvent) : M unit :=
  pos <- gets (_get_position (cdl_strategy_id data) (cdl_symbol data)) ;;
  match pos with
  | Some pos =>
      check_position_exit now (cdl_strategy_id data) (cdl_symbol data)
        pos data
  | None => ret tt
  end.

(** The positions installed by fills among some effects. *)
Definition fills (l : list Effect) : list (string * string * Position) :=
  flat_map (fun e => match e with
                     | Mem (SetPosition sid sym p) => [(sid, sym, p)]
                     | _ => []
                     end) l.

(** ** Concrete messages and states used in the examples *)

Module Ex.

Definition open_long : StrategySignalEvent :=
  {| sig_event_id := "e1"; sig_strategy_id := "S"; sig_symbol := "X";
     sig_action := "OPEN_LONG"; sig_price := None;
     sig_stop_loss := Some 95%Q; sig_take_profit := Some 110%Q |}.

Definition open_long_limit : StrategySignalEvent :=
  {| sig_event_id := "e2"; sig_strategy_id := "S"; sig_symbol := "X";
     sig_action := "OPEN_LONG"; sig_price := Some 98%Q;
     sig_stop_loss := Some 90%Q; sig_take_profit := Some 120%Q |}.

(** A short whose stop loss is the number zero. *)
Definition open_short_zero_sl : StrategySignalEvent :=
  {| sig_event_id := "e3"; sig_strategy_id := "S"; sig_symbol := "X";
     sig_action := "OPEN_SHORT"; sig_price := None;
     sig_stop_loss := Some 0%Q; sig_take_profit := Some 50%Q |}.

Definition close_long : StrategySignalEvent :=
  {| sig_event_id := "e4"; sig_strategy_id := "S"; sig_symbol := "X";
     sig_action := "CLOSE_LONG"; sig_price := None;
     sig_stop_loss := None; sig_take_profit := None |}.

Definition tick (open high low close timestamp : Q) : CandleUpdateEvent :=
  {| cdl_strategy_id := "S"; cdl_symbol := "X"; cdl_open := open;
     cdl_high := high; cdl_low := low; cdl_close := close;
     cdl_timestamp := timestamp |}.

(** A quiet tick around 100, a tick crossing both 95 and 110, and a
    tick crossing 50 from above. *)
Definition quiet_tick : CandleUpdateEvent := tick 100 101 99 100 1.
Definition wide_tick : CandleUpdateEvent := tick 100 120 90 100 2.
Definition high_tick : CandleUpdateEvent := tick 55 56 54 55 1.
Definition falling_tick : CandleUpdateEvent := tick 52 60 40 45 2.
Definition near_tick : CandleUpdateEvent := tick 98 99 97 98 3.

Definition raise_take_profit : StrategySetTPSLEvent :=
  {| req_strategy_id := "S"; req_symbol := "X";
     req_stop_loss := None; req_take_profit := Some (Some 130%Q) |}.

(** A pending MARKET order in slot (S, X). *)
Definition pending_market : State := run [(0%Q, Signal open_long)] init.

(** A pending LIMIT order at 98 in slot (S, X). *)
Definition pending_limit : State :=
  run [(0%Q, Signal open_long_limit)] init.

(** A long position entered at 100 with stop loss 95 and take profit
    110 in slot (S, X). *)
Definition long_open : State :=
  run [(0%Q, Signal open_long); (0%Q, Candle quiet_tick)] init.

(** A short position entered at 55 with stop loss 0 and take profit 50. *)
Definition short_open : State :=
  run [(0%Q, Signal open_short_zero_sl); (0%Q, Candle high_tick)] init.

(** An open signal processed while the slot holds a position. *)
Definition reopen : list (Q * Event) :=
  [(0%Q, Signal open_long); (0%Q, Candle quiet_tick);
   (0%Q, Signal open_long_limit)].

Definition long_position : Position :=
  new_position "S" "X" (order_of_signal open_long) quiet_tick 100.

Definition short_position : Position :=
  new_position "S" "X" (order_of_signal open_short_zero_sl) high_tick 55.

End Ex.

(** ** Well-formed slots and the outcome of one message *)

(** What [_add_order] guarantees of the order it stores in a slot. *)
Definition order_ok (sid sym : string) (o : Order) : Prop :=
  sig_strategy_id (order_data o) = sid /\
  sig_symbol (order_data o) = sym /\
  String.prefix "OPEN" (sig_action (order_data o)) = true /\
  order_type o =
    (if Py.truthy (sig_price (order_data o)) then LIMIT else MARKET).

(** What [check_order_fill] and [update_tp_sl] guarantee of the position
    stored in a slot. *)
Definition position_ok (sid sym : string) (p : Position) : Prop :=
  pos_strategy_id p = sid /\
  pos_symbol p = sym /\
  (pos_side p = LONG \/ pos_side p = SHORT) /\
  pos_size p = 1%Q /\
  pos_unrealised_pnl p = 0%Q.

(** The slot a message is about. *)
Definition slot_of (ev : Event) : option (string * string) :=
  match ev with
  | Signal data => Some (sig_strategy_id data, sig_symbol data)
  | Candle data => Some (cdl_strategy_id data, cdl_symbol data)
  | SetTPSL data => Some (req_strategy_id data, req_symbol data)
  | Other _ => None
  end.

(** The effects of [_add_order] and of [update_tp_sl], in the order of
    the code. *)
Definition open_effects (data : StrategySignalEvent) : list Effect :=
  [ Mem (SetOrder (sig_strategy_id data) (sig_symbol data)
           (order_of_signal data));
    Mirror (Hset (redis_key (sig_strategy_id data) "orders")
              (sig_symbol data) (JOrder (order_of_signal data))) ].

Definition update_effects (data : StrategySetTPSLEvent) (pos : Position)
  : list Effect :=
  bound_effects (req_strategy_id data) (req_symbol data) StopLoss
    (req_stop_loss data) ++
  bound_effects (req_strategy_id data) (req_symbol data) TakeProfit
    (req_take_profit data) ++
  [ Publish (EvPositionState
               (state_event (req_strategy_id data) (req_symbol data)
                  (apply_request data pos)));
    Mirror (Hset (redis_key (req_strategy_id data) "positions")
              (req_symbol data) (JPosition (apply_request data pos))) ].

(** Everything one turn of the loop can do to a state: nothing; store
    an order; close on a signal; fill; fill and close in the same tick;
    close on a tick; update the bounds. *)
Inductive stepped (s : State) (now : Q) : Event -> State -> Prop :=
| stepped_idle ev :
    stepped s now ev s
| stepped_open data :
    String.prefix "OPEN" (sig_action data) = true ->
    stepped s now (Signal data)
      {| positions := positions s;
         orders := Py.set2 (orders s) (sig_strategy_id data)
                     (sig_symbol data) (order_of_signal data);
         trace := trace s ++ open_effects data |}
| stepped_signal_close data pos d :
    String.prefix "OPEN" (sig_action data) = false ->
    String.prefix "CLOSE" (sig_action data) = true ->
    _get_position (sig_strategy_id data) (sig_symbol data) s = Some pos ->
    Py.pop2 (positions s) (sig_strategy_id data) (sig_symbol data) = Some d ->
    stepped s now (Signal data)
      {| positions := d; orders := orders s;
         trace := trace s ++
           close_effects now (sig_strategy_id data) (sig_symbol data) pos
             None (Some SIGNAL) None |}
| stepped_fill data order fill_price d :
    _get_order (cdl_strategy_id data) (cdl_symbol data) s = Some order ->
    fill_decision order data s = Ok (Some fill_price) s ->
    Py.pop2 (orders s) (cdl_strategy_id data) (cdl_symbol data) = Some d ->
    Py.truthy
      (fst (exit_decision
              (new_position (cdl_strategy_id data) (cdl_symbol data) order
                 data fill_price) data)) = false ->
    stepped s now (Candle data)
      {| positions :=
           Py.set2 (positions s) (cdl_strategy_id data) (cdl_symbol data)
             (new_position (cdl_strategy_id data) (cdl_symbol data) order
                data fill_price);
         orders := d;
         trace := trace s ++
           fill_effects (cdl_strategy_id data) (cdl_symbol data) order data
             fill_price |}
| stepped_fill_exit data order fill_price d exit_price reason d' :
    _get_order (cdl_strategy_id data) (cdl_symbol data) s = Some order ->
    fill_decision order data s = Ok (Some fill_price) s ->
    Py.pop2 (orders s) (cdl_strategy_id data) (cdl_symbol data) = Some d ->
    exit_decision
      (new_position (cdl_strategy_id data) (cdl_symbol data) order data
         fill_price) data = (exit_price, reason) ->
    Py.truthy exit_price = true ->
    Py.pop2
      (Py.set2 (positions s) (cdl_strategy_id data) (cdl_symbol data)
         (new_position (cdl_strategy_id data) (cdl_symbol data) order data
            fill_price))
      (cdl_strategy_id data) (cdl_symbol data) = Some d' ->
    stepped s now (Candle data)
      {| positions := d'; orders := d;
         trace := trace s ++
           fill_effects (cdl_strategy_id data) (cdl_symbol data) order data
             fill_price ++
           close_effects now (cdl_strategy_id data) (cdl_symbol data)
             (new_position (cdl_strategy_id data) (cdl_symbol data) order
                data fill_price)
             exit_price reason (Some (cdl_timestamp data)) |}
| stepped_exit data pos exit_price reason d' :
    _get_position (cdl_strategy_id data) (cdl_symbol data) s = Some pos ->
    exit_decision pos data = (exit_price, reason) ->
    Py.truthy exit_price = true ->
    Py.pop2 (positions s) (cdl_strategy_id data) (cdl_symbol data)
      = Some d' ->
    stepped s now (Candle data)
      {| positions := d'; orders := orders s;
         trace := trace s ++
           close_effects now (cdl_strategy_id data) (cdl_symbol data) pos
             exit_price reason (Some (cdl_timestamp data)) |}
| stepped_update data pos s' :
    _get_position (req_strategy_id data) (req_symbol data) s = Some pos ->
    orders s' = orders s ->
    (forall j1 j2, Py.get2 (positions s') j1 j2 =
       if decide (req_strategy_id data = j1 /\ req_symbol data = j2)
       then Some (apply_request data pos)
       else Py.get2 (positions s) j1 j2) ->
    trace s' = trace s ++ update_effects data pos ->
    stepped s now (SetTPSL data) s'.

(** Every slot of the state is well formed. *)
Definition well_formed (s : State) : Prop :=
  (forall sid sym o, _get_order sid sym s = Some o -> order_ok sid sym o) /\
  (forall sid sym p,
     _get_position sid sym s = Some p -> position_ok sid sym p).

(** What [close_position] guarantees of a trade row when the position
    it closes is well formed.  The engine computes the pnl in floating
    point, where the difference of two prices is rounded: the sign of
    the pnl is that of the exact difference, its value need not be.
    The row is therefore described by the sign of its pnl: a gain is
    never booked as a loss, nor a loss as a gain, and a close at the
    entry price has pnl zero. *)
Definition gain_or_loss (gain_from gain_to pnl : Q) : Prop :=
  ((gain_from <= gain_to)%Q -> (0 <= pnl)%Q) /\
  ((gain_to <= gain_from)%Q -> (pnl <= 0)%Q).

Definition trade_row_ok (row : TradeRow) : Prop :=
  tr_qty row = 1%Q /\
  match tr_side row with
  | LONG => gain_or_loss (tr_entry_price row) (tr_exit_price row) (tr_pnl row)
  | SHORT => gain_or_loss (tr_exit_price row) (tr_entry_price row) (tr_pnl row)
  | FLAT => False
  end /\
  match tr_reason row with
  | Some SIGNAL =>
      (tr_exit_price row == tr_entry_price row)%Q /\ (tr_pnl row == 0)%Q
  | Some _ => ~ (tr_exit_price row == 0)%Q
  | None => False
  end.

(** ** Turns of the loop in which a call fails *)

(** The two dictionaries of the engine. *)
Definition same_memory (s s' : State) : Prop :=
  positions s = positions s' /\ orders s = orders s'.

(** The memory one turn of the loop of [run] can leave when a call to
    SQLite, Redis or the bus may raise and the [except] branch ends the
    turn.  No handler changes the dictionaries between two such calls
    except at three places, so the turn ends with the memory of the
    complete handler, or with the memory it started from (the handler
    was left before its first assignment, as when [save_trade]
    raises), or, on a tick, with the memory after the fill of
    [check_order_fill] (a call of the fill, or the [save_trade] of the
    exit check that follows it, raised).  The calls made in such a
    turn are not described: the trace is left open. *)
Inductive turn (s : State) (now : Q) (ev : Event) (s' : State) : Prop :=
| turn_complete :
    same_memory (step s (now, ev)) s' -> turn s now ev s'
| turn_left_at_start :
    same_memory s s' -> turn s now ev s'
| turn_left_after_fill data :
    ev = Candle data ->
    same_memory (state_of (fill_phase data s)) s' -> turn s now ev s'.

(** The states the engine can be in after any number of such turns. *)
Inductive possible : State -> Prop :=
| possible_init : possible init
| possible_turn s now ev s' :
    possible s -> turn s now ev s' -> possible s'.

(** The comparisons of [check_position_exit]: the stop loss [sl], or
    the take profit [tp], of a position is reached by a tick. *)
Definition stop_hit (pos : Position) (data : CandleUpdateEvent) (sl : Q)
  : Prop :=
  match pos_side pos with
  | LONG => (cdl_low data <= sl)%Q
  | _ => (sl <= cdl_high data)%Q
  end.

Definition target_hit (pos : Position) (data : CandleUpdateEvent) (tp : Q)
  : Prop :=
  match pos_side pos with
  | LONG => (tp <= cdl_high data)%Q
  | _ => (cdl_low data <= tp)%Q
  end.

(** ** Further views of the trace *)

Definition ledger_orders (tr : list Effect) : list OrderRow :=
  flat_map (fun e => match e with
                     | Ledger (SaveOrder row) => [row]
                     | _ => []
                     end) tr.

Definition execution_events (tr : list Effect) : list OrderExecutionEvent :=
  flat_map (fun e => match e with
                     | Publish (EvOrderExecution ev) => [ev]
                     | _ => []
                     end) tr.

Definition terminal_events (tr : list Effect) : list TradeTerminalEvent :=
  flat_map (fun e => match e with
                     | Publish (EvTradeTerminal ev) => [ev]
                     | _ => []
                     end) tr.

(** The synthetic FLAT notices of [close_position]. *)
Definition flat_notices (tr : list Effect) : list PositionStateEvent :=
  flat_map (fun e => match e with
                     | Publish (EvPositionState ev) =>
                         match ps_side ev with
                         | FLAT => [ev]
                         | _ => []
                         end
                     | _ => []
                     end) tr.

(** ** The Mirror as Redis keeps it, and its readers in [api.py] *)

Module Redis.

(** [HSET key field value]: the hash is created when it is missing. *)
Definition hset (r : gmap string (gmap string Json)) (key field : string)
  (v : Json) : gmap string (gmap string Json) :=
  Py.set2 r key field v.

(** [HDEL key field]: a missing hash or field is not an error. *)
Definition hdel (r : gmap string (gmap string Json)) (key field : string)
  : gmap string (gmap string Json) :=
  match r !! key with
  | Some h => <[key := delete field h]> r
  | None => r
  end.

(** [HGET key field]. *)
Definition hget (r : gmap string (gmap string Json)) (key field : string)
  : option Json :=
  Py.get2 r key field.

End Redis.

Definition mirror_step (r : gmap string (gmap string Json)) (e : Effect)
  : gmap string (gmap string Json) :=
  match e with
  | Mirror (Hset key field v) => Redis.hset r key field v
  | Mirror (Hdel key field) => Redis.hdel r key field
  | _ => r
  end.

(** The hashes left in Redis by the Mirror writes of a trace, starting
    from an empty database. *)
Definition mirror_of (tr : list Effect) : gmap string (gmap string Json) :=
  fold_left mirror_step tr ∅.

Module Api.

(** [json.loads(x) if x else None] on the result of [hget]: the stored
    strings are never empty, and the string [null] decodes to [None]. *)
Definition loads_if (x : option Json) : option Json :=
  match x with
  | Some JNull => None
  | Some v => Some v
  | None => None
  end.

(** [get_instrument_state]: the pair (position, order). *)
Definition get_instrument_state (r : gmap string (gmap string Json))
  (strategy_id symbol : string) : option Json * option Json :=
  let pos := Redis.hget r (redis_key strategy_id "positions") symbol in
  let order := Redis.hget r (redis_key strategy_id "orders") symbol in
  (loads_if pos, loads_if order).

(** The status [list_instruments] gives a symbol of a strategy, from
    the two hashes of the strategy. *)
Definition instrument_status (r : gmap string (gmap string Json))
  (sid sym : string) : string :=
  match Redis.hget r (redis_key sid "positions") sym with
  | Some _ => "INTRADE"
  | None =>
      match Redis.hget r (redis_key sid "orders") sym with
      | Some _ => "PENDING"
      | None => "WAIT"
      end
  end.

End Api.

(** The Mirror shows, for every slot, exactly the position and the
    pending order the engine holds in memory. *)
Definition coherent (s : State) : Prop :=
  forall sid sym,
    Redis.hget (mirror_of (trace s)) (redis_key sid "positions") sym
    = JPosition <$> _get_position sid sym s /\
    Redis.hget (mirror_of (trace s)) (redis_key sid "orders") sym
    = JOrder <$> _get_order sid sym s.

(** ** Keys of [events.py] and the candle history *)

(** [f"strategy:{strategy_id}:meta"]. *)
Definition get_meta_key (strategy_id : string) : string :=
  String.append "strategy:" (String.append strategy_id ":meta").

(** [f"strategy:{strategy_id}:candles:{symbol}:{tf}"]. *)
Definition get_candles_key (strategy_id symbol tf : string) : string :=
  String.append "strategy:"
    (String.append strategy_id
       (String.append ":candles:"
          (String.append symbol (String.append ":" tf)))).

(** [f"strategy:{strategy_id}:signals"]. *)
Definition get_signals_ch (strategy_id : string) : string :=
  String.append "strategy:" (String.append strategy_id ":signals").

(** The first piece of [s.split(sep)] and the pieces after it, for a
    separator of one character. *)
Fixpoint split_pieces (sep : Ascii.ascii) (s : string) : string * list string :=
  match s with
  | EmptyString => (EmptyString, [])
  | String c rest =>
      let '(piece, pieces) := split_pieces sep rest in
      if Ascii.eqb c sep then (EmptyString, piece :: pieces)
      else (String c piece, pieces)
  end.

(** [s.split(sep)]. *)
Definition split_on (sep : Ascii.ascii) (s : string) : list string :=
  let '(piece, pieces) := split_pieces sep s in piece :: pieces.

(** The character [:]. *)
Definition colon : Ascii.ascii := Ascii.ascii_of_nat 58.

(** [key.split(":")[1]] of [list_instruments]; [None] is the
    [IndexError]. *)
Definition strategy_of_meta_key (key : string) : option string :=
  nth_error (split_on colon key) 1.

(** The string has no occurrence of the character. *)
Definition free_of (sep : Ascii.ascii) (s : string) : Prop :=
  ~ In sep (list_ascii_of_string s).

Module RedisList.

(** The index arithmetic of [LRANGE] and [LTRIM]: a negative index
    counts from the end, a start before the list is the first element,
    a stop after the list is the last one, and an empty range gives the
    empty list. *)
Definition lrange {A} (l : list A) (start stop : Z) : list A :=
  let n := Z.of_nat (length l) in
  let start := if (start <? 0)%Z then Z.max 0 (n + start) else start in
  let stop := if (stop <? 0)%Z then (n + stop)%Z else Z.min stop (n - 1) in
  if (stop <? start)%Z then []
  else take (Z.to_nat (stop - start + 1)) (drop (Z.to_nat start) l).

Definition ltrim {A} (l : list A) (start stop : Z) : list A :=
  lrange l start stop.

Definition rpush {A} (l : list A) (x : A) : list A := l ++ [x].

End RedisList.

(** The two writes of [get_historical_data] to the candle list:
    [rpush(r_key, event.json())] then [ltrim(r_key, -200, -1)]. *)
Definition push_candle {A} (history : list A) (candle : A) : list A :=
  RedisList.ltrim (RedisList.rpush history candle) (-200) (-1).

(** [get_historical_candles]: [r.lrange(key, -limit, -1)]. *)
Definition get_historical_candles {A} (history : list A) (limit : Z)
  : list A :=
  RedisList.lrange history (- limit) (-1).

(** ** The Ledger of [storage.py] *)

Module Storage.

(** The table [trades]: rows in insertion order, each with the [id]
    the AUTOINCREMENT key gave it.  Nothing deletes from the table, so
    the next id is the number of rows plus one. *)
Definition save_trade (trade_data : TradeRow)
  (table : list (nat * TradeRow)) : list (nat * TradeRow) :=
  table ++ [(S (length table), trade_data)].

(** [get_trades]: rows of the strategy, and of the symbol when one is
    given; [if symbol:] takes the empty string for no symbol. *)
Definition get_trades (table : list (nat * TradeRow)) (strategy_id : string)
  (symbol : option string) : list (nat * TradeRow) :=
  match symbol with
  | Some (String c sym) =>
      List.filter (fun r => String.eqb (tr_strategy_id (snd r)) strategy_id
                            && String.eqb (tr_symbol (snd r)) (String c sym))
        table
  | _ =>
      List.filter (fun r => String.eqb (tr_strategy_id (snd r)) strategy_id)
        table
  end.

(** The table [orders], keyed by [order_id]: [INSERT OR REPLACE] with
    [created_at] taken from the dictionary when it has the key and from
    the clock otherwise. *)
Definition save_order (now : Q) (created_at : option Q)
  (order_data : OrderRow) (table : gmap string (OrderRow * Q))
  : gmap string (OrderRow * Q) :=
  <[or_order_id order_data := (order_data, default now created_at)]> table.

End Storage.

(** The table [trades] after the [save_trade] calls of a trace, on a
    database that was empty. *)
Definition trades_table_of (tr : list Effect) : list (nat * TradeRow) :=
  fold_left (fun table row => Storage.save_trade row table)
    (ledger_trades tr) [].

(** The table [orders] after a sequence of [save_order] calls, each
    with its clock reading, on a database that was empty; the engine
    passes no [created_at]. *)
Definition orders_table_of (calls : list (Q * OrderRow))
  : gmap string (OrderRow * Q) :=
  fold_left (fun table call => Storage.save_order (fst call) None (snd call)
                                 table) calls ∅.

(** ** The strategy's own bookkeeping ([main.py]) *)

Module Strategy.

(** [OrderUpdateEvent] and [PositionUpdateEvent] of [events.py], after
    validation. *)
Record OrderUpdateEvent := {
  ou_order_id : string;
  ou_symbol : string;
  ou_status : string;
  ou_price : option Q
}.

Record PositionUpdateEvent := {
  pu_symbol : string;
  pu_size : Q;
  pu_entry_price : Q;
  pu_unrealised_pnl : Q
}.

(** [status in [...]]. *)
Definition status_in (status : string) (l : list string) : bool :=
  existsb (String.eqb status) l.

(** [handle_position_update] on [self.positions]. *)
Definition handle_position_update (event : PositionUpdateEvent)
  (positions : gmap string Q) : gmap string Q :=
  if Qeq_bool (pu_size event) 0
  then match positions !! pu_symbol event with
       | Some _ => delete (pu_symbol event) positions
       | None => positions
       end
  else <[pu_symbol event := pu_size event]> positions.

(** [handle_order_update] on [self.active_orders].  The log line that
    ends the handler reads attributes the event does not have; the
    error is caught by the handler itself, after the dictionary has
    been updated. *)
Definition handle_order_update (event : OrderUpdateEvent)
  (active_orders : gmap string (gmap string OrderUpdateEvent))
  : gmap string (gmap string OrderUpdateEvent) :=
  let symbol := ou_symbol event in
  let active_orders :=
    match active_orders !! symbol with
    | Some _ => active_orders
    | None => <[symbol := ∅]> active_orders
    end in
  if status_in (ou_status event) ["New"; "PartiallyFilled"] then
    Py.set2 active_orders symbol (ou_order_id event) event
  else if status_in (ou_status event) ["Filled"; "Cancelled"; "Rejected"]
  then
    let orders_of_symbol :=
      delete (ou_order_id event) (default ∅ (active_orders !! symbol)) in
    if decide (orders_of_symbol = ∅)
    then delete symbol active_orders
    else <[symbol := orders_of_symbol]> active_orders
  else active_orders.

(** The two entry filters of [check_entry_signals]:
    [self.positions.get(symbol, 0.0) != 0] and
    [self.active_orders.get(symbol)]. *)
Definition in_position (positions : gmap string Q) (symbol : string) : bool :=
  negb (Qeq_bool (default 0%Q (positions !! symbol)) 0).

Definition has_orders
  (active_orders : gmap string (gmap string OrderUpdateEvent))
  (symbol : string) : bool :=
  match active_orders !! symbol with
  | Some d => negb (bool_decide (d = ∅))
  | None => false
  end.

(** The caches after a sequence of events, starting empty. *)
Definition positions_after (events : list PositionUpdateEvent)
  : gmap string Q :=
  fold_left (fun positions event => handle_position_update event positions)
    events ∅.

Definition orders_after (events : list OrderUpdateEvent)
  : gmap string (gmap string OrderUpdateEvent) :=
  fold_left (fun active event => handle_order_update event active)
    events ∅.

(** The events that can change the entry of an order: those for its
    symbol and id whose status is one of the five the handler knows. *)
Definition concerns (symbol order_id : string) (event : OrderUpdateEvent)
  : bool :=
  String.eqb (ou_symbol event) symbol
  && String.eqb (ou_order_id event) order_id
  && status_in (ou_status event)
       ["New"; "PartiallyFilled"; "Filled"; "Cancelled"; "Rejected"].

End Strategy.

(** ** The two buses: [EventBus] ([bus.py]) and [MockBus] ([test_utils.py]) *)

Module Bus.

Section Handlers.
Context {W D : Type}.

(** A subscribed callable: called with the decoded message, it changes
    the world and either returns ([false]) or raises ([true]). *)
Definition Handler : Type := D -> W -> W * bool.

(** [subscribe] of both buses: append the handler to the list of the
    topic, creating the list when the topic is new. *)
Definition subscribe (topic : string) (handler : Handler)
  (handlers : gmap string (list Handler)) : gmap string (list Handler) :=
  <[topic := default [] (handlers !! topic) ++ [handler]]> handlers.

Definition subscribed (subs : list (string * Handler))
  : gmap string (list Handler) :=
  fold_left (fun handlers sub => subscribe (fst sub) (snd sub) handlers)
    subs ∅.

(** The inner loop of [EventBus._listen]: every handler runs, an
    exception of one is printed and the next one is called. *)
Definition call_all (hs : list Handler) (data : D) (w : W) : W :=
  fold_left (fun w h => fst (h data w)) hs w.

(** The body of [EventBus._listen] for one message of type
    ['message']; [payload] is [None] when [json.loads] fails. *)
Definition listen_one (handlers : gmap string (list Handler))
  (topic : string) (payload : option D) (w : W) : W :=
  match payload with
  | None => w
  | Some data =>
      match handlers !! topic with
      | Some hs => call_all hs data w
      | None => w
      end
  end.

(** The loop of [MockBus.publish]: the first exception is logged and
    raised again, so the handlers after it are not called. *)
Fixpoint call_until_raise (hs : list Handler) (data : D) (w : W)
  : W * bool :=
  match hs with
  | [] => (w, false)
  | h :: hs =>
      let '(w', raised) := h data w in
      if raised then (w', true) else call_until_raise hs data w'
  end.

(** [MockBus.publish]: the new [published] list, the world and whether
    the call raised. *)
Definition mock_publish (handlers : gmap string (list Handler))
  (published : list (string * D)) (topic : string) (data : D) (w : W)
  : list (string * D) * (W * bool) :=
  (published ++ [(topic, data)],
   call_until_raise (default [] (handlers !! topic)) data w).

End Handlers.

End Bus.

(** Every tick of the list is for the slot and leaves the price [P]
    outside its range. *)
Definition misses (sid sym : string) (P : Q) (data : CandleUpdateEvent)
  : Prop :=
  cdl_strategy_id data = sid /\ cdl_symbol data = sym /\
  ~ (cdl_low data <= P /\ P <= cdl_high data)%Q.

(** Ticks delivered to the loop at the given clock readings. *)
Definition ticks_at (ticks : list (Q * CandleUpdateEvent))
  : list (Q * Event) :=
  map (fun t => (fst t, Candle (snd t))) ticks.

(** Three handlers on a counter: add the message, fail, double. *)
Module BusCases.

Definition add : @Bus.Handler nat nat := fun data w => (w + data, false).
Definition fail : @Bus.Handler nat nat := fun data w => (w, true).
Definition double : @Bus.Handler nat nat := fun data w => (2 * w, false).

Definition subs : list (string * @Bus.Handler nat nat) :=
  [("ticks", add); ("orders", double); ("ticks", fail); ("ticks", double)].

End BusCases.

(** ** More concrete messages and states *)

Module Cases.

(** A limit short on another symbol of the same strategy. *)
Definition open_short_other : StrategySignalEvent :=
  {| sig_event_id := "e5"; sig_strategy_id := "S"; sig_symbol := "Y";
     sig_action := "OPEN_SHORT"; sig_price := Some 10%Q;
     sig_stop_loss := Some 12%Q; sig_take_profit := Some 8%Q |}.

(** A market long whose stop loss, 99, is touched by the quiet tick. *)
Definition open_long_tight : StrategySignalEvent :=
  {| sig_event_id := "e6"; sig_strategy_id := "S"; sig_symbol := "X";
     sig_action := "OPEN_LONG"; sig_price := None;
     sig_stop_loss := Some 99%Q; sig_take_profit := Some 110%Q |}.

(** A market long without bounds. *)
Definition open_long_bare : StrategySignalEvent :=
  {| sig_event_id := "e7"; sig_strategy_id := "S"; sig_symbol := "X";
     sig_action := "OPEN_LONG"; sig_price := None;
     sig_stop_loss := None; sig_take_profit := None |}.

Definition pending_tight : State :=
  run [(0%Q, Signal open_long_tight)] init.

Definition bare_position : Position :=
  new_position "S" "X" (order_of_signal open_long_bare) Ex.quiet_tick 100.

(** Slot (S, X) holding the long position entered at 100 together with
    the pending limit order at 98. *)
Definition reopened : State := run Ex.reopen init.

Definition second_position : Position :=
  new_position "S" "X" (order_of_signal Ex.open_long_limit) Ex.near_tick 98.

(** A limit long at 130, above the range of the wide tick. *)
Definition open_long_far : StrategySignalEvent :=
  {| sig_event_id := "e8"; sig_strategy_id := "S"; sig_symbol := "X";
     sig_action := "OPEN_LONG"; sig_price := Some 130%Q;
     sig_stop_loss := Some 125%Q; sig_take_profit := Some 140%Q |}.

(** Slot (S, X) holding the long position entered at 100 together with
    the pending limit order at 130. *)
Definition held_with_far_order : State :=
  run [(0%Q, Signal Ex.open_long); (0%Q, Candle Ex.quiet_tick);
       (0%Q, Signal open_long_far)] init.

(** A tick crossing 95 and 110, with the limit price 98 in its range. *)
Definition tie_tick : CandleUpdateEvent := Ex.tick 100 115 94 100 4.

(** The position the tie tick installs from the limit order at 98. *)
Definition tie_position : Position :=
  new_position "S" "X" (order_of_signal Ex.open_long_limit) tie_tick 98.

(** The pending market order filled by the quiet tick, the turn ending
    before the exit check. *)
Definition cut_after_fill : State :=
  state_of (fill_phase Ex.quiet_tick Ex.pending_market).

End Cases.

(** ** Dictionaries of dictionaries *)

Section Dict2.
Context {V : Type}.
Implicit Types (d : gmap string (gmap string V)) (k j : string).

Lemma get2_set2 d k1 k2 v j1 j2 :
  Py.get2 (Py.set2 d k1 k2 v) j1 j2 =
  if decide (k1 = j1 /\ k2 = j2) then Some v else Py.get2 d j1 j2.
Proof.
  unfold Py.get2, Py.set2.
  destruct (decide (k1 = j1)) as [->|Hk1].
  - rewrite lookup_insert_eq.
    destruct (decide (k2 = j2)) as [->|Hk2].
    + rewrite lookup_insert_eq, decide_True; auto.
    + rewrite lookup_insert_ne, decide_False by tauto.
      destruct (d !! j1); [reflexivity | apply lookup_empty].
  - rewrite lookup_insert_ne, decide_False by tauto. reflexivity.
Qed.

Lemma get2_set2_eq d k1 k2 v : Py.get2 (Py.set2 d k1 k2 v) k1 k2 = Some v.
Proof. rewrite get2_set2, decide_True; auto. Qed.

Lemma pop2_is_Some d k1 k2 v :
  Py.get2 d k1 k2 = Some v -> exists d', Py.pop2 d k1 k2 = Some d'.
Proof.
  unfold Py.get2, Py.pop2. intros H.
  destruct (d !! k1) as [inner|]; [|discriminate].
  rewrite H. eauto.
Qed.

Lemma get2_pop2 d d' k1 k2 j1 j2 :
  Py.pop2 d k1 k2 = Some d' ->
  Py.get2 d' j1 j2 =
  if decide (k1 = j1 /\ k2 = j2) then None else Py.get2 d j1 j2.
Proof.
  unfold Py.get2, Py.pop2. intros H.
  destruct (d !! k1) as [inner|] eqn:Hin; [|discriminate].
  destruct (inner !! k2); [|discriminate].
  injection H as <-.
  destruct (decide (k1 = j1)) as [->|Hk1].
  - rewrite lookup_insert_eq, Hin.
    destruct (decide (k2 = j2)) as [->|Hk2].
    + rewrite lookup_delete_eq, decide_True; auto.
    + rewrite lookup_delete_ne, decide_False by tauto. reflexivity.
  - rewrite lookup_insert_ne, decide_False by tauto. reflexivity.
Qed.

Lemma get2_pop2_eq d d' k1 k2 :
  Py.pop2 d k1 k2 = Some d' -> Py.get2 d' k1 k2 = None.
Proof. intros H. rewrite (get2_pop2 _ _ _ _ _ _ H), decide_True; auto. Qed.

Lemma get2_alter2 (f : V -> V) d k1 k2 j1 j2 :
  Py.get2 (Py.alter2 f d k1 k2) j1 j2 =
  if decide (k1 = j1 /\ k2 = j2) then f <$> Py.get2 d j1 j2
  else Py.get2 d j1 j2.
Proof.
  unfold Py.get2, Py.alter2.
  destruct (decide (k1 = j1)) as [->|Hk1].
  - rewrite lookup_alter_eq.
    destruct (d !! j1) as [inner|]; simpl.
    + destruct (decide (k2 = j2)) as [->|Hk2].
      * rewrite lookup_alter_eq, decide_True; auto.
      * rewrite lookup_alter_ne, decide_False by tauto. reflexivity.
    + destruct (decide _); reflexivity.
  - rewrite lookup_alter_ne, decide_False by tauto. reflexivity.
Qed.

Lemma get2_empty k1 k2 :
  Py.get2 (∅ : gmap string (gmap string V)) k1 k2 = None.
Proof. unfold Py.get2. rewrite lookup_empty. reflexivity. Qed.

End Dict2.

(** ** What each routine does to the state *)

Ltac run_handler :=
  unfold bind, ret, raise, gets, storage_save_trade, storage_save_order,
    _publish_event, _sync_state_to_redis, mem_set_position, mem_set_order,
    mem_pop_position, mem_pop_order, mem_set_bound, log; simpl.

Ltac flatten_trace := rewrite <- ?app_assoc; simpl.

Lemma effects_since_app s s' (l : list Effect) :
  trace s' = trace s ++ l -> effects_since s s' = l.
Proof. unfold effects_since. intros ->. apply drop_app_length. Qed.

Lemma fill_decision_pure order candle s r s' :
  fill_decision order candle s = Ok r s' -> s' = s.
Proof.
  unfold fill_decision. run_handler.
  destruct (order_type order); [congruence|].
  destruct (sig_price (order_data order)); [|discriminate].
  destruct (_ && _); congruence.
Qed.

Lemma close_position_ok now sid sym pos po r ts s d :
  Py.pop2 (positions s) sid sym = Some d ->
  close_position now sid sym pos po r ts s =
  Ok tt {| positions := d; orders := orders s;
           trace := trace s ++ close_effects now sid sym pos po r ts |}.
Proof.
  intros Hpop. unfold close_position. run_handler. rewrite Hpop. simpl.
  unfold close_effects. flatten_trace. reflexivity.
Qed.

Lemma close_position_raise now sid sym pos po r ts s :
  Py.pop2 (positions s) sid sym = None ->
  close_position now sid sym pos po r ts s =
  Raise KeyError
    (log (Ledger (SaveTrade (trade_row now sid sym pos po r ts))) s).
Proof.
  intros Hpop. unfold close_position. run_handler. rewrite Hpop. reflexivity.
Qed.

Lemma check_order_fill_ok sid sym order candle fill_price s d :
  fill_decision order candle s = Ok (Some fill_price) s ->
  Py.pop2 (orders s) sid sym = Some d ->
  check_order_fill sid sym order candle s =
  Ok tt {| positions :=
             Py.set2 (positions s) sid sym
               (new_position sid sym order candle fill_price);
           orders := d;
           trace := trace s ++ fill_effects sid sym order candle fill_price |}.
Proof.
  intros Hfill Hpop. unfold check_order_fill, bind at 1. rewrite Hfill.
  run_handler. rewrite Hpop. simpl.
  unfold fill_effects. flatten_trace. reflexivity.
Qed.

Lemma check_order_fill_skip sid sym order candle s :
  fill_decision order candle s = Ok None s ->
  check_order_fill sid sym order candle s = Ok tt s.
Proof.
  intros Hfill. unfold check_order_fill, bind at 1. rewrite Hfill.
  reflexivity.
Qed.

Lemma check_order_fill_raise sid sym order candle s e s' :
  fill_decision order candle s = Raise e s' ->
  check_order_fill sid sym order candle s = Raise TypeError s.
Proof.
  unfold check_order_fill, bind at 1, fill_decision. run_handler.
  destruct (order_type order); [discriminate|].
  destruct (sig_price (order_data order)); [|reflexivity].
  destruct (_ && _); discriminate.
Qed.

Lemma fill_decision_market order candle s :
  order_type order = MARKET ->
  fill_decision order candle s = Ok (Some (cdl_open candle)) s.
Proof. unfold fill_decision. intros ->. reflexivity. Qed.

Lemma fill_decision_limit order candle price s :
  order_type order = LIMIT ->
  sig_price (order_data order) = Some price ->
  fill_decision order candle s =
  Ok (if Qle_bool (cdl_low candle) price && Qle_bool price (cdl_high candle)
      then Some price else None) s.
Proof.
  unfold fill_decision. intros -> ->. destruct (_ && _); reflexivity.
Qed.

Lemma process_candle_phases now data :
  process_candle now data = (fill_phase data ;; exit_phase now data).
Proof. reflexivity. Qed.

Lemma process_candle_skip now data s :
  _get_order (cdl_strategy_id data) (cdl_symbol data) s = None \/
  (exists order,
     _get_order (cdl_strategy_id data) (cdl_symbol data) s = Some order /\
     fill_decision order data s = Ok None s) ->
  process_candle now data s = exit_phase now data s.
Proof.
  intros [Hnone|(order & Hsome & Hfill)];
    rewrite process_candle_phases; unfold bind at 1;
    unfold fill_phase, bind at 1, gets.
  - rewrite Hnone. reflexivity.
  - rewrite Hsome, (check_order_fill_skip _ _ _ _ _ Hfill). reflexivity.
Qed.

Lemma pop2_None_inv {V} (d : gmap string (gmap string V)) k1 k2 :
  Py.pop2 d k1 k2 = None -> Py.get2 d k1 k2 = None.
Proof.
  unfold Py.get2, Py.pop2.
  destruct (d !! k1) as [inner|]; [|reflexivity].
  destruct (inner !! k2); [discriminate | reflexivity].
Qed.

(** The state a close leaves behind, whether it returns or raises. *)
Lemma close_position_state now sid sym pos po r ts s :
  let s' := state_of (close_position now sid sym pos po r ts s) in
  orders s' = orders s /\
  (forall j1 j2, Py.get2 (positions s') j1 j2 =
     if decide (sid = j1 /\ sym = j2) then None
     else Py.get2 (positions s) j1 j2) /\
  exists l, trace s' = trace s ++ l /\ fills l = [].
Proof.
  destruct (Py.pop2 (positions s) sid sym) as [d|] eqn:Hpop.
  - rewrite (close_position_ok _ _ _ _ _ _ _ _ _ Hpop). simpl.
    split; [reflexivity|]. split.
    + intros j1 j2. apply get2_pop2, Hpop.
    + eexists. split; reflexivity.
  - rewrite (close_position_raise _ _ _ _ _ _ _ _ Hpop). simpl.
    split; [reflexivity|]. split.
    + intros j1 j2. destruct (decide _) as [[<- <-]|]; [|reflexivity].
      apply pop2_None_inv, Hpop.
    + eexists. split; reflexivity.
Qed.

Lemma check_position_exit_cases now sid sym pos candle s :
  check_position_exit now sid sym pos candle s = Ok tt s \/
  exists exit_price reason,
    exit_decision pos candle = (exit_price, reason) /\
    Py.truthy exit_price = true /\
    check_position_exit now sid sym pos candle s =
    close_position now sid sym pos exit_price reason
      (Some (cdl_timestamp candle)) s.
Proof.
  unfold check_position_exit.
  destruct (exit_decision pos candle) as [exit_price reason].
  destruct (Py.truthy exit_price) eqn:Ht; [right|left; reflexivity].
  exists exit_price, reason. auto.
Qed.

Lemma check_position_exit_state now sid sym pos candle s :
  let s' := state_of (check_position_exit now sid sym pos candle s) in
  orders s' = orders s /\
  (forall j1 j2,
     Py.get2 (positions s') j1 j2 = Py.get2 (positions s) j1 j2 \/
     (sid = j1 /\ sym = j2) /\ Py.get2 (positions s') j1 j2 = None) /\
  exists l, trace s' = trace s ++ l /\ fills l = [].
Proof.
  destruct (check_position_exit_cases now sid sym pos candle s)
    as [->|(ep & r & _ & _ & ->)].
  - simpl. split; [reflexivity|]. split; [auto|].
    exists []. rewrite app_nil_r. auto.
  - destruct (close_position_state now sid sym pos ep r
                (Some (cdl_timestamp candle)) s) as (Ho & Hp & Ht).
    split; [exact Ho|]. split; [|exact Ht].
    intros j1 j2. rewrite Hp. destruct (decide _); auto.
Qed.

Lemma exit_phase_state now data s :
  let s' := state_of (exit_phase now data s) in
  orders s' = orders s /\
  (forall j1 j2,
     Py.get2 (positions s') j1 j2 = Py.get2 (positions s) j1 j2 \/
     (cdl_strategy_id data = j1 /\ cdl_symbol data = j2) /\
     Py.get2 (positions s') j1 j2 = None) /\
  exists l, trace s' = trace s ++ l /\ fills l = [].
Proof.
  unfold exit_phase, bind, gets.
  destruct (_get_position _ _ s) as [pos|].
  - apply check_position_exit_state.
  - simpl. split; [reflexivity|]. split; [auto|].
    exists []. rewrite app_nil_r. auto.
Qed.

Lemma fills_app (l1 l2 : list Effect) : fills (l1 ++ l2) = fills l1 ++ fills l2.
Proof. unfold fills. apply flat_map_app. Qed.

Lemma in_range_iff (lo p hi : Q) :
  Qle_bool lo p && Qle_bool p hi = true <-> (lo <= p /\ p <= hi)%Q.
Proof. rewrite andb_true_iff, !Qle_bool_iff. reflexivity. Qed.

(** ** A tick against a pending order *)

Section Tick.
Variables (now : Q) (data : CandleUpdateEvent) (order : Order) (s : State).
Hypothesis pending :
  _get_order (cdl_strategy_id data) (cdl_symbol data) s = Some order.

Lemma process_candle_fill fill_price :
  fill_decision order data s = Ok (Some fill_price) s ->
  exists d,
    Py.pop2 (orders s) (cdl_strategy_id data) (cdl_symbol data) = Some d /\
    process_candle now data s =
    exit_phase now data
      {| positions :=
           Py.set2 (positions s) (cdl_strategy_id data) (cdl_symbol data)
             (new_position (cdl_strategy_id data) (cdl_symbol data) order
                data fill_price);
         orders := d;
         trace := trace s ++
           fill_effects (cdl_strategy_id data) (cdl_symbol data) order data
             fill_price |}.
Proof.
  intros Hfill.
  destruct (pop2_is_Some _ _ _ _ pending) as [d Hd].
  exists d. split; [exact Hd|].
  rewrite process_candle_phases. unfold bind at 1.
  unfold fill_phase, bind at 1, gets. rewrite pending.
  rewrite (check_order_fill_ok _ _ _ _ _ _ _ Hfill Hd). reflexivity.
Qed.

Lemma process_candle_filled fill_price :
  fill_decision order data s = Ok (Some fill_price) s ->
  let s' := state_of (process_candle now data s) in
  _get_order (cdl_strategy_id data) (cdl_symbol data) s' = None /\
  exists rest,
    effects_since s s' =
    fill_effects (cdl_strategy_id data) (cdl_symbol data) order data
      fill_price ++ rest /\
    fills rest = [].
Proof.
  intros Hfill.
  destruct (process_candle_fill _ Hfill) as (d & Hd & ->).
  match goal with |- context [exit_phase now data ?s1] =>
    destruct (exit_phase_state now data s1) as (Ho & _ & l & Ht & Hl)
  end.
  simpl in Ho, Ht. split.
  - unfold _get_order. rewrite Ho. apply (get2_pop2_eq _ _ _ _ Hd).
  - exists l. split; [|exact Hl].
    apply effects_since_app. rewrite Ht, app_assoc. reflexivity.
Qed.

Lemma process_candle_not_filled :
  fill_decision order data s = Ok None s ->
  let s' := state_of (process_candle now data s) in
  _get_order (cdl_strategy_id data) (cdl_symbol data) s' = Some order /\
  fills (effects_since s s') = [].
Proof.
  intros Hfill.
  assert (process_candle now data s = exit_phase now data s) as ->.
  { rewrite process_candle_phases. unfold bind at 1.
    unfold fill_phase, bind at 1, gets. rewrite pending.
    rewrite (check_order_fill_skip _ _ _ _ _ Hfill). reflexivity. }
  destruct (exit_phase_state now data s) as (Ho & _ & l & Ht & Hl).
  split.
  - unfold _get_order. rewrite Ho. exact pending.
  - rewrite (effects_since_app _ _ _ Ht). exact Hl.
Qed.

End Tick.

Lemma fills_fill_effects sid sym order data fill_price :
  fills (fill_effects sid sym order data fill_price) =
  [(sid, sym, new_position sid sym order data fill_price)].
Proof. reflexivity. Qed.

(** C5. A tick processed for a slot that holds a pending MARKET order
    fills it: the order is no longer pending afterwards, the effects of
    the tick start with those of the fill, exactly one position is
    installed, and its entry price is the open price of the tick. *)
Theorem market_order_fills_at_open now data order s :
  _get_order (cdl_strategy_id data) (cdl_symbol data) s = Some order ->
  order_type order = MARKET ->
  let sid := cdl_strategy_id data in
  let sym := cdl_symbol data in
  let s' := state_of (process_candle now data s) in
  let pos := new_position sid sym order data (cdl_open data) in
  _get_order sid sym s' = None /\
  fills (effects_since s s') = [(sid, sym, pos)] /\
  pos_entry_price pos = cdl_open data /\
  exists rest,
    effects_since s s' =
    fill_effects sid sym order data (cdl_open data) ++ rest.
Proof.
  intros Hpending Hmarket sid sym s' pos.
  destruct (process_candle_filled now data order s Hpending (cdl_open data)
              (fill_decision_market order data s Hmarket))
    as (Hgone & rest & Heff & Hrest).
  fold sid sym s' in Hgone, Heff.
  split; [exact Hgone|]. split; [|split; [reflexivity|eauto]].
  rewrite Heff, fills_app, Hrest, app_nil_r. reflexivity.
Qed.

Lemma market_order_fills_at_open_witness :
  _get_order "S" "X" Ex.pending_market = Some (order_of_signal Ex.open_long)
  /\ _get_order "S" "X"
       (step Ex.pending_market (1%Q, Candle Ex.quiet_tick)) = None
  /\ fills (effects_since Ex.pending_market
              (step Ex.pending_market (1%Q, Candle Ex.quiet_tick)))
     = [("S", "X", Ex.long_position)]
  /\ pos_entry_price Ex.long_position = cdl_open Ex.quiet_tick.
Proof.
  assert (_get_order "S" "X" Ex.pending_market
          = Some (order_of_signal Ex.open_long)) as Hpending
    by (vm_compute; reflexivity).
  split; [exact Hpending|].
  destruct (market_order_fills_at_open 1 Ex.quiet_tick
              (order_of_signal Ex.open_long) Ex.pending_market
              Hpending eq_refl)
    as (Hgone & Hfills & Hprice & _).
  split; [exact Hgone|]. split; [exact Hfills | exact Hprice].
Defined.

(** C4. A tick processed for a slot that holds a pending LIMIT order at
    price [P] fills it if and only if [low <= P <= high]: in range the
    order leaves the pending map and exactly one position is installed,
    with entry price [P]; out of range the order stays pending and no
    position is installed. *)
Theorem limit_order_fills_iff_in_range now data order P s :
  _get_order (cdl_strategy_id data) (cdl_symbol data) s = Some order ->
  order_type order = LIMIT ->
  sig_price (order_data order) = Some P ->
  let sid := cdl_strategy_id data in
  let sym := cdl_symbol data in
  let s' := state_of (process_candle now data s) in
  let pos := new_position sid sym order data P in
  ((cdl_low data <= P /\ P <= cdl_high data)%Q <->
   fills (effects_since s s') = [(sid, sym, pos)]) /\
  ((cdl_low data <= P /\ P <= cdl_high data)%Q <->
   _get_order sid sym s' = None) /\
  (~ (cdl_low data <= P /\ P <= cdl_high data)%Q <->
   fills (effects_since s s') = [] /\ _get_order sid sym s' = Some order) /\
  pos_entry_price pos = P.
Proof.
  intros Hpending Hlimit Hprice sid sym s' pos.
  pose proof (fill_decision_limit order data P s Hlimit Hprice) as Hfill.
  rewrite <- in_range_iff.
  destruct (Qle_bool (cdl_low data) P && Qle_bool P (cdl_high data)).
  - destruct (process_candle_filled now data order s Hpending P Hfill)
      as (Hgone & rest & Heff & Hrest).
    fold sid sym s' in Hgone, Heff.
    assert (fills (effects_since s s') = [(sid, sym, pos)]) as Hfills.
    { rewrite Heff, fills_app, Hrest, app_nil_r. reflexivity. }
    rewrite Hfills, Hgone.
    split; [tauto|]. split; [tauto|]. split; [|reflexivity].
    split; [intros H; exfalso; apply H; reflexivity|].
    intros [H _]. discriminate H.
  - destruct (process_candle_not_filled now data order s Hpending Hfill)
      as (Hstay & Hnone).
    fold sid sym s' in Hstay, Hnone.
    rewrite Hnone, Hstay.
    split; [split; discriminate|]. split; [split; discriminate|].
    split; [|reflexivity]. split; [auto|discriminate].
Qed.

(** The LIMIT order at 98 is filled by the tick from 97 to 99 and is not
    by the tick from 99 to 101. *)
Lemma limit_order_fills_iff_in_range_witness :
  _get_order "S" "X" Ex.pending_limit
  = Some (order_of_signal Ex.open_long_limit) /\
  fills (effects_since Ex.pending_limit
           (step Ex.pending_limit (3%Q, Candle Ex.near_tick)))
  = [("S", "X",
      new_position "S" "X" (order_of_signal Ex.open_long_limit)
        Ex.near_tick 98)] /\
  _get_order "S" "X" (step Ex.pending_limit (1%Q, Candle Ex.quiet_tick))
  = Some (order_of_signal Ex.open_long_limit).
Proof.
  assert (_get_order "S" "X" Ex.pending_limit
          = Some (order_of_signal Ex.open_long_limit)) as Hpending
    by (vm_compute; reflexivity).
  split; [exact Hpending|]. split.
  - apply (limit_order_fills_iff_in_range 3 Ex.near_tick
             (order_of_signal Ex.open_long_limit) 98%Q Ex.pending_limit
             Hpending eq_refl eq_refl).
    split; vm_compute; discriminate.
  - apply (limit_order_fills_iff_in_range 1 Ex.quiet_tick
             (order_of_signal Ex.open_long_limit) 98%Q Ex.pending_limit
             Hpending eq_refl eq_refl).
    intros [H _]. vm_compute in H. apply H. reflexivity.
Defined.


(** ** Signals *)

Lemma process_signal_open now data s :
  String.prefix "OPEN" (sig_action data) = true ->
  process_signal now data s =
  Ok tt {| positions := positions s;
           orders := Py.set2 (orders s) (sig_strategy_id data)
                       (sig_symbol data) (order_of_signal data);
           trace := trace s ++
             [ Mem (SetOrder (sig_strategy_id data) (sig_symbol data)
                      (order_of_signal data));
               Mirror (Hset (redis_key (sig_strategy_id data) "orders")
                         (sig_symbol data)
                         (JOrder (order_of_signal data))) ] |}.
Proof.
  intros Hopen. unfold process_signal, order_of_signal. rewrite Hopen.
  destruct (Py.truthy (sig_price data)); simpl;
    unfold _add_order; run_handler; flatten_trace; reflexivity.
Qed.

Lemma process_signal_close now data s :
  String.prefix "OPEN" (sig_action data) = false ->
  String.prefix "CLOSE" (sig_action data) = true ->
  process_signal now data s =
  match _get_position (sig_strategy_id data) (sig_symbol data) s with
  | Some pos =>
      close_position now (sig_strategy_id data) (sig_symbol data) pos None
        (Some SIGNAL) None s
  | None => Ok tt s
  end.
Proof.
  intros Hopen Hclose. unfold process_signal. rewrite Hopen, Hclose.
  unfold bind, gets. destruct (_get_position _ _ s); reflexivity.
Qed.

Lemma process_signal_ignored now data s :
  String.prefix "OPEN" (sig_action data) = false ->
  String.prefix "CLOSE" (sig_action data) = false ->
  process_signal now data s = Ok tt s.
Proof.
  intros Hopen Hclose. unfold process_signal. rewrite Hopen, Hclose.
  reflexivity.
Qed.

(** C3, as amended.  An open signal is never a no-op: whatever the slot
    holds, the handler stores the order built from the signal in the
    slot (MARKET when the price is missing or zero, LIMIT otherwise),
    replacing a pending order if there is one, and writes it to the
    Mirror.  Positions, the pending orders of the other slots, the
    Ledger and the published events are left as they were. *)
Theorem open_signal_installs_order now data s :
  sig_action data = "OPEN_LONG" \/ sig_action data = "OPEN_SHORT" ->
  let sid := sig_strategy_id data in
  let sym := sig_symbol data in
  exists s',
    process_signal now data s = Ok tt s' /\
    _get_order sid sym s' = Some (order_of_signal data) /\
    (forall sid' sym', ~ (sid = sid' /\ sym = sym') ->
       _get_order sid' sym' s' = _get_order sid' sym' s) /\
    positions s' = positions s /\
    effects_since s s' =
      [ Mem (SetOrder sid sym (order_of_signal data));
        Mirror (Hset (redis_key sid "orders") sym
                  (JOrder (order_of_signal data))) ].
Proof.
  intros Haction sid sym.
  assert (String.prefix "OPEN" (sig_action data) = true) as Hopen
    by (destruct Haction as [-> | ->]; reflexivity).
  eexists. split; [apply process_signal_open, Hopen|].
  unfold _get_order. simpl. fold sid sym.
  split; [apply get2_set2_eq|]. split.
  - intros sid' sym' Hne. rewrite get2_set2, decide_False by exact Hne.
    reflexivity.
  - split; [reflexivity|]. apply effects_since_app. reflexivity.
Qed.

Lemma open_signal_installs_order_witness :
  exists s',
    process_signal 0 Ex.open_long_limit Ex.long_open = Ok tt s' /\
    _get_order "S" "X" s' = Some (order_of_signal Ex.open_long_limit) /\
    _get_position "S" "X" s' = Some Ex.long_position.
Proof.
  destruct (open_signal_installs_order 0 Ex.open_long_limit Ex.long_open)
    as (s' & Hrun & Horder & _ & Hpos & _).
  - left. reflexivity.
  - exists s'. split; [exact Hrun|]. split; [exact Horder|].
    unfold _get_position. rewrite Hpos. vm_compute. reflexivity.
Defined.

(** C3 as stated fails.  Slot (S, X) holds a pending MARKET order and a
    second OPEN_LONG signal arrives: the pending order is replaced by a
    LIMIT order at 98.  Slot (S, X) holds a position and an OPEN_LONG
    signal arrives: a pending order appears next to the position. *)
Lemma open_signal_is_not_a_noop :
  (is_Some (_get_order "S" "X" Ex.pending_market) /\
   _get_order "S" "X"
     (step Ex.pending_market (0%Q, Signal Ex.open_long_limit))
   <> _get_order "S" "X" Ex.pending_market) /\
  (is_Some (_get_position "S" "X" Ex.long_open) /\
   _get_order "S" "X" Ex.long_open = None /\
   _get_order "S" "X" (step Ex.long_open (0%Q, Signal Ex.open_long_limit))
   = Some (order_of_signal Ex.open_long_limit)).
Proof.
  split; [split|split; [|split]].
  - vm_compute. eauto.
  - vm_compute. discriminate.
  - vm_compute. eauto.
  - vm_compute. reflexivity.
  - vm_compute. reflexivity.
Qed.

(** ** TP/SL updates *)

Lemma get2_alter2_eq {V} (f : V -> V) (d : gmap string (gmap string V))
  k1 k2 v :
  Py.get2 d k1 k2 = Some v -> Py.get2 (Py.alter2 f d k1 k2) k1 k2 = Some (f v).
Proof. intros H. rewrite get2_alter2, decide_True, H; auto. Qed.

Lemma update_tp_sl_absent data s :
  _get_position (req_strategy_id data) (req_symbol data) s = None ->
  update_tp_sl data s = Ok tt s.
Proof.
  intros Hpos. unfold update_tp_sl, bind at 1, gets. rewrite Hpos.
  reflexivity.
Qed.

Lemma update_tp_sl_present data pos s :
  _get_position (req_strategy_id data) (req_symbol data) s = Some pos ->
  let sid := req_strategy_id data in
  let sym := req_symbol data in
  exists s',
    update_tp_sl data s = Ok tt s' /\
    orders s' = orders s /\
    (forall j1 j2, Py.get2 (positions s') j1 j2 =
       if decide (sid = j1 /\ sym = j2) then Some (apply_request data pos)
       else Py.get2 (positions s) j1 j2) /\
    trace s' = trace s ++
      bound_effects sid sym StopLoss (req_stop_loss data) ++
      bound_effects sid sym TakeProfit (req_take_profit data) ++
      [ Publish (EvPositionState
                   (state_event sid sym (apply_request data pos)));
        Mirror (Hset (redis_key sid "positions") sym
                  (JPosition (apply_request data pos))) ].
Proof.
  intros Hpos sid sym. unfold _get_position in Hpos. fold sid sym in Hpos.
  unfold update_tp_sl, bind at 1, gets, _get_position. fold sid sym.
  rewrite Hpos. unfold apply_request.
  destruct (req_stop_loss data) as [v1|], (req_take_profit data) as [v2|];
    run_handler.
  - rewrite (get2_alter2_eq _ _ _ _ _
               (get2_alter2_eq (set_bound StopLoss v1) _ _ _ _ Hpos)).
    simpl. eexists. split; [reflexivity|]. simpl.
    split; [reflexivity|]. split; [|flatten_trace; reflexivity].
    intros j1 j2. rewrite !get2_alter2.
    destruct (decide _) as [[<- <-]|]; [rewrite Hpos|]; reflexivity.
  - rewrite (get2_alter2_eq (set_bound StopLoss v1) _ _ _ _ Hpos).
    simpl. eexists. split; [reflexivity|]. simpl.
    split; [reflexivity|]. split; [|flatten_trace; reflexivity].
    intros j1 j2. rewrite !get2_alter2.
    destruct (decide _) as [[<- <-]|]; [rewrite Hpos|]; reflexivity.
  - rewrite (get2_alter2_eq (set_bound TakeProfit v2) _ _ _ _ Hpos).
    simpl. eexists. split; [reflexivity|]. simpl.
    split; [reflexivity|]. split; [|flatten_trace; reflexivity].
    intros j1 j2. rewrite !get2_alter2.
    destruct (decide _) as [[<- <-]|]; [rewrite Hpos|]; reflexivity.
  - rewrite Hpos. simpl. eexists. split; [reflexivity|]. simpl.
    split; [reflexivity|]. split; [|flatten_trace; reflexivity].
    intros j1 j2. destruct (decide _) as [[<- <-]|]; [rewrite Hpos|];
      reflexivity.
Qed.

Lemma apply_request_bounds data pos :
  pos_stop_loss (apply_request data pos) =
    default (pos_stop_loss pos) (req_stop_loss data) /\
  pos_take_profit (apply_request data pos) =
    default (pos_take_profit pos) (req_take_profit data).
Proof.
  unfold apply_request.
  destruct (req_stop_loss data), (req_take_profit data); split; reflexivity.
Qed.

Lemma apply_request_frame data pos :
  pos_strategy_id (apply_request data pos) = pos_strategy_id pos /\
  pos_symbol (apply_request data pos) = pos_symbol pos /\
  pos_side (apply_request data pos) = pos_side pos /\
  pos_size (apply_request data pos) = pos_size pos /\
  pos_entry_price (apply_request data pos) = pos_entry_price pos /\
  pos_entry_time (apply_request data pos) = pos_entry_time pos /\
  pos_unrealised_pnl (apply_request data pos) = pos_unrealised_pnl pos /\
  pos_last_close (apply_request data pos) = pos_last_close pos.
Proof.
  unfold apply_request.
  destruct (req_stop_loss data), (req_take_profit data);
    repeat split; reflexivity.
Qed.

(** C8. A TP/SL update request returns normally and changes, on the
    position of its slot, exactly the bounds whose key is in the
    request: a bound whose key is absent keeps its value, side, size,
    entry price and entry time keep theirs, the positions of the other
    slots and all pending orders are unchanged; when the slot holds no
    position the whole state is unchanged. *)
Theorem update_tp_sl_changes_only_present_fields data s :
  let sid := req_strategy_id data in
  let sym := req_symbol data in
  exists s',
    update_tp_sl data s = Ok tt s' /\
    orders s' = orders s /\
    (forall sid' sym', ~ (sid = sid' /\ sym = sym') ->
       _get_position sid' sym' s' = _get_position sid' sym' s) /\
    match _get_position sid sym s with
    | None => s' = s
    | Some pos =>
        exists pos',
          _get_position sid sym s' = Some pos' /\
          pos_stop_loss pos' =
            match req_stop_loss data with
            | Some v => v
            | None => pos_stop_loss pos
            end /\
          pos_take_profit pos' =
            match req_take_profit data with
            | Some v => v
            | None => pos_take_profit pos
            end /\
          pos_side pos' = pos_side pos /\
          pos_size pos' = pos_size pos /\
          pos_entry_price pos' = pos_entry_price pos /\
          pos_entry_time pos' = pos_entry_time pos
    end.
Proof.
  intros sid sym.
  destruct (_get_position sid sym s) as [pos|] eqn:Hpos.
  - destruct (update_tp_sl_present data pos s Hpos)
      as (s' & Hrun & Ho & Hp & _).
    fold sid sym in Hp.
    exists s'. split; [exact Hrun|]. split; [exact Ho|]. split.
    + intros sid' sym' Hne. unfold _get_position.
      rewrite Hp, decide_False by exact Hne. reflexivity.
    + exists (apply_request data pos). split.
      * unfold _get_position. rewrite Hp, decide_True by auto. reflexivity.
      * destruct (apply_request_bounds data pos) as [Hsl Htp].
        destruct (apply_request_frame data pos)
          as (_ & _ & Hside & Hsize & Hprice & Htime & _).
        rewrite Hsl, Htp.
        destruct (req_stop_loss data), (req_take_profit data); simpl;
          repeat split; assumption.
  - exists s. split; [apply update_tp_sl_absent, Hpos|]. auto.
Qed.

(** The scenario of the design notes: a request carrying only
    [take_profit] on the long position with stop loss 95. *)
Example update_take_profit_only :
  (pos_stop_loss <$> _get_position "S" "X"
     (step Ex.long_open (0%Q, SetTPSL Ex.raise_take_profit)),
   pos_take_profit <$> _get_position "S" "X"
     (step Ex.long_open (0%Q, SetTPSL Ex.raise_take_profit)))
  = (Some (Some 95%Q), Some (Some 130%Q)).
Proof. vm_compute. reflexivity. Qed.

(** ** Closing a position *)

(** C10. Every close of a position held by the slot returns normally and
    publishes a [TradeTerminalEvent] followed by the FLAT position
    notice, whatever the reason; its [trigger_type] is the reason when
    the reason is TP or SL, and TP when the reason is SIGNAL. *)
Theorem close_publishes_terminal_event now sid sym pos po reason ts s held :
  _get_position sid sym s = Some held ->
  exists s',
    close_position now sid sym pos po reason ts s = Ok tt s' /\
    published (effects_since s s') =
      [ EvTradeTerminal (terminal_event sid sym pos po reason);
        EvPositionState (flat_event sid sym) ] /\
    tt_trigger_type (terminal_event sid sym pos po reason) =
      match reason with
      | Some SL => TriggerSL
      | Some TP => TriggerTP
      | Some SIGNAL => TriggerTP
      | None => TriggerTP
      end /\
    _get_position sid sym s' = None.
Proof.
  intros Hheld. destruct (pop2_is_Some _ _ _ _ Hheld) as [d Hd].
  eexists. split; [apply close_position_ok, Hd|].
  split; [|split].
  - rewrite (effects_since_app _ _ (close_effects now sid sym pos po reason ts))
      by reflexivity.
    reflexivity.
  - destruct reason as [[]|]; reflexivity.
  - unfold _get_position. simpl. apply (get2_pop2_eq _ _ _ _ Hd).
Qed.

Lemma close_publishes_terminal_event_witness :
  _get_position "S" "X" Ex.long_open = Some Ex.long_position /\
  exists s',
    process_signal 7 Ex.close_long Ex.long_open = Ok tt s' /\
    published (effects_since Ex.long_open s') =
      [ EvTradeTerminal
          (terminal_event "S" "X" Ex.long_position None (Some SIGNAL));
        EvPositionState (flat_event "S" "X") ] /\
    tt_trigger_type
      (terminal_event "S" "X" Ex.long_position None (Some SIGNAL))
    = TriggerTP.
Proof.
  assert (_get_position "S" "X" Ex.long_open = Some Ex.long_position)
    as Hheld by (vm_compute; reflexivity).
  split; [exact Hheld|].
  destruct (close_publishes_terminal_event 7 "S" "X" Ex.long_position None
              (Some SIGNAL) None Ex.long_open Ex.long_position Hheld)
    as (s' & Hrun & Hpub & Htrig & _).
  exists s'. split; [|split; [exact Hpub | exact Htrig]].
  rewrite process_signal_close by reflexivity.
  change (sig_strategy_id Ex.close_long) with "S".
  change (sig_symbol Ex.close_long) with "X".
  rewrite Hheld. exact Hrun.
Defined.

(** ** Exit triggers *)

Lemma truthy_nonzero (q : Q) : ~ (q == 0)%Q -> Py.truthy (Some q) = true.
Proof.
  intros Hq. unfold Py.truthy.
  destruct (Qeq_bool q 0) eqn:E; [|reflexivity].
  apply Qeq_bool_iff in E. contradiction.
Qed.

Lemma or_else_nonzero (q y : Q) : ~ (q == 0)%Q -> Py.or_else (Some q) y = q.
Proof.
  intros Hq. unfold Py.or_else.
  destruct (Qeq_bool q 0) eqn:E; [|reflexivity].
  apply Qeq_bool_iff in E. contradiction.
Qed.

Lemma exit_decision_stop_loss pos data sl :
  pos_stop_loss pos = Some sl ->
  ~ (sl == 0)%Q ->
  (pos_side pos = LONG /\ (cdl_low data <= sl)%Q) \/
  (pos_side pos = SHORT /\ (sl <= cdl_high data)%Q) ->
  exit_decision pos data = (Some sl, Some SL).
Proof.
  intros Hsl Hnz Hcond. unfold exit_decision. rewrite Hsl.
  unfold Py.and_test at 1 3.
  destruct (Qeq_bool sl 0) eqn:E;
    [apply Qeq_bool_iff in E; contradiction|].
  destruct Hcond as [[-> Hle]|[-> Hle]];
    apply Qle_bool_iff in Hle; rewrite Hle; reflexivity.
Qed.

(** C6, as amended.  A slot holds a position whose stop loss is set
    to a non-zero value and whose take profit is set, and the pending
    order of the slot, if there is one, is not filled by the tick.
    Then processing a tick that meets both the stop-loss and the
    take-profit condition closes that position with reason SL at the
    stop-loss price: the handler returns, it saves one trade row, with
    reason SL, that exit price and the entry price and time of the
    held position, it publishes a terminal event with trigger SL and
    that exit price followed by the FLAT notice, and it leaves the
    slot without a position and the orders as they were. *)
Theorem stop_loss_wins_tie now data pos sl tp s :
  _get_position (cdl_strategy_id data) (cdl_symbol data) s = Some pos ->
  (forall order,
     _get_order (cdl_strategy_id data) (cdl_symbol data) s = Some order ->
     fill_decision order data s = Ok None s) ->
  pos_stop_loss pos = Some sl ->
  pos_take_profit pos = Some tp ->
  ~ (sl == 0)%Q ->
  (pos_side pos = LONG /\
   (cdl_low data <= sl)%Q /\ (tp <= cdl_high data)%Q) \/
  (pos_side pos = SHORT /\
   (sl <= cdl_high data)%Q /\ (cdl_low data <= tp)%Q) ->
  exists s' row ev,
    process_candle now data s = Ok tt s' /\
    ledger_trades (effects_since s s') = [row] /\
    tr_reason row = Some SL /\
    tr_exit_price row = sl /\
    tr_entry_price row = pos_entry_price pos /\
    tr_entry_time row = pos_entry_time pos /\
    published (effects_since s s') =
      [EvTradeTerminal ev;
       EvPositionState
         (flat_event (cdl_strategy_id data) (cdl_symbol data))] /\
    tt_trigger_type ev = TriggerSL /\
    tt_exit_price ev = sl /\
    _get_position (cdl_strategy_id data) (cdl_symbol data) s' = None /\
    orders s' = orders s.
Proof.
  intros Hheld Hskip Hsl Htp Hnz Hcond.
  assert (exit_decision pos data = (Some sl, Some SL)) as Hdec.
  { apply exit_decision_stop_loss; [exact Hsl | exact Hnz | tauto]. }
  destruct (pop2_is_Some _ _ _ _ Hheld) as [d Hd].
  eexists; exists
    (trade_row now (cdl_strategy_id data) (cdl_symbol data) pos (Some sl)
       (Some SL) (Some (cdl_timestamp data))),
    (terminal_event (cdl_strategy_id data) (cdl_symbol data) pos (Some sl)
       (Some SL)).
  split.
  { rewrite process_candle_skip.
    - unfold exit_phase, bind, gets. rewrite Hheld.
      unfold check_position_exit. rewrite Hdec, (truthy_nonzero _ Hnz).
      apply close_position_ok, Hd.
    - destruct (_get_order (cdl_strategy_id data) (cdl_symbol data) s)
        as [order|] eqn:Hpending; [right|left; reflexivity].
      exists order. split; [reflexivity|]. apply Hskip. reflexivity. }
  rewrite (effects_since_app _ _
             (close_effects now (cdl_strategy_id data) (cdl_symbol data)
                pos (Some sl) (Some SL) (Some (cdl_timestamp data))))
    by reflexivity.
  repeat split; try reflexivity.
  - simpl. unfold exit_price_of. apply or_else_nonzero, Hnz.
  - simpl. unfold exit_price_of. apply or_else_nonzero, Hnz.
  - unfold _get_position. simpl. apply (get2_pop2_eq _ _ _ _ Hd).
Qed.

(** The tie-break scenario of the design notes (long, stop loss 95,
    take profit 110, tick with low 90 and high 120), in a slot that
    also holds a pending limit order at 130, out of the tick's range. *)
Lemma stop_loss_wins_tie_witness :
  _get_position "S" "X" Cases.held_with_far_order = Some Ex.long_position /\
  _get_order "S" "X" Cases.held_with_far_order =
    Some (order_of_signal Cases.open_long_far) /\
  exists s' row ev,
    process_candle 0 Ex.wide_tick Cases.held_with_far_order = Ok tt s' /\
    ledger_trades (effects_since Cases.held_with_far_order s') = [row] /\
    tr_reason row = Some SL /\
    tr_exit_price row = 95%Q /\
    tr_entry_price row = pos_entry_price Ex.long_position /\
    tr_entry_time row = pos_entry_time Ex.long_position /\
    published (effects_since Cases.held_with_far_order s') =
      [EvTradeTerminal ev; EvPositionState (flat_event "S" "X")] /\
    tt_trigger_type ev = TriggerSL /\
    tt_exit_price ev = 95%Q /\
    _get_position "S" "X" s' = None /\
    orders s' = orders Cases.held_with_far_order.
Proof.
  assert (_get_position "S" "X" Cases.held_with_far_order =
          Some Ex.long_position) as Hheld by (vm_compute; reflexivity).
  assert (_get_order "S" "X" Cases.held_with_far_order =
          Some (order_of_signal Cases.open_long_far)) as Hpending
    by (vm_compute; reflexivity).
  split; [exact Hheld|]. split; [exact Hpending|].
  apply (stop_loss_wins_tie 0 Ex.wide_tick Ex.long_position 95%Q 110%Q
           Cases.held_with_far_order Hheld).
  - intros order Horder.
    change (cdl_strategy_id Ex.wide_tick) with "S" in Horder.
    change (cdl_symbol Ex.wide_tick) with "X" in Horder.
    rewrite Hpending in Horder. injection Horder as <-.
    vm_compute. reflexivity.
  - reflexivity.
  - reflexivity.
  - intros H. vm_compute in H. discriminate H.
  - left. split; [reflexivity|]. split; vm_compute; discriminate.
Defined.

(** C6 as stated fails when the stop loss is set to zero.  The short
    position of slot (S, X) has stop loss 0 and take profit 50; the tick
    with high 60 and low 40 meets both conditions of the claim, and the
    position is closed with reason TP at 50. *)
Lemma zero_stop_loss_loses_tie :
  _get_position "S" "X" Ex.short_open = Some Ex.short_position /\
  pos_side Ex.short_position = SHORT /\
  pos_stop_loss Ex.short_position = Some 0%Q /\
  pos_take_profit Ex.short_position = Some 50%Q /\
  (0 <= cdl_high Ex.falling_tick)%Q /\
  (cdl_low Ex.falling_tick <= 50)%Q /\
  map (fun row => (tr_reason row, tr_exit_price row))
    (ledger_trades
       (effects_since Ex.short_open
          (state_of (check_position_exit 0 "S" "X" Ex.short_position
                       Ex.falling_tick Ex.short_open))))
  = [(Some TP, 50%Q)] /\
  map (fun row => (tr_reason row, tr_exit_price row))
    (ledger_trades
       (effects_since Ex.short_open
          (step Ex.short_open (0%Q, Candle Ex.falling_tick))))
  = [(Some TP, 50%Q)].
Proof.
  repeat split; try (vm_compute; reflexivity); vm_compute; discriminate.
Qed.

(** The condition on the pending order is needed.  Slot (S, X) holds
    the long position with stop loss 95 and take profit 110 together
    with the pending limit order at 98.  The tick with low 94 and high
    115 meets both conditions of the position; it fills the order
    first, the new position takes the place of the held one, and the
    held position is never closed: no trade row is saved and no
    terminal event published. *)
Lemma filled_order_preempts_tie :
  _get_position "S" "X" Cases.reopened = Some Ex.long_position /\
  pos_side Ex.long_position = LONG /\
  pos_stop_loss Ex.long_position = Some 95%Q /\
  pos_take_profit Ex.long_position = Some 110%Q /\
  (cdl_low Cases.tie_tick <= 95)%Q /\
  (110 <= cdl_high Cases.tie_tick)%Q /\
  ledger_trades
    (effects_since Cases.reopened
       (step Cases.reopened (0%Q, Candle Cases.tie_tick))) = [] /\
  terminal_events
    (effects_since Cases.reopened
       (step Cases.reopened (0%Q, Candle Cases.tie_tick))) = [] /\
  _get_position "S" "X" (step Cases.reopened (0%Q, Candle Cases.tie_tick))
  = Some Cases.tie_position.
Proof.
  repeat split; try (vm_compute; reflexivity); vm_compute; discriminate.
Qed.

(** ** What a message does to the two dictionaries *)

Lemma fill_decision_cases order data s :
  (exists fill_price, fill_decision order data s = Ok (Some fill_price) s) \/
  fill_decision order data s = Ok None s \/
  fill_decision order data s = Raise TypeError s.
Proof.
  unfold fill_decision. run_handler.
  destruct (order_type order); [eauto|].
  destruct (sig_price (order_data order)); [|auto].
  destruct (_ && _); eauto.
Qed.

Lemma process_candle_state now data s :
  let sid := cdl_strategy_id data in
  let sym := cdl_symbol data in
  let s' := state_of (process_candle now data s) in
  (orders s' = orders s /\
   forall j1 j2,
     Py.get2 (positions s') j1 j2 = Py.get2 (positions s) j1 j2 \/
     (sid = j1 /\ sym = j2) /\ Py.get2 (positions s') j1 j2 = None) \/
  (exists order fill_price d,
     _get_order sid sym s = Some order /\
     Py.pop2 (orders s) sid sym = Some d /\
     orders s' = d /\
     forall j1 j2,
       Py.get2 (positions s') j1 j2 =
       Py.get2 (Py.set2 (positions s) sid sym
                  (new_position sid sym order data fill_price)) j1 j2 \/
       (sid = j1 /\ sym = j2) /\ Py.get2 (positions s') j1 j2 = None).
Proof.
  intros sid sym s'. subst s'.
  destruct (_get_order sid sym s) as [order|] eqn:Hpending.
  - destruct (fill_decision_cases order data s) as [[fp Hfill]|[Hfill|Hfill]].
    + right. exists order, fp.
      destruct (process_candle_fill now data order s Hpending fp Hfill)
        as (d & Hd & ->).
      exists d. split; [reflexivity|]. split; [exact Hd|].
      match goal with |- context [exit_phase now data ?s1] =>
        destruct (exit_phase_state now data s1) as (Ho & Hp & _)
      end.
      split; [exact Ho | exact Hp].
    + left.
      assert (process_candle now data s = exit_phase now data s) as ->.
      { rewrite process_candle_phases. unfold bind at 1.
        unfold fill_phase, bind at 1, gets. fold sid sym. rewrite Hpending.
        rewrite (check_order_fill_skip _ _ _ _ _ Hfill). reflexivity. }
      destruct (exit_phase_state now data s) as (Ho & Hp & _). auto.
    + left.
      assert (process_candle now data s = Raise TypeError s) as ->.
      { rewrite process_candle_phases. unfold bind at 1.
        unfold fill_phase, bind at 1, gets. fold sid sym. rewrite Hpending.
        rewrite (check_order_fill_raise _ _ _ _ _ _ _ Hfill). reflexivity. }
      simpl. auto.
  - left.
    assert (process_candle now data s = exit_phase now data s) as ->.
    { rewrite process_candle_phases. unfold bind at 1.
      unfold fill_phase, bind at 1, gets. fold sid sym. rewrite Hpending.
      reflexivity. }
    destruct (exit_phase_state now data s) as (Ho & Hp & _). auto.
Qed.

Lemma process_signal_state now data s :
  let sid := sig_strategy_id data in
  let sym := sig_symbol data in
  let s' := state_of (process_signal now data s) in
  (String.prefix "OPEN" (sig_action data) = true /\
   positions s' = positions s /\
   orders s' = Py.set2 (orders s) sid sym (order_of_signal data)) \/
  (String.prefix "OPEN" (sig_action data) = false /\
   orders s' = orders s /\
   forall j1 j2,
     Py.get2 (positions s') j1 j2 = Py.get2 (positions s) j1 j2 \/
     (sid = j1 /\ sym = j2) /\ Py.get2 (positions s') j1 j2 = None).
Proof.
  intros sid sym s'. subst s'.
  destruct (String.prefix "OPEN" (sig_action data)) eqn:Hopen.
  - left. rewrite (process_signal_open _ _ _ Hopen). simpl. auto.
  - right. split; [reflexivity|].
    destruct (String.prefix "CLOSE" (sig_action data)) eqn:Hclose.
    + rewrite (process_signal_close _ _ _ Hopen Hclose). fold sid sym.
      destruct (_get_position sid sym s) as [pos|]; [|simpl; auto].
      destruct (close_position_state now sid sym pos None (Some SIGNAL)
                  None s) as (Ho & Hp & _).
      split; [exact Ho|]. intros j1 j2. rewrite Hp.
      destruct (decide _); auto.
    + rewrite (process_signal_ignored _ _ _ Hopen Hclose). simpl. auto.
Qed.

Lemma update_tp_sl_state data s :
  let sid := req_strategy_id data in
  let sym := req_symbol data in
  let s' := state_of (update_tp_sl data s) in
  orders s' = orders s /\
  forall j1 j2,
    Py.get2 (positions s') j1 j2 = Py.get2 (positions s) j1 j2 \/
    exists pos, Py.get2 (positions s) j1 j2 = Some pos /\
                Py.get2 (positions s') j1 j2 = Some (apply_request data pos).
Proof.
  intros sid sym s'. subst s'.
  destruct (_get_position sid sym s) as [pos|] eqn:Hpos.
  - destruct (update_tp_sl_present data pos s Hpos)
      as (s' & -> & Ho & Hp & _).
    simpl. split; [exact Ho|]. intros j1 j2. rewrite Hp.
    destruct (decide _) as [[<- <-]|]; [right|left; reflexivity].
    exists pos. auto.
  - rewrite (update_tp_sl_absent _ _ Hpos). simpl. auto.
Qed.

(** Where the position of a slot comes from after one message. *)
Lemma step_position_origin s m sid sym pos' :
  _get_position sid sym (step s m) = Some pos' ->
  _get_position sid sym s = Some pos' \/
  (exists order data fill_price,
     pos' = new_position sid sym order data fill_price) \/
  (exists pos data,
     _get_position sid sym s = Some pos /\ pos' = apply_request data pos).
Proof.
  destruct m as [now [data|data|data|ty]]; unfold step, _get_position; simpl.
  - destruct (process_signal_state now data s)
      as [(_ & -> & _)|(_ & _ & Hp)]; [auto|].
    destruct (Hp sid sym) as [->|[_ ->]]; [auto | discriminate].
  - destruct (process_candle_state now data s)
      as [(_ & Hp)|(order & fp & d & _ & _ & _ & Hp)].
    + destruct (Hp sid sym) as [->|[_ ->]]; [auto | discriminate].
    + destruct (Hp sid sym) as [->|[_ ->]]; [|discriminate].
      rewrite get2_set2. destruct (decide _) as [[<- <-]|]; [|auto].
      intros [= <-]. eauto 6.
  - destruct (update_tp_sl_state data s) as (_ & Hp).
    destruct (Hp sid sym) as [->|(pos & Hpos & ->)]; [auto|].
    intros [= <-]. eauto 6.
  - auto.
Qed.

(** ** Signal-driven closes *)

Lemma apply_request_last_close data pos :
  pos_last_close (apply_request data pos) = pos_last_close pos.
Proof. apply apply_request_frame. Qed.

(** No handler writes the key ['last_close'] of a position. *)
Lemma last_close_never_written msgs sid sym pos :
  _get_position sid sym (run msgs init) = Some pos ->
  pos_last_close pos = None.
Proof.
  cut (forall s,
         (forall sid sym pos, _get_position sid sym s = Some pos ->
                              pos_last_close pos = None) ->
         forall sid sym pos, _get_position sid sym (run msgs s) = Some pos ->
                             pos_last_close pos = None).
  { intros H. apply (H init). intros sid' sym' pos'.
    unfold _get_position. simpl. rewrite get2_empty. discriminate. }
  clear. induction msgs as [|m msgs IH]; intros s Hs; [exact Hs|].
  simpl. apply IH. intros sid sym pos' Hpos'.
  destruct (step_position_origin _ _ _ _ _ Hpos')
    as [H|[(order & data & fp & ->)|(pos & data & H & ->)]].
  - exact (Hs _ _ _ H).
  - reflexivity.
  - rewrite apply_request_last_close. exact (Hs _ _ _ H).
Qed.

Lemma pnl_at_entry_price pos : (pnl_of pos (pos_entry_price pos) == 0)%Q.
Proof. unfold pnl_of. destruct (pos_side pos); ring. Qed.

(** C9. In every state the engine reaches from its start, a
    CLOSE_LONG or CLOSE_SHORT signal for a slot holding a position
    closes it with no price override; the fallback key ['last_close'] is
    absent from the position, so the exit price recorded in the Ledger
    and published is the entry price, and the pnl is zero. *)
Theorem signal_close_exits_at_entry_price msgs now data pos :
  let s := run msgs init in
  let sid := sig_strategy_id data in
  let sym := sig_symbol data in
  sig_action data = "CLOSE_LONG" \/ sig_action data = "CLOSE_SHORT" ->
  _get_position sid sym s = Some pos ->
  exists s' row ev,
    process_signal now data s =
      close_position now sid sym pos None (Some SIGNAL) None s /\
    process_signal now data s = Ok tt s' /\
    pos_last_close pos = None /\
    ledger_trades (effects_since s s') = [row] /\
    tr_reason row = Some SIGNAL /\
    tr_exit_price row = pos_entry_price pos /\
    (tr_pnl row == 0)%Q /\
    published (effects_since s s') =
      [EvTradeTerminal ev; EvPositionState (flat_event sid sym)] /\
    tt_exit_price ev = pos_entry_price pos /\
    (tt_pnl ev == 0)%Q /\
    (tt_realised_pnl ev == 0)%Q.
Proof.
  intros s sid sym Haction Hheld.
  assert (String.prefix "OPEN" (sig_action data) = false /\
          String.prefix "CLOSE" (sig_action data) = true) as [Hopen Hclose]
    by (destruct Haction as [-> | ->]; split; reflexivity).
  pose proof (last_close_never_written msgs sid sym pos Hheld) as Hlast.
  assert (exit_price_of pos None = pos_entry_price pos) as Hexit
    by (unfold exit_price_of; rewrite Hlast; reflexivity).
  destruct (pop2_is_Some _ _ _ _ Hheld) as [d Hd].
  eexists; exists (trade_row now sid sym pos None (Some SIGNAL) None),
    (terminal_event sid sym pos None (Some SIGNAL)).
  rewrite (process_signal_close _ _ _ Hopen Hclose). fold sid sym s.
  rewrite Hheld. split; [reflexivity|].
  split; [apply close_position_ok, Hd|].
  rewrite (effects_since_app _ _
             (close_effects now sid sym pos None (Some SIGNAL) None))
    by reflexivity.
  assert (pnl_of pos (exit_price_of pos None) == 0)%Q as Hpnl
    by (rewrite Hexit; apply pnl_at_entry_price).
  repeat split; try reflexivity; try exact Hlast; try exact Hexit;
    exact Hpnl.
Qed.

Lemma signal_close_exits_at_entry_price_witness :
  _get_position "S" "X"
    (run [(0%Q, Signal Ex.open_long); (0%Q, Candle Ex.quiet_tick)] init)
  = Some Ex.long_position /\
  exists s' row ev,
    process_signal 7 Ex.close_long Ex.long_open = Ok tt s' /\
    ledger_trades (effects_since Ex.long_open s') = [row] /\
    tr_exit_price row = 100%Q /\
    (tr_pnl row == 0)%Q /\
    published (effects_since Ex.long_open s') =
      [EvTradeTerminal ev; EvPositionState (flat_event "S" "X")] /\
    (tt_pnl ev == 0)%Q.
Proof.
  assert (_get_position "S" "X"
            (run [(0%Q, Signal Ex.open_long); (0%Q, Candle Ex.quiet_tick)]
               init) = Some Ex.long_position)
    as Hheld by (vm_compute; reflexivity).
  split; [exact Hheld|].
  destruct (signal_close_exits_at_entry_price
              [(0%Q, Signal Ex.open_long); (0%Q, Candle Ex.quiet_tick)]
              7 Ex.close_long Ex.long_position
              (or_introl eq_refl) Hheld)
    as (s' & row & ev & _ & Hrun & _ & Hrow & _ & Hexit & Hpnl & Hpub
        & _ & Hevpnl & _).
  exists s', row, ev. repeat split; assumption.
Defined.

(** ** Replaying a tick *)

Lemma fill_decision_indep order data s s' :
  match fill_decision order data s with
  | Ok r _ => fill_decision order data s' = Ok r s'
  | Raise e _ => fill_decision order data s' = Raise e s'
  end.
Proof.
  unfold fill_decision. run_handler.
  destruct (order_type order); [reflexivity|].
  destruct (sig_price (order_data order)); [|reflexivity].
  destruct (_ && _); reflexivity.
Qed.

Lemma exit_phase_idle now data s :
  _get_position (cdl_strategy_id data) (cdl_symbol data) s = None ->
  exit_phase now data s = Ok tt s.
Proof. intros H. unfold exit_phase, bind, gets. rewrite H. reflexivity. Qed.

Lemma effects_since_refl s : effects_since s s = [].
Proof. unfold effects_since. apply drop_all. Qed.

(** C7. When the slot of a tick holds no position after the tick has
    been processed (in particular when that processing closed it),
    processing the same tick again changes nothing: the engine is in
    the same state, so no trade row is added to the Ledger and nothing
    is published or mirrored. *)
Theorem replayed_tick_is_noop now now' data s :
  let sid := cdl_strategy_id data in
  let sym := cdl_symbol data in
  let s1 := step s (now, Candle data) in
  _get_position sid sym s1 = None ->
  step s1 (now', Candle data) = s1 /\
  ledger_trades (effects_since s1 (step s1 (now', Candle data))) = [].
Proof.
  intros sid sym s1 Hflat.
  cut (step s1 (now', Candle data) = s1).
  { intros ->. split; [reflexivity|]. rewrite effects_since_refl.
    reflexivity. }
  unfold step in *. simpl in *.
  assert (forall s0, _get_order sid sym s0 = None ->
                     _get_position sid sym s0 = None ->
                     process_candle now' data s0 = Ok tt s0) as Hidle.
  { intros s0 Ho Hp. rewrite process_candle_phases. unfold bind at 1.
    unfold fill_phase, bind at 1, gets. fold sid sym. rewrite Ho.
    unfold ret. apply exit_phase_idle, Hp. }
  destruct (_get_order sid sym s) as [order|] eqn:Hpending.
  - destruct (fill_decision_cases order data s) as [[fp Hfill]|[Hfill|Hfill]].
    + destruct (process_candle_filled now data order s Hpending fp Hfill)
        as (Hgone & _).
      fold sid sym s1 in Hgone. rewrite (Hidle s1 Hgone Hflat). reflexivity.
    + destruct (process_candle_not_filled now data order s Hpending Hfill)
        as (Hstay & _).
      fold sid sym s1 in Hstay.
      pose proof (fill_decision_indep order data s s1) as Hfill1.
      rewrite Hfill in Hfill1.
      rewrite process_candle_phases. unfold bind at 1.
      unfold fill_phase, bind at 1, gets. fold sid sym. rewrite Hstay.
      rewrite (check_order_fill_skip _ _ _ _ _ Hfill1).
      rewrite (exit_phase_idle _ _ _ Hflat). reflexivity.
    + assert (forall t s0, _get_order sid sym s0 = Some order ->
                process_candle t data s0 = Raise TypeError s0) as Hraise.
      { intros t s0 Ho.
        pose proof (fill_decision_indep order data s s0) as Hfill0.
        rewrite Hfill in Hfill0.
        rewrite process_candle_phases. unfold bind at 1.
        unfold fill_phase, bind at 1, gets. fold sid sym. rewrite Ho.
        rewrite (check_order_fill_raise _ _ _ _ _ _ _ Hfill0).
        reflexivity. }
      assert (s1 = s) as Hs1
        by (subst s1; rewrite (Hraise now s Hpending); reflexivity).
      rewrite Hs1, (Hraise now' s Hpending). reflexivity.
  - assert (orders s1 = orders s) as Ho.
    { subst s1. rewrite process_candle_phases. unfold bind at 1.
      unfold fill_phase, bind at 1, gets. fold sid sym. rewrite Hpending.
      unfold ret. apply exit_phase_state. }
    assert (_get_order sid sym s1 = None) as Hgone
      by (unfold _get_order; rewrite Ho; exact Hpending).
    rewrite (Hidle s1 Hgone Hflat). reflexivity.
Qed.

(** The long position with stop loss 95 is closed by the wide tick; the
    same tick processed again leaves the single trade row alone. *)
Lemma replayed_tick_is_noop_witness :
  is_Some (_get_position "S" "X" Ex.long_open) /\
  length (ledger_trades
            (trace (step Ex.long_open (2%Q, Candle Ex.wide_tick)))) = 1%nat /\
  step (step Ex.long_open (2%Q, Candle Ex.wide_tick))
    (3%Q, Candle Ex.wide_tick)
  = step Ex.long_open (2%Q, Candle Ex.wide_tick).
Proof.
  split; [vm_compute; eauto|]. split; [vm_compute; reflexivity|].
  apply (replayed_tick_is_noop 2 3 Ex.wide_tick Ex.long_open).
  vm_compute. reflexivity.
Defined.

(** ** Order of the effects of a fill and of a close *)

(** C2, as amended.  A fill first writes the two in-memory maps, then
    publishes the order-execution notice, then saves the order row to
    the Ledger, then writes the Mirror (order key deleted, position key
    set).  A close first saves the trade row to the Ledger, then
    removes the position from memory, then deletes the Mirror key, then
    publishes the terminal notice and the FLAT notice. *)
Theorem effect_order_of_fill_and_close
  now sid sym order data fill_price sid' sym' pos po reason ts s held :
  _get_order sid sym s = Some order ->
  fill_decision order data s = Ok (Some fill_price) s ->
  _get_position sid' sym' s = Some held ->
  let filled := state_of (check_order_fill sid sym order data s) in
  let closed := state_of (close_position now sid' sym' pos po reason ts s) in
  effects_since s filled = fill_effects sid sym order data fill_price /\
  map stage_of (effects_since s filled) =
    [StMemory; StMemory; StPublish; StLedger; StMirror; StMirror] /\
  effects_since s closed = close_effects now sid' sym' pos po reason ts /\
  map stage_of (effects_since s closed) =
    [StLedger; StMemory; StMirror; StPublish; StPublish].
Proof.
  intros Hpending Hfill Hheld filled closed.
  destruct (pop2_is_Some _ _ _ _ Hpending) as [d Hd].
  destruct (pop2_is_Some _ _ _ _ Hheld) as [d' Hd'].
  assert (effects_since s filled = fill_effects sid sym order data fill_price)
    as Hf.
  { subst filled. rewrite (check_order_fill_ok _ _ _ _ _ _ _ Hfill Hd).
    apply effects_since_app. reflexivity. }
  assert (effects_since s closed = close_effects now sid' sym' pos po reason ts)
    as Hc.
  { subst closed. rewrite (close_position_ok _ _ _ _ _ _ _ _ _ Hd').
    apply effects_since_app. reflexivity. }
  rewrite Hf, Hc. repeat split; reflexivity.
Qed.

Lemma effect_order_of_fill_and_close_witness :
  let s := run Ex.reopen init in
  let order := order_of_signal Ex.open_long_limit in
  _get_order "S" "X" s = Some order /\
  _get_position "S" "X" s = Some Ex.long_position /\
  map stage_of
    (effects_since s (state_of (check_order_fill "S" "X" order
                                  Ex.wide_tick s))) =
    [StMemory; StMemory; StPublish; StLedger; StMirror; StMirror] /\
  map stage_of
    (effects_since s (state_of (close_position 0 "S" "X" Ex.long_position
                                  None (Some SIGNAL) None s))) =
    [StLedger; StMemory; StMirror; StPublish; StPublish].
Proof.
  intros s order.
  assert (_get_order "S" "X" s = Some order) as Hpending
    by (vm_compute; reflexivity).
  assert (_get_position "S" "X" s = Some Ex.long_position) as Hheld
    by (vm_compute; reflexivity).
  split; [exact Hpending|]. split; [exact Hheld|].
  destruct (effect_order_of_fill_and_close 0 "S" "X" order Ex.wide_tick
              98%Q "S" "X" Ex.long_position None (Some SIGNAL) None s
              Ex.long_position Hpending eq_refl Hheld)
    as (_ & Hf & _ & Hc).
  split; [exact Hf | exact Hc].
Defined.

(** C2 as stated fails on both paths.  The tick that fills the pending
    MARKET order publishes the notice before the Ledger and the Mirror
    are written; the signal that closes the long position writes the
    Ledger before the in-memory map. *)
Lemma stated_effect_order_fails :
  map stage_of
    (effects_since Ex.pending_market
       (step Ex.pending_market (1%Q, Candle Ex.quiet_tick))) =
    [StMemory; StMemory; StPublish; StLedger; StMirror; StMirror] /\
  memory_ledger_mirror_publish
    (effects_since Ex.pending_market
       (step Ex.pending_market (1%Q, Candle Ex.quiet_tick))) = false /\
  map stage_of
    (effects_since Ex.long_open
       (step Ex.long_open (7%Q, Signal Ex.close_long))) =
    [StLedger; StMemory; StMirror; StPublish; StPublish] /\
  memory_ledger_mirror_publish
    (effects_since Ex.long_open
       (step Ex.long_open (7%Q, Signal Ex.close_long))) = false.
Proof. repeat split; vm_compute; reflexivity. Qed.

(** ** Pending order and position in one slot *)

(** C1 as stated fails.  After an OPEN_LONG signal, a tick that fills
    it and a second OPEN_LONG signal, slot (S, X) holds a position and
    a pending order. *)
Lemma reopened_slot_holds_both : holds_both (run Ex.reopen init) "S" "X".
Proof. split; vm_compute; eauto. Qed.

Lemma step_exclusive s now ev :
  exclusive s ->
  no_open_on_position s ev = true ->
  exclusive (step s (now, ev)).
Proof.
  intros Hex Hguard j1 j2 [Ho Hp].
  specialize (Hex j1 j2). unfold holds_both in Hex.
  unfold _get_order, _get_position, step in *. simpl in *.
  destruct ev as [data|data|data|ty]; simpl in *.
  - destruct (process_signal_state now data s)
      as [(Hopen & Hpos & Hord)|(_ & Hord & Hpos)].
    + rewrite Hopen in Hguard. rewrite Hpos in Hp.
      rewrite Hord, get2_set2 in Ho.
      destruct (decide _) as [[<- <-]|]; [|tauto].
      unfold _get_position in Hguard.
      destruct (Py.get2 (positions s) _ _); [discriminate|].
      destruct Hp as [? [=]].
    + rewrite Hord in Ho.
      destruct (Hpos j1 j2) as [E|[_ E]]; rewrite E in Hp; [tauto|].
      destruct Hp as [? [=]].
  - destruct (process_candle_state now data s)
      as [(Hord & Hpos)|(order & fp & d & _ & Hd & Hord & Hpos)].
    + rewrite Hord in Ho.
      destruct (Hpos j1 j2) as [E|[_ E]]; rewrite E in Hp; [tauto|].
      destruct Hp as [? [=]].
    + rewrite Hord, (get2_pop2 _ _ _ _ _ _ Hd) in Ho.
      destruct (decide _) as [|Hne]; [destruct Ho as [? [=]]|].
      destruct (Hpos j1 j2) as [E|[Heq _]]; [|tauto].
      rewrite E, get2_set2, decide_False in Hp by exact Hne. tauto.
  - destruct (update_tp_sl_state data s) as (Hord & Hpos).
    rewrite Hord in Ho.
    destruct (Hpos j1 j2) as [E|(pos & E & _)]; [rewrite E in Hp; tauto|].
    apply Hex. split; [exact Ho|]. rewrite E. eauto.
  - tauto.
Qed.

(** C1, as amended.  Along every sequence of messages in which no open
    signal is processed for a slot that holds a position at that
    moment, no slot ever holds a pending order and a position
    together. *)
Theorem no_order_with_position msgs :
  guarded_from init msgs = true ->
  exclusive (run msgs init).
Proof.
  cut (forall s, exclusive s -> guarded_from s msgs = true ->
                 exclusive (run msgs s)).
  { intros H. apply H. intros sid sym [[o Ho] _].
    unfold _get_order in Ho. simpl in Ho. rewrite get2_empty in Ho.
    discriminate. }
  induction msgs as [|[now ev] msgs IH]; intros s Hex Hg; [exact Hex|].
  simpl in Hg. apply andb_true_iff in Hg as [Hg1 Hg2].
  simpl. apply IH; [apply step_exclusive; assumption | exact Hg2].
Qed.

Lemma no_order_with_position_witness :
  guarded_from init
    [(0%Q, Signal Ex.open_long); (1%Q, Candle Ex.quiet_tick);
     (2%Q, SetTPSL Ex.raise_take_profit); (3%Q, Signal Ex.close_long);
     (4%Q, Signal Ex.open_long_limit)] = true /\
  exclusive
    (run [(0%Q, Signal Ex.open_long); (1%Q, Candle Ex.quiet_tick);
          (2%Q, SetTPSL Ex.raise_take_profit); (3%Q, Signal Ex.close_long);
          (4%Q, Signal Ex.open_long_limit)] init).
Proof.
  split; [vm_compute; reflexivity|].
  apply no_order_with_position. vm_compute. reflexivity.
Defined.

(** ** One turn of the loop, case by case *)

Lemma process_candle_type_error now data order s :
  _get_order (cdl_strategy_id data) (cdl_symbol data) s = Some order ->
  fill_decision order data s = Raise TypeError s ->
  process_candle now data s = Raise TypeError s.
Proof.
  intros Hsome Hfill. rewrite process_candle_phases. unfold bind at 1.
  unfold fill_phase, bind at 1, gets.
  rewrite Hsome, (check_order_fill_raise _ _ _ _ _ _ _ Hfill). reflexivity.
Qed.

Lemma exit_phase_stepped now data s :
  stepped s now (Candle data) (state_of (exit_phase now data s)).
Proof.
  unfold exit_phase, bind, gets.
  destruct (_get_position _ _ s) as [pos|] eqn:Hpos; [|apply stepped_idle].
  unfold check_position_exit.
  destruct (exit_decision pos data) as [ep r] eqn:Hdec.
  destruct (Py.truthy ep) eqn:Ht; [|apply stepped_idle].
  destruct (pop2_is_Some _ _ _ _ Hpos) as [d' Hd'].
  rewrite (close_position_ok _ _ _ _ _ _ _ _ _ Hd'). simpl.
  eapply stepped_exit; eassumption.
Qed.

Lemma step_stepped s now ev : stepped s now ev (step s (now, ev)).
Proof.
  unfold step. simpl. destruct ev as [data|data|data|ty]; simpl.
  - destruct (String.prefix "OPEN" (sig_action data)) eqn:Hopen.
    + rewrite (process_signal_open _ _ _ Hopen). simpl.
      apply stepped_open, Hopen.
    + destruct (String.prefix "CLOSE" (sig_action data)) eqn:Hclose.
      * rewrite (process_signal_close _ _ _ Hopen Hclose).
        destruct (_get_position _ _ s) as [pos|] eqn:Hpos;
          [|apply stepped_idle].
        destruct (pop2_is_Some _ _ _ _ Hpos) as [d Hd].
        rewrite (close_position_ok _ _ _ _ _ _ _ _ _ Hd). simpl.
        eapply stepped_signal_close; eassumption.
      * rewrite (process_signal_ignored _ _ _ Hopen Hclose).
        apply stepped_idle.
  - destruct (_get_order (cdl_strategy_id data) (cdl_symbol data) s)
      as [order|] eqn:Hpending.
    + destruct (fill_decision_cases order data s)
        as [[fp Hfill]|[Hfill|Hfill]].
      * destruct (process_candle_fill now data order s Hpending fp Hfill)
          as (d & Hd & ->).
        unfold exit_phase, bind, gets, _get_position. simpl.
        rewrite get2_set2_eq. unfold check_position_exit.
        destruct (exit_decision _ data) as [ep r] eqn:Hdec.
        destruct (Py.truthy ep) eqn:Ht.
        -- destruct (pop2_is_Some
                       (Py.set2 (positions s) (cdl_strategy_id data)
                          (cdl_symbol data)
                          (new_position (cdl_strategy_id data)
                             (cdl_symbol data) order data fp))
                       _ _ _ (get2_set2_eq _ _ _ _)) as [d' Hd'].
           erewrite close_position_ok by exact Hd'. simpl.
           rewrite <- app_assoc.
           eapply stepped_fill_exit; eassumption.
        -- simpl. eapply stepped_fill; try eassumption.
           rewrite Hdec. exact Ht.
      * rewrite process_candle_skip by eauto. apply exit_phase_stepped.
      * rewrite (process_candle_type_error _ _ _ _ Hpending Hfill).
        apply stepped_idle.
    + rewrite process_candle_skip by auto. apply exit_phase_stepped.
  - destruct (_get_position (req_strategy_id data) (req_symbol data) s)
      as [pos|] eqn:Hpos.
    + destruct (update_tp_sl_present data pos s Hpos)
        as (s' & -> & Ho & Hp & Ht).
      simpl. eapply stepped_update; eassumption.
    + rewrite (update_tp_sl_absent _ _ Hpos). apply stepped_idle.
  - apply stepped_idle.
Qed.

(** ** Invariants of the two dictionaries *)

Lemma run_invariant (P : State -> Prop) :
  (forall s now ev, P s -> P (step s (now, ev))) ->
  forall msgs s, P s -> P (run msgs s).
Proof.
  intros Hstep msgs. induction msgs as [|[now ev] msgs IH]; intros s Hs.
  - exact Hs.
  - simpl. apply IH, Hstep, Hs.
Qed.

Lemma well_formed_init : well_formed init.
Proof.
  split; intros sid sym x; unfold _get_order, _get_position; simpl;
    rewrite get2_empty; discriminate.
Qed.

Lemma order_of_signal_ok data :
  String.prefix "OPEN" (sig_action data) = true ->
  order_ok (sig_strategy_id data) (sig_symbol data) (order_of_signal data).
Proof. intros Hopen. repeat split. exact Hopen. Qed.

Lemma new_position_ok sid sym order data fill_price :
  position_ok sid sym (new_position sid sym order data fill_price).
Proof.
  repeat split. simpl. unfold side_of_action.
  destruct (String.eqb _ _); auto.
Qed.

Lemma apply_request_ok sid sym data pos :
  position_ok sid sym pos -> position_ok sid sym (apply_request data pos).
Proof.
  unfold position_ok.
  destruct (apply_request_frame data pos)
    as (-> & -> & -> & -> & _ & _ & -> & _).
  tauto.
Qed.

Lemma step_well_formed s now ev :
  well_formed s -> well_formed (step s (now, ev)).
Proof.
  intros [Hord Hpos].
  destruct (step_stepped s now ev)
    as [ev | data Hopen | data pos d Hopen Hclose Hheld Hd
        | data order fp d Hpending Hfill Hd Hquiet
        | data order fp d ep r d' Hpending Hfill Hd Hdec Ht Hd'
        | data pos ep r d' Hheld Hdec Ht Hd'
        | data pos s' Hheld Ho Hp Htr];
    split; intros sid sym x; unfold _get_order, _get_position; simpl.
  - apply Hord.
  - apply Hpos.
  - rewrite get2_set2. destruct (decide _) as [[<- <-]|]; [|apply Hord].
    intros [= <-]. apply order_of_signal_ok, Hopen.
  - apply Hpos.
  - apply Hord.
  - rewrite (get2_pop2 _ _ _ _ _ _ Hd).
    destruct (decide _); [discriminate | apply Hpos].
  - rewrite (get2_pop2 _ _ _ _ _ _ Hd).
    destruct (decide _); [discriminate | apply Hord].
  - rewrite get2_set2. destruct (decide _) as [[<- <-]|]; [|apply Hpos].
    intros [= <-]. apply new_position_ok.
  - rewrite (get2_pop2 _ _ _ _ _ _ Hd).
    destruct (decide _); [discriminate | apply Hord].
  - rewrite (get2_pop2 _ _ _ _ _ _ Hd').
    destruct (decide _) as [|Hne]; [discriminate|].
    rewrite get2_set2, decide_False by exact Hne. apply Hpos.
  - apply Hord.
  - rewrite (get2_pop2 _ _ _ _ _ _ Hd').
    destruct (decide _); [discriminate | apply Hpos].
  - rewrite Ho. apply Hord.
  - rewrite Hp. destruct (decide _) as [[<- <-]|]; [|apply Hpos].
    intros [= <-]. apply apply_request_ok, (Hpos _ _ _ Hheld).
Qed.

Lemma run_well_formed msgs : well_formed (run msgs init).
Proof.
  apply (run_invariant well_formed); [|exact well_formed_init].
  intros s now ev. apply step_well_formed.
Qed.

Lemma order_ok_limit_price sid sym o :
  order_ok sid sym o ->
  order_type o = LIMIT ->
  exists P, sig_price (order_data o) = Some P /\ ~ (P == 0)%Q.
Proof.
  intros (_ & _ & _ & Hty) Hlimit. rewrite Hlimit in Hty.
  unfold Py.truthy in Hty.
  destruct (sig_price (order_data o)) as [P|]; [|discriminate].
  exists P. split; [reflexivity|]. intros HP.
  apply Qeq_bool_iff in HP. rewrite HP in Hty. discriminate.
Qed.

(** X1. In every state the engine reaches from its start, the pending
    order of a slot carries the identifiers of the slot and an action
    starting with OPEN, and it is a LIMIT order exactly when its price
    is present and non-zero; a LIMIT order therefore always has a
    non-zero price to compare with the tick. *)
Theorem pending_orders_are_well_formed msgs sid sym o :
  _get_order sid sym (run msgs init) = Some o ->
  order_ok sid sym o /\
  (order_type o = LIMIT ->
   exists P, sig_price (order_data o) = Some P /\ ~ (P == 0)%Q) /\
  (order_type o = MARKET -> Py.truthy (sig_price (order_data o)) = false).
Proof.
  intros Ho. pose proof (proj1 (run_well_formed msgs) _ _ _ Ho) as Hok.
  split; [exact Hok|]. split.
  - apply (order_ok_limit_price _ _ _ Hok).
  - destruct Hok as (_ & _ & _ & Hty). intros Hm. rewrite Hm in Hty.
    destruct (Py.truthy _); [discriminate | reflexivity].
Qed.

Lemma pending_orders_are_well_formed_witness :
  _get_order "S" "X" (run [(0%Q, Signal Ex.open_long_limit)] init)
  = Some (order_of_signal Ex.open_long_limit) /\
  order_ok "S" "X" (order_of_signal Ex.open_long_limit).
Proof.
  assert (_get_order "S" "X" (run [(0%Q, Signal Ex.open_long_limit)] init)
          = Some (order_of_signal Ex.open_long_limit)) as Ho
    by (vm_compute; reflexivity).
  split; [exact Ho|].
  apply (pending_orders_are_well_formed _ _ _ _ Ho).
Defined.

(** X2. In every state the engine reaches from its start, the position
    of a slot carries the identifiers of the slot, is LONG or SHORT,
    has size 1 and unrealised pnl 0. *)
Theorem positions_are_well_formed msgs sid sym pos :
  _get_position sid sym (run msgs init) = Some pos ->
  position_ok sid sym pos.
Proof. apply (run_well_formed msgs). Qed.

Lemma positions_are_well_formed_witness :
  _get_position "S" "X" Ex.long_open = Some Ex.long_position /\
  position_ok "S" "X" Ex.long_position.
Proof.
  assert (_get_position "S" "X"
            (run [(0%Q, Signal Ex.open_long); (0%Q, Candle Ex.quiet_tick)]
               init) = Some Ex.long_position) as Hp
    by (vm_compute; reflexivity).
  split; [exact Hp|].
  apply (positions_are_well_formed _ _ _ _ Hp).
Defined.

(** ** No exception from the engine's own code *)

Lemma exit_phase_returns now data s :
  exists s', exit_phase now data s = Ok tt s'.
Proof.
  unfold exit_phase, bind, gets.
  destruct (_get_position _ _ s) as [pos|] eqn:Hpos; [|unfold ret; eauto].
  destruct (check_position_exit_cases now (cdl_strategy_id data)
              (cdl_symbol data) pos data s) as [->|(ep & r & _ & _ & ->)];
    [eauto|].
  destruct (pop2_is_Some _ _ _ _ Hpos) as [d Hd].
  rewrite (close_position_ok _ _ _ _ _ _ _ _ _ Hd). eauto.
Qed.

Lemma handle_event_returns now ev s :
  (forall sid sym o,
     _get_order sid sym s = Some o -> order_type o = LIMIT ->
     is_Some (sig_price (order_data o))) ->
  exists s', handle_event now ev s = Ok tt s'.
Proof.
  intros Hpriced. destruct ev as [data|data|data|ty]; simpl.
  - destruct (String.prefix "OPEN" (sig_action data)) eqn:Hopen.
    + rewrite (process_signal_open _ _ _ Hopen). eauto.
    + destruct (String.prefix "CLOSE" (sig_action data)) eqn:Hclose.
      * rewrite (process_signal_close _ _ _ Hopen Hclose).
        destruct (_get_position _ _ s) as [pos|] eqn:Hpos; [|eauto].
        destruct (pop2_is_Some _ _ _ _ Hpos) as [d Hd].
        rewrite (close_position_ok _ _ _ _ _ _ _ _ _ Hd). eauto.
      * rewrite (process_signal_ignored _ _ _ Hopen Hclose). eauto.
  - destruct (_get_order (cdl_strategy_id data) (cdl_symbol data) s)
      as [order|] eqn:Hpending.
    + destruct (fill_decision_cases order data s)
        as [[fp Hfill]|[Hfill|Hfill]].
      * destruct (process_candle_fill now data order s Hpending fp Hfill)
          as (d & Hd & ->).
        apply exit_phase_returns.
      * rewrite process_candle_skip by eauto. apply exit_phase_returns.
      * exfalso. unfold fill_decision in Hfill.
        destruct (order_type order) eqn:Hty; [discriminate|].
        destruct (Hpriced _ _ _ Hpending Hty) as [P HP].
        rewrite HP in Hfill. destruct (_ && _); discriminate.
    + rewrite process_candle_skip by auto. apply exit_phase_returns.
  - destruct (_get_position (req_strategy_id data) (req_symbol data) s)
      as [pos|] eqn:Hpos.
    + destruct (update_tp_sl_present data pos s Hpos) as (s' & -> & _).
      eauto.
    + rewrite (update_tp_sl_absent _ _ Hpos). eauto.
  - unfold ret. eauto.
Qed.

Lemma well_formed_same_memory s s' :
  same_memory s s' -> well_formed s -> well_formed s'.
Proof.
  intros [Hp Ho] [Hord Hpos].
  split; intros sid sym x; unfold _get_order, _get_position.
  - rewrite <- Ho. apply Hord.
  - rewrite <- Hp. apply Hpos.
Qed.

Lemma fill_phase_well_formed data s :
  well_formed s -> well_formed (state_of (fill_phase data s)).
Proof.
  intros Hwf. unfold fill_phase, bind, gets.
  destruct (_get_order (cdl_strategy_id data) (cdl_symbol data) s)
    as [order|] eqn:Hpending; [|exact Hwf].
  destruct (fill_decision_cases order data s) as [[fp Hfill]|[Hfill|Hfill]].
  - destruct (pop2_is_Some _ _ _ _ Hpending) as [d Hd].
    rewrite (check_order_fill_ok _ _ _ _ _ _ _ Hfill Hd).
    destruct Hwf as [Hord Hpos].
    split; intros sid sym x; unfold _get_order, _get_position; simpl.
    + rewrite (get2_pop2 _ _ _ _ _ _ Hd).
      destruct (decide _); [discriminate | apply Hord].
    + rewrite get2_set2. destruct (decide _) as [[<- <-]|]; [|apply Hpos].
      intros [= <-]. apply new_position_ok.
  - rewrite (check_order_fill_skip _ _ _ _ _ Hfill). exact Hwf.
  - rewrite (check_order_fill_raise _ _ _ _ _ _ _ Hfill). exact Hwf.
Qed.

Lemma possible_well_formed s : possible s -> well_formed s.
Proof.
  induction 1 as [|s now ev s' _ IH [Hmem|Hmem|data _ Hmem]].
  - exact well_formed_init.
  - apply (well_formed_same_memory _ _ Hmem), step_well_formed, IH.
  - apply (well_formed_same_memory _ _ Hmem), IH.
  - apply (well_formed_same_memory _ _ Hmem), fill_phase_well_formed, IH.
Qed.

(** The states of a run in which no call fails are among them. *)
Lemma possible_run msgs s : possible s -> possible (run msgs s).
Proof.
  revert s. induction msgs as [|[now ev] msgs IH]; intros s Hs; [exact Hs|].
  simpl. apply IH. apply (possible_turn s now ev _ Hs).
  apply turn_complete. split; reflexivity.
Qed.

(** X3. For messages that carry the fields of their event class, the
    engine's own code raises neither [KeyError] nor [TypeError]: the
    two [pop] calls find their key and the comparison of a limit price
    with a tick never meets a missing price.  This holds in every
    state the engine can be in, also after turns that a failing call
    to SQLite, Redis or the bus has cut short.  Exceptions of those
    calls themselves are not excluded. *)
Theorem engine_code_never_raises s now ev e s' :
  possible s -> handle_event now ev s <> Raise e s'.
Proof.
  intros Hs.
  destruct (handle_event_returns now ev s) as [s1 ->]; [|discriminate].
  intros sid sym o Ho Hlimit.
  destruct (order_ok_limit_price _ _ _
              (proj1 (possible_well_formed s Hs) _ _ _ Ho) Hlimit)
    as (P & -> & _).
  eauto.
Qed.

(** The market order of slot (S, X) was filled by the quiet tick and
    the turn ended there; the wide tick is processed next. *)
Lemma engine_code_never_raises_witness :
  possible Cases.cut_after_fill /\
  handle_event 0 (Candle Ex.wide_tick) Cases.cut_after_fill
  <> Raise KeyError init.
Proof.
  assert (possible Cases.cut_after_fill) as Hs.
  { apply (possible_turn Ex.pending_market 0%Q (Candle Ex.quiet_tick)).
    - apply possible_run, possible_init.
    - apply (turn_left_after_fill _ _ _ _ Ex.quiet_tick); [reflexivity|].
      split; reflexivity. }
  split; [exact Hs|].
  apply (engine_code_never_raises Cases.cut_after_fill 0%Q
           (Candle Ex.wide_tick) KeyError init Hs).
Defined.

(** ** What a message can and cannot do to a slot *)

Ltac step_cases s now ev :=
  let s' := fresh "s'" in
  let E := fresh "E" in
  let H := fresh "Hstep" in
  pose proof (step_stepped s now ev) as H;
  remember (step s (now, ev)) as s' eqn:E; clear E;
  destruct H
    as [ ev
       | data Hopen
       | data pos d Hopen Hclose Hheld Hd
       | data order fp d Hpending Hfill Hd Hquiet
       | data order fp d ep r d' Hpending Hfill Hd Hdec Ht Hd'
       | data pos ep r d' Hheld Hdec Ht Hd'
       | data pos s' Hheld Ho Hp Htr ].

(** X4. A message changes the pending order and the position of its
    own slot only: in every other slot both are what they were. *)
Theorem other_slots_untouched s now ev sid sym :
  slot_of ev <> Some (sid, sym) ->
  _get_order sid sym (step s (now, ev)) = _get_order sid sym s /\
  _get_position sid sym (step s (now, ev)) = _get_position sid sym s.
Proof.
  intros Hslot. step_cases s now ev;
    unfold _get_order, _get_position; simpl in *.
  - auto.
  - split; [|reflexivity]. rewrite get2_set2, decide_False; [reflexivity|].
    intros [<- <-]. apply Hslot. reflexivity.
  - split; [reflexivity|]. rewrite (get2_pop2 _ _ _ _ _ _ Hd), decide_False;
      [reflexivity|]. intros [<- <-]. apply Hslot. reflexivity.
  - assert (~ (cdl_strategy_id data = sid /\ cdl_symbol data = sym)) as Hne
      by (intros [<- <-]; apply Hslot; reflexivity).
    rewrite (get2_pop2 _ _ _ _ _ _ Hd), get2_set2, !decide_False
      by exact Hne. auto.
  - assert (~ (cdl_strategy_id data = sid /\ cdl_symbol data = sym)) as Hne
      by (intros [<- <-]; apply Hslot; reflexivity).
    rewrite (get2_pop2 _ _ _ _ _ _ Hd), (get2_pop2 _ _ _ _ _ _ Hd'),
      get2_set2, !decide_False by exact Hne. auto.
  - split; [reflexivity|]. rewrite (get2_pop2 _ _ _ _ _ _ Hd'), decide_False;
      [reflexivity|]. intros [<- <-]. apply Hslot. reflexivity.
  - rewrite Ho, Hp, decide_False; [auto|].
    intros [<- <-]. apply Hslot. reflexivity.
Qed.

Lemma other_slots_untouched_witness :
  _get_position "S" "X"
    (step Ex.long_open (5%Q, Signal Cases.open_short_other))
  = Some Ex.long_position /\
  _get_order "S" "X"
    (step Ex.long_open (5%Q, Signal Cases.open_short_other)) = None.
Proof.
  destruct (other_slots_untouched Ex.long_open 5
              (Signal Cases.open_short_other) "S" "X") as [Ho Hp].
  - vm_compute. discriminate.
  - rewrite Ho, Hp. split; vm_compute; reflexivity.
Defined.

(** X5. There is no cancellation: when a slot holds a pending order
    before a message and none after it, the message is a tick for that
    slot that filled this order, and the handler installed the position
    built from it. *)
Theorem pending_order_leaves_only_by_fill s now ev sid sym o :
  _get_order sid sym s = Some o ->
  _get_order sid sym (step s (now, ev)) = None ->
  exists data fill_price,
    ev = Candle data /\
    cdl_strategy_id data = sid /\ cdl_symbol data = sym /\
    fill_decision o data s = Ok (Some fill_price) s /\
    fills (effects_since s (step s (now, ev))) =
      [(sid, sym, new_position sid sym o data fill_price)].
Proof.
  intros Hbefore. unfold effects_since. step_cases s now ev;
    unfold _get_order in *; simpl; intros Hgone.
  - congruence.
  - rewrite get2_set2 in Hgone. destruct (decide _); congruence.
  - congruence.
  - rewrite (get2_pop2 _ _ _ _ _ _ Hd) in Hgone.
    destruct (decide _) as [[<- <-]|]; [|congruence].
    assert (order = o) as -> by congruence.
    exists data, fp. repeat split; try assumption.
    rewrite drop_app_length. reflexivity.
  - rewrite (get2_pop2 _ _ _ _ _ _ Hd) in Hgone.
    destruct (decide _) as [[<- <-]|]; [|congruence].
    assert (order = o) as -> by congruence.
    exists data, fp. repeat split; try assumption.
    rewrite drop_app_length. reflexivity.
  - congruence.
  - rewrite Ho in Hgone. congruence.
Qed.

Lemma pending_order_leaves_only_by_fill_witness :
  _get_order "S" "X" Ex.pending_market = Some (order_of_signal Ex.open_long)
  /\ _get_order "S" "X"
       (step Ex.pending_market (1%Q, Candle Ex.quiet_tick)) = None
  /\ exists data fill_price,
       Candle Ex.quiet_tick = Candle data /\
       fills (effects_since Ex.pending_market
                (step Ex.pending_market (1%Q, Candle Ex.quiet_tick))) =
       [("S", "X",
         new_position "S" "X" (order_of_signal Ex.open_long) data
           fill_price)].
Proof.
  assert (_get_order "S" "X" Ex.pending_market
          = Some (order_of_signal Ex.open_long)) as Ho
    by (vm_compute; reflexivity).
  assert (_get_order "S" "X"
            (step Ex.pending_market (1%Q, Candle Ex.quiet_tick)) = None)
    as Hgone by (vm_compute; reflexivity).
  split; [exact Ho|]. split; [exact Hgone|].
  destruct (pending_order_leaves_only_by_fill Ex.pending_market 1
              (Candle Ex.quiet_tick) "S" "X" _ Ho Hgone)
    as (data & fp & Hev & _ & _ & _ & Hfills).
  exists data, fp. split; assumption.
Defined.

(** X6. A position enters an empty slot only through a fill: when a
    slot holds no position before a message and one after it, the
    message is a tick for that slot, the slot held a pending order that
    the tick filled, and the position is the one built from that order
    and tick. *)
Theorem position_appears_only_by_fill s now ev sid sym p :
  _get_position sid sym s = None ->
  _get_position sid sym (step s (now, ev)) = Some p ->
  exists data order fill_price,
    ev = Candle data /\
    cdl_strategy_id data = sid /\ cdl_symbol data = sym /\
    _get_order sid sym s = Some order /\
    fill_decision order data s = Ok (Some fill_price) s /\
    p = new_position sid sym order data fill_price.
Proof.
  intros Hnone. step_cases s now ev;
    unfold _get_position in *; simpl; intros Hnew.
  - congruence.
  - congruence.
  - rewrite (get2_pop2 _ _ _ _ _ _ Hd) in Hnew.
    destruct (decide _); congruence.
  - rewrite get2_set2 in Hnew.
    destruct (decide _) as [[<- <-]|]; [|congruence].
    injection Hnew as <-. exists data, order, fp. auto 10.
  - rewrite (get2_pop2 _ _ _ _ _ _ Hd') in Hnew.
    destruct (decide _) as [|Hne]; [discriminate|].
    rewrite get2_set2, decide_False in Hnew by exact Hne. congruence.
  - rewrite (get2_pop2 _ _ _ _ _ _ Hd') in Hnew.
    destruct (decide _); congruence.
  - rewrite Hp in Hnew. destruct (decide _) as [[<- <-]|]; congruence.
Qed.

Lemma position_appears_only_by_fill_witness :
  _get_position "S" "X" Ex.pending_market = None /\
  exists data order fill_price,
    Candle Ex.quiet_tick = Candle data /\
    _get_order "S" "X" Ex.pending_market = Some order /\
    Ex.long_position = new_position "S" "X" order data fill_price.
Proof.
  assert (_get_position "S" "X" Ex.pending_market = None) as Hnone
    by (vm_compute; reflexivity).
  split; [exact Hnone|].
  destruct (position_appears_only_by_fill Ex.pending_market 1
              (Candle Ex.quiet_tick) "S" "X" Ex.long_position Hnone)
    as (data & order & fp & Hev & _ & _ & Ho & _ & Hpos).
  - vm_compute. reflexivity.
  - exists data, order, fp. auto.
Defined.

(** ** A tick that fills: the exit check of the same tick *)

Lemma process_candle_fill_quiet now data order fill_price s :
  _get_order (cdl_strategy_id data) (cdl_symbol data) s = Some order ->
  fill_decision order data s = Ok (Some fill_price) s ->
  Py.truthy
    (fst (exit_decision
            (new_position (cdl_strategy_id data) (cdl_symbol data) order
               data fill_price) data)) = false ->
  exists d,
    Py.pop2 (orders s) (cdl_strategy_id data) (cdl_symbol data) = Some d /\
    process_candle now data s =
    Ok tt {| positions :=
               Py.set2 (positions s) (cdl_strategy_id data) (cdl_symbol data)
                 (new_position (cdl_strategy_id data) (cdl_symbol data)
                    order data fill_price);
             orders := d;
             trace := trace s ++
               fill_effects (cdl_strategy_id data) (cdl_symbol data) order
                 data fill_price |}.
Proof.
  intros Hpending Hfill Hquiet.
  destruct (process_candle_fill now data order s Hpending fill_price Hfill)
    as (d & Hd & ->).
  exists d. split; [exact Hd|].
  unfold exit_phase, bind, gets, _get_position. simpl.
  rewrite get2_set2_eq. unfold check_position_exit.
  destruct (exit_decision _ data) as [ep r]. simpl in Hquiet.
  rewrite Hquiet. reflexivity.
Qed.

Lemma process_candle_fill_exit now data order fill_price ep r s :
  _get_order (cdl_strategy_id data) (cdl_symbol data) s = Some order ->
  fill_decision order data s = Ok (Some fill_price) s ->
  exit_decision
    (new_position (cdl_strategy_id data) (cdl_symbol data) order data
       fill_price) data = (ep, r) ->
  Py.truthy ep = true ->
  exists d d',
    Py.pop2 (orders s) (cdl_strategy_id data) (cdl_symbol data) = Some d /\
    Py.pop2
      (Py.set2 (positions s) (cdl_strategy_id data) (cdl_symbol data)
         (new_position (cdl_strategy_id data) (cdl_symbol data) order data
            fill_price))
      (cdl_strategy_id data) (cdl_symbol data) = Some d' /\
    process_candle now data s =
    Ok tt {| positions := d'; orders := d;
             trace := trace s ++
               fill_effects (cdl_strategy_id data) (cdl_symbol data) order
                 data fill_price ++
               close_effects now (cdl_strategy_id data) (cdl_symbol data)
                 (new_position (cdl_strategy_id data) (cdl_symbol data)
                    order data fill_price)
                 ep r (Some (cdl_timestamp data)) |}.
Proof.
  intros Hpending Hfill Hdec Ht.
  destruct (process_candle_fill now data order s Hpending fill_price Hfill)
    as (d & Hd & ->).
  destruct (pop2_is_Some
              (Py.set2 (positions s) (cdl_strategy_id data) (cdl_symbol data)
                 (new_position (cdl_strategy_id data) (cdl_symbol data)
                    order data fill_price))
              _ _ _ (get2_set2_eq _ _ _ _)) as [d' Hd'].
  exists d, d'. split; [exact Hd|]. split; [exact Hd'|].
  unfold exit_phase, bind, gets, _get_position. simpl.
  rewrite get2_set2_eq. unfold check_position_exit. rewrite Hdec, Ht.
  erewrite close_position_ok by exact Hd'. simpl.
  rewrite <- app_assoc. reflexivity.
Qed.

(** X7. The exit check of a tick runs on the position the same tick has
    just installed.  When the tick fills the pending order of its slot
    and meets an exit condition of the new position, the position is
    opened and closed within that one handler call: afterwards the
    slot holds neither order nor position, and the Ledger has received
    the order row and one trade row whose entry price is the fill price
    and whose exit price is the bound that triggered. *)
Theorem fill_and_exit_in_one_tick now data order fill_price ep r s :
  _get_order (cdl_strategy_id data) (cdl_symbol data) s = Some order ->
  fill_decision order data s = Ok (Some fill_price) s ->
  exit_decision
    (new_position (cdl_strategy_id data) (cdl_symbol data) order data
       fill_price) data = (Some ep, r) ->
  ~ (ep == 0)%Q ->
  let sid := cdl_strategy_id data in
  let sym := cdl_symbol data in
  exists s' row,
    process_candle now data s = Ok tt s' /\
    _get_order sid sym s' = None /\
    _get_position sid sym s' = None /\
    ledger_orders (effects_since s s') = [order_row sid sym order fill_price]
    /\ ledger_trades (effects_since s s') = [row] /\
    tr_entry_price row = fill_price /\
    tr_exit_price row = ep /\
    tr_reason row = r /\
    tr_entry_time row = cdl_timestamp data.
Proof.
  intros Hpending Hfill Hdec Hnz sid sym.
  destruct (process_candle_fill_exit now data order fill_price (Some ep) r s
              Hpending Hfill Hdec (truthy_nonzero _ Hnz))
    as (d & d' & Hd & Hd' & Hrun).
  eexists. eexists. split; [exact Hrun|].
  unfold _get_order, _get_position, effects_since. simpl.
  rewrite drop_app_length.
  split; [apply (get2_pop2_eq _ _ _ _ Hd)|].
  split; [apply (get2_pop2_eq _ _ _ _ Hd')|].
  split; [reflexivity|]. split; [reflexivity|].
  split; [reflexivity|]. split; [|split; reflexivity].
  apply or_else_nonzero, Hnz.
Qed.

Lemma fill_and_exit_in_one_tick_witness :
  _get_order "S" "X" Cases.pending_tight
  = Some (order_of_signal Cases.open_long_tight) /\
  exists s' row,
    process_candle 1 Ex.quiet_tick Cases.pending_tight = Ok tt s' /\
    _get_position "S" "X" s' = None /\
    ledger_trades (effects_since Cases.pending_tight s') = [row] /\
    tr_entry_price row = 100%Q /\
    tr_exit_price row = 99%Q /\
    tr_reason row = Some SL.
Proof.
  assert (_get_order "S" "X" Cases.pending_tight
          = Some (order_of_signal Cases.open_long_tight)) as Hpending
    by (vm_compute; reflexivity).
  split; [exact Hpending|].
  destruct (fill_and_exit_in_one_tick 1 Ex.quiet_tick
              (order_of_signal Cases.open_long_tight) 100%Q 99%Q (Some SL)
              Cases.pending_tight Hpending eq_refl eq_refl)
    as (s' & row & Hrun & _ & Hflat & _ & Hrows & Hentry & Hexit & Hr & _).
  - intros H. vm_compute in H. discriminate H.
  - exists s', row. auto 10.
Defined.

(** X8. A fill does not look at the position already in the slot.  When
    the slot holds a position and a pending order, and a tick fills the
    order without meeting an exit condition of the new position, the
    new position replaces the old one and no trade row and no terminal
    event are produced for the old one. *)
Theorem fill_replaces_position_silently now data order fill_price old s :
  _get_position (cdl_strategy_id data) (cdl_symbol data) s = Some old ->
  _get_order (cdl_strategy_id data) (cdl_symbol data) s = Some order ->
  fill_decision order data s = Ok (Some fill_price) s ->
  Py.truthy
    (fst (exit_decision
            (new_position (cdl_strategy_id data) (cdl_symbol data) order
               data fill_price) data)) = false ->
  let sid := cdl_strategy_id data in
  let sym := cdl_symbol data in
  exists s',
    process_candle now data s = Ok tt s' /\
    _get_position sid sym s' =
      Some (new_position sid sym order data fill_price) /\
    ledger_trades (effects_since s s') = [] /\
    terminal_events (effects_since s s') = [].
Proof.
  intros _ Hpending Hfill Hquiet sid sym.
  destruct (process_candle_fill_quiet now data order fill_price s
              Hpending Hfill Hquiet) as (d & Hd & Hrun).
  eexists. split; [exact Hrun|].
  unfold _get_position, effects_since. simpl. rewrite drop_app_length.
  split; [apply get2_set2_eq|]. split; reflexivity.
Qed.

Lemma fill_replaces_position_silently_witness :
  _get_position "S" "X" Cases.reopened = Some Ex.long_position /\
  exists s',
    process_candle 3 Ex.near_tick Cases.reopened = Ok tt s' /\
    _get_position "S" "X" s' = Some Cases.second_position /\
    ledger_trades (effects_since Cases.reopened s') = [].
Proof.
  assert (_get_position "S" "X" Cases.reopened = Some Ex.long_position)
    as Hold by (vm_compute; reflexivity).
  split; [exact Hold|].
  destruct (fill_replaces_position_silently 3 Ex.near_tick
              (order_of_signal Ex.open_long_limit) 98%Q Ex.long_position
              Cases.reopened Hold)
    as (s' & Hrun & Hpos & Hrows & _).
  - vm_compute. reflexivity.
  - reflexivity.
  - vm_compute. reflexivity.
  - exists s'. auto.
Defined.

(** ** Closes and the Ledger *)

Lemma exit_decision_reason pos data ep r :
  exit_decision pos data = (ep, r) ->
  Py.truthy ep = true ->
  (r = Some SL /\ ep = pos_stop_loss pos) \/
  (r = Some TP /\ ep = pos_take_profit pos).
Proof.
  unfold exit_decision.
  destruct (pos_side pos);
    repeat match goal with
           | |- context [if ?b then _ else _] => destruct b
           end;
    intros [= <- <-]; auto; discriminate.
Qed.

(** X9. A slot loses its position only through a close that is written
    down: when a slot holds a position before a message and none after
    it, the handler has saved exactly one trade row, for this slot, and
    published exactly one terminal event; unless the same tick also
    filled a pending order, the row carries the entry price and entry
    time of the position that was held. *)
Theorem position_leaves_only_by_recorded_close s now ev sid sym p :
  _get_position sid sym s = Some p ->
  _get_position sid sym (step s (now, ev)) = None ->
  exists row notice,
    ledger_trades (effects_since s (step s (now, ev))) = [row] /\
    terminal_events (effects_since s (step s (now, ev))) = [notice] /\
    tr_strategy_id row = sid /\ tr_symbol row = sym /\
    tt_strategy_id notice = sid /\ tt_symbol notice = sym /\
    tt_exit_price notice = tr_exit_price row /\
    (fills (effects_since s (step s (now, ev))) = [] ->
     tr_entry_price row = pos_entry_price p /\
     tr_entry_time row = pos_entry_time p /\
     tr_side row = pos_side p).
Proof.
  intros Hbefore. unfold effects_since. step_cases s now ev;
    unfold _get_position in *; simpl; intros Hgone.
  - congruence.
  - congruence.
  - rewrite (get2_pop2 _ _ _ _ _ _ Hd) in Hgone.
    destruct (decide _) as [[<- <-]|]; [|congruence].
    assert (pos = p) as -> by congruence.
    rewrite drop_app_length. eexists. eexists. repeat split.
  - rewrite get2_set2 in Hgone. destruct (decide _); congruence.
  - rewrite (get2_pop2 _ _ _ _ _ _ Hd') in Hgone.
    destruct (decide _) as [[<- <-]|Hne].
    + rewrite drop_app_length. eexists. eexists.
      repeat split;
        match goal with H : fills _ = [] |- _ => discriminate H end.
    + rewrite get2_set2, decide_False in Hgone by exact Hne. congruence.
  - rewrite (get2_pop2 _ _ _ _ _ _ Hd') in Hgone.
    destruct (decide _) as [[<- <-]|]; [|congruence].
    assert (pos = p) as -> by congruence.
    rewrite drop_app_length. eexists. eexists. repeat split.
  - rewrite Hp in Hgone. destruct (decide _); congruence.
Qed.

Lemma position_leaves_only_by_recorded_close_witness :
  _get_position "S" "X" Ex.long_open = Some Ex.long_position /\
  exists row,
    ledger_trades
      (effects_since Ex.long_open
         (step Ex.long_open (2%Q, Candle Ex.wide_tick))) = [row] /\
    tr_entry_price row = 100%Q.
Proof.
  assert (_get_position "S" "X" Ex.long_open = Some Ex.long_position)
    as Hheld by (vm_compute; reflexivity).
  split; [exact Hheld|].
  destruct (position_leaves_only_by_recorded_close Ex.long_open 2
              (Candle Ex.wide_tick) "S" "X" Ex.long_position Hheld)
    as (row & notice & Hrows & _ & _ & _ & _ & _ & _ & Hsame).
  - vm_compute. reflexivity.
  - exists row. split; [exact Hrows|]. apply Hsame.
    vm_compute. reflexivity.
Defined.

Lemma views_app (tr l : list Effect) :
  ledger_trades (tr ++ l) = ledger_trades tr ++ ledger_trades l /\
  terminal_events (tr ++ l) = terminal_events tr ++ terminal_events l /\
  flat_notices (tr ++ l) = flat_notices tr ++ flat_notices l /\
  ledger_orders (tr ++ l) = ledger_orders tr ++ ledger_orders l /\
  execution_events (tr ++ l) = execution_events tr ++ execution_events l /\
  fills (tr ++ l) = fills tr ++ fills l.
Proof. repeat split; apply flat_map_app. Qed.

Lemma flat_notices_update data pos :
  pos_side pos = LONG \/ pos_side pos = SHORT ->
  flat_notices (update_effects data pos) = [].
Proof.
  intros Hside. unfold update_effects, flat_notices.
  rewrite !flat_map_app. simpl.
  destruct (apply_request_frame data pos) as (_ & _ & -> & _).
  destruct (req_stop_loss data), (req_take_profit data); simpl;
    destruct Hside as [-> | ->]; reflexivity.
Qed.

Lemma views_update data pos :
  ledger_trades (update_effects data pos) = [] /\
  terminal_events (update_effects data pos) = [] /\
  ledger_orders (update_effects data pos) = [] /\
  execution_events (update_effects data pos) = [] /\
  fills (update_effects data pos) = [].
Proof.
  unfold update_effects.
  destruct (req_stop_loss data), (req_take_profit data);
    repeat split; reflexivity.
Qed.

(** The six tallies of a trace agree pairwise as stated in X10. *)
Lemma step_tallies s now ev :
  well_formed s ->
  exists l,
    trace (step s (now, ev)) = trace s ++ l /\
    length (ledger_trades l) = length (terminal_events l) /\
    length (terminal_events l) = length (flat_notices l) /\
    length (ledger_orders l) = length (execution_events l) /\
    length (execution_events l) = length (fills l).
Proof.
  intros [_ Hpos]. step_cases s now ev; simpl.
  - exists []. rewrite app_nil_r. auto.
  - eexists. split; [reflexivity|]. auto.
  - eexists. split; [reflexivity|]. auto.
  - eexists. split; [reflexivity|]. auto.
  - eexists. split; [reflexivity|]. auto.
  - eexists. split; [reflexivity|]. auto.
  - exists (update_effects data pos). split; [exact Htr|].
    destruct (views_update data pos) as (-> & -> & -> & -> & ->).
    rewrite flat_notices_update; [auto|].
    apply (Hpos _ _ _ Hheld).
Qed.

(** X10. Fills and closes are recorded exactly once on every channel:
    over any run of the engine from its start, the number of trade rows
    saved equals the number of terminal events published and the number
    of FLAT notices published, and the number of order rows saved
    equals the number of order-execution events published and the
    number of positions installed. *)
Theorem fills_and_closes_are_recorded_once msgs :
  let tr := trace (run msgs init) in
  length (ledger_trades tr) = length (terminal_events tr) /\
  length (terminal_events tr) = length (flat_notices tr) /\
  length (ledger_orders tr) = length (execution_events tr) /\
  length (execution_events tr) = length (fills tr).
Proof.
  cut (well_formed (run msgs init) /\
       (length (ledger_trades (trace (run msgs init)))
        = length (terminal_events (trace (run msgs init))) /\
        length (terminal_events (trace (run msgs init)))
        = length (flat_notices (trace (run msgs init))) /\
        length (ledger_orders (trace (run msgs init)))
        = length (execution_events (trace (run msgs init))) /\
        length (execution_events (trace (run msgs init)))
        = length (fills (trace (run msgs init))))).
  { intros [_ H]. exact H. }
  apply (run_invariant
           (fun s => well_formed s /\
              (length (ledger_trades (trace s))
               = length (terminal_events (trace s)) /\
               length (terminal_events (trace s))
               = length (flat_notices (trace s)) /\
               length (ledger_orders (trace s))
               = length (execution_events (trace s)) /\
               length (execution_events (trace s))
               = length (fills (trace s))))).
  - intros s now ev [Hwf (H1 & H2 & H3 & H4)].
    split; [apply step_well_formed, Hwf|].
    destruct (step_tallies s now ev Hwf) as (l & -> & L1 & L2 & L3 & L4).
    destruct (views_app (trace s) l) as (-> & -> & -> & -> & -> & ->).
    rewrite !length_app. lia.
  - split; [exact well_formed_init|]. simpl. auto.
Qed.

Lemma step_trace s now ev :
  trace (step s (now, ev)) = trace s ++ effects_since s (step s (now, ev)).
Proof.
  assert (exists l, trace (step s (now, ev)) = trace s ++ l) as [l Hl].
  { step_cases s now ev; simpl; eauto.
    exists []. symmetry. apply app_nil_r. }
  rewrite (effects_since_app _ _ _ Hl). exact Hl.
Qed.

Lemma gain_or_loss_difference (a b : Q) : gain_or_loss a b ((b - a) * 1).
Proof. unfold gain_or_loss. split; intros H; lra. Qed.

Lemma trade_row_of_ok now sid sym pos po r ts :
  position_ok sid sym pos ->
  pos_last_close pos = None ->
  (po = None /\ r = Some SIGNAL) \/
  (Py.truthy po = true /\ (r = Some SL \/ r = Some TP)) ->
  trade_row_ok (trade_row now sid sym pos po r ts).
Proof.
  intros (_ & _ & Hside & Hsize & _) Hlast Hwhy.
  unfold trade_row_ok, trade_row, pnl_of. simpl. rewrite Hsize.
  split; [reflexivity|]. split.
  - destruct Hside as [-> | ->]; apply gain_or_loss_difference.
  - destruct Hwhy as [[-> ->]|[Ht Hr]].
    + unfold exit_price_of. rewrite Hlast. simpl.
      split; [reflexivity|]. destruct Hside as [-> | ->]; ring.
    + assert (~ (exit_price_of pos po == 0)%Q) as Hnz.
      { unfold exit_price_of, Py.or_else, Py.truthy in *.
        destruct po as [q|]; [|discriminate].
        destruct (Qeq_bool q 0) eqn:E; [discriminate|].
        intros H. apply Qeq_bool_iff in H. congruence. }
      destruct Hr as [-> | ->]; exact Hnz.
Qed.

Lemma step_trade_rows s now ev row :
  well_formed s ->
  (forall sid sym pos,
     _get_position sid sym s = Some pos -> pos_last_close pos = None) ->
  In row (ledger_trades (effects_since s (step s (now, ev)))) ->
  trade_row_ok row.
Proof.
  intros [_ Hpos] Hlast. unfold effects_since. step_cases s now ev; simpl;
    rewrite ?drop_all, ?drop_app_length; simpl.
  - tauto.
  - tauto.
  - intros [<-|[]].
    apply trade_row_of_ok;
      [apply (Hpos _ _ _ Hheld) | apply (Hlast _ _ _ Hheld) | auto].
  - tauto.
  - intros [<-|[]].
    apply trade_row_of_ok; [apply new_position_ok | reflexivity |].
    right. split; [exact Ht|].
    destruct (exit_decision_reason _ _ _ _ Hdec Ht) as [[-> _]|[-> _]]; auto.
  - intros [<-|[]].
    apply trade_row_of_ok;
      [apply (Hpos _ _ _ Hheld) | apply (Hlast _ _ _ Hheld) |].
    right. split; [exact Ht|].
    destruct (exit_decision_reason _ _ _ _ Hdec Ht) as [[-> _]|[-> _]]; auto.
  - rewrite Htr, drop_app_length.
    destruct (views_update data pos) as (-> & _). intros [].
Qed.

(** X11. Every trade row the engine saves, over any run from its start,
    has quantity 1, side LONG or SHORT and a reason among SL, TP and
    SIGNAL.  Its pnl has the sign of the trade: not negative when the
    exit price is on the winning side of the entry price (above it for
    a LONG, below it for a SHORT), not positive when it is on the
    losing side.  A row with reason SIGNAL has its exit price equal to
    its entry price and pnl zero; a row with reason SL or TP has a
    non-zero exit price. *)
Theorem trade_rows_are_well_formed msgs row :
  In row (ledger_trades (trace (run msgs init))) ->
  trade_row_ok row.
Proof.
  revert row. induction msgs as [|[now ev] msgs IH] using rev_ind;
    intros row.
  - intros [].
  - unfold run. rewrite fold_left_app. simpl. fold (run msgs init).
    rewrite step_trace.
    destruct (views_app (trace (run msgs init))
                (effects_since (run msgs init)
                   (step (run msgs init) (now, ev)))) as (-> & _).
    rewrite in_app_iff. intros [Hin|Hin]; [apply IH, Hin|].
    apply (step_trade_rows (run msgs init) now ev row
             (run_well_formed msgs) (last_close_never_written msgs) Hin).
Qed.

Lemma trade_rows_are_well_formed_witness :
  exists row,
    ledger_trades
      (trace (run [(0%Q, Signal Ex.open_long); (0%Q, Candle Ex.quiet_tick);
                   (2%Q, Candle Ex.wide_tick)] init)) = [row] /\
    trade_row_ok row /\
    tr_reason row = Some SL /\
    tr_side row = LONG /\
    (tr_exit_price row <= tr_entry_price row)%Q /\
    (tr_pnl row <= 0)%Q.
Proof.
  eexists. split; [vm_compute; reflexivity|]. split.
  - apply (trade_rows_are_well_formed
             [(0%Q, Signal Ex.open_long); (0%Q, Candle Ex.quiet_tick);
              (2%Q, Candle Ex.wide_tick)]).
    vm_compute. left. reflexivity.
  - repeat split; try (vm_compute; reflexivity); vm_compute; discriminate.
Defined.

(** ** When a tick closes a position *)

Lemma and_test_true b test :
  Py.and_test b test = true ->
  exists q, b = Some q /\ ~ (q == 0)%Q /\ test q = true.
Proof.
  unfold Py.and_test. destruct b as [q|]; [|discriminate].
  destruct (Qeq_bool q 0) eqn:E; [discriminate|]. simpl. intros Ht.
  exists q. split; [reflexivity|]. split; [|exact Ht].
  intros H. apply Qeq_bool_iff in H. congruence.
Qed.

Lemma and_test_false b test q :
  Py.and_test b test = false ->
  b = Some q -> ~ (q == 0)%Q -> test q = false.
Proof.
  unfold Py.and_test. intros Ht -> Hq.
  destruct (Qeq_bool q 0) eqn:E; [apply Qeq_bool_iff in E; contradiction|].
  exact Ht.
Qed.

Lemma Qle_bool_false (a b : Q) : Qle_bool a b = false -> ~ (a <= b)%Q.
Proof. intros H Hle. apply Qle_bool_iff in Hle. congruence. Qed.

Lemma exit_decision_justified pos data ep r :
  exit_decision pos data = (ep, r) ->
  Py.truthy ep = true ->
  (r = Some SL /\
   exists sl, ep = Some sl /\ pos_stop_loss pos = Some sl /\
              ~ (sl == 0)%Q /\ stop_hit pos data sl) \/
  (r = Some TP /\
   (exists tp, ep = Some tp /\ pos_take_profit pos = Some tp /\
               ~ (tp == 0)%Q /\ target_hit pos data tp) /\
   forall sl, pos_stop_loss pos = Some sl -> ~ (sl == 0)%Q ->
              ~ stop_hit pos data sl).
Proof.
  unfold exit_decision, stop_hit, target_hit.
  destruct (pos_side pos);
    match goal with
    | |- context [if Py.and_test ?b ?t then _ else _] =>
        destruct (Py.and_test b t) eqn:Hsl
    end;
    try (intros [= <- <-] _; left; split; [reflexivity|];
         destruct (and_test_true _ _ Hsl) as (q & Hq & Hnz & Hle);
         exists q; rewrite Qle_bool_iff in Hle; auto);
    match goal with
    | |- context [if Py.and_test ?b ?t then _ else _] =>
        destruct (Py.and_test b t) eqn:Htp
    end;
    try (intros [= <- <-]; discriminate);
    intros [= <- <-] _; right; split; try reflexivity;
    (split;
     [ destruct (and_test_true _ _ Htp) as (q & Hq & Hnz & Hle);
       exists q; rewrite Qle_bool_iff in Hle; auto
     | intros sl Hsome Hnz;
       apply Qle_bool_false, (and_test_false _ _ _ Hsl Hsome Hnz) ]).
Qed.

(** X12. A tick closes a position only on a bound that it reaches.
    Every trade row [check_position_exit] saves has reason SL or TP;
    its exit price is the non-zero stop loss, respectively take profit,
    of the position, and the tick reaches that bound (low at or below
    the stop loss of a LONG, high at or above the stop loss otherwise;
    mirrored for the take profit).  A row with reason TP is saved only
    when a non-zero stop loss, if any, is not reached. *)
Theorem tick_close_is_justified now sid sym pos data s row :
  In row
    (ledger_trades
       (effects_since s
          (state_of (check_position_exit now sid sym pos data s)))) ->
  (tr_reason row = Some SL /\
   pos_stop_loss pos = Some (tr_exit_price row) /\
   ~ (tr_exit_price row == 0)%Q /\
   stop_hit pos data (tr_exit_price row)) \/
  (tr_reason row = Some TP /\
   pos_take_profit pos = Some (tr_exit_price row) /\
   ~ (tr_exit_price row == 0)%Q /\
   target_hit pos data (tr_exit_price row) /\
   forall sl, pos_stop_loss pos = Some sl -> ~ (sl == 0)%Q ->
              ~ stop_hit pos data sl).
Proof.
  destruct (check_position_exit_cases now sid sym pos data s)
    as [->|(ep & r & Hdec & Ht & ->)].
  - simpl. rewrite effects_since_refl. intros [].
  - assert (In row
              (ledger_trades
                 (effects_since s
                    (state_of
                       (close_position now sid sym pos ep r
                          (Some (cdl_timestamp data)) s)))) ->
            row = trade_row now sid sym pos ep r (Some (cdl_timestamp data)))
      as Hrow.
    { destruct (Py.pop2 (positions s) sid sym) as [d|] eqn:Hpop.
      - rewrite (close_position_ok _ _ _ _ _ _ _ _ _ Hpop).
        unfold effects_since. simpl. rewrite drop_app_length.
        intros [<-|[]]. reflexivity.
      - rewrite (close_position_raise _ _ _ _ _ _ _ _ Hpop).
        unfold effects_since, log. simpl. rewrite drop_app_length.
        intros [<-|[]]. reflexivity. }
    intros Hin. rewrite (Hrow Hin). clear Hrow Hin. simpl.
    destruct (exit_decision_justified _ _ _ _ Hdec Ht)
      as [(-> & sl & -> & Hsl & Hnz & Hhit)
         |(-> & (tp & -> & Htp & Hnz & Hhit) & Hno)];
      [left|right]; unfold exit_price_of;
      rewrite (or_else_nonzero _ _ Hnz); auto.
Qed.

Lemma tick_close_is_justified_witness :
  exists row,
    ledger_trades
      (effects_since Ex.long_open
         (state_of (check_position_exit 0 "S" "X" Ex.long_position
                      Ex.wide_tick Ex.long_open))) = [row] /\
    tr_reason row = Some SL /\
    stop_hit Ex.long_position Ex.wide_tick (tr_exit_price row).
Proof.
  eexists. split; [vm_compute; reflexivity|].
  destruct (tick_close_is_justified 0 "S" "X" Ex.long_position Ex.wide_tick
              Ex.long_open
              (trade_row 0 "S" "X" Ex.long_position (Some 95%Q) (Some SL)
                 (Some 2%Q)))
    as [(Hr & _ & _ & Hhit)|(Hr & _)].
  - vm_compute. left. reflexivity.
  - split; [exact Hr | exact Hhit].
  - vm_compute in Hr. discriminate Hr.
Defined.

(** X13. A bound that is missing or zero never triggers: a tick for a
    slot that holds a position whose stop loss and take profit are both
    missing or zero, and no pending order, leaves the whole state
    unchanged, whatever its prices. *)
Theorem position_without_bounds_survives_ticks now data pos s :
  _get_order (cdl_strategy_id data) (cdl_symbol data) s = None ->
  _get_position (cdl_strategy_id data) (cdl_symbol data) s = Some pos ->
  Py.truthy (pos_stop_loss pos) = false ->
  Py.truthy (pos_take_profit pos) = false ->
  process_candle now data s = Ok tt s.
Proof.
  intros Hnone Hheld Hsl Htp.
  rewrite process_candle_skip by auto.
  unfold exit_phase, bind, gets. rewrite Hheld.
  unfold check_position_exit, exit_decision, Py.and_test, Py.truthy in *.
  destruct (pos_stop_loss pos) as [sl|], (pos_take_profit pos) as [tp|];
    repeat match goal with
           | H : negb ?b = false |- _ =>
               apply negb_false_iff in H; rewrite H
           end;
    simpl; destruct (pos_side pos); reflexivity.
Qed.

Lemma position_without_bounds_survives_ticks_witness :
  _get_position "S" "X"
    (run [(0%Q, Signal Cases.open_long_bare); (0%Q, Candle Ex.quiet_tick)]
       init) = Some Cases.bare_position /\
  process_candle 2 Ex.wide_tick
    (run [(0%Q, Signal Cases.open_long_bare); (0%Q, Candle Ex.quiet_tick)]
       init)
  = Ok tt
      (run [(0%Q, Signal Cases.open_long_bare); (0%Q, Candle Ex.quiet_tick)]
         init).
Proof.
  assert (_get_position "S" "X"
            (run [(0%Q, Signal Cases.open_long_bare);
                  (0%Q, Candle Ex.quiet_tick)] init)
          = Some Cases.bare_position) as Hheld
    by (vm_compute; reflexivity).
  split; [exact Hheld|].
  apply (position_without_bounds_survives_ticks 2 Ex.wide_tick
           Cases.bare_position);
    [vm_compute; reflexivity | exact Hheld | reflexivity | reflexivity].
Defined.

(** ** The keys of the Mirror *)

Lemma list_ascii_of_string_append (a b : string) :
  list_ascii_of_string (String.append a b)
  = list_ascii_of_string a ++ list_ascii_of_string b.
Proof.
  induction a as [|c a IH]; simpl; [reflexivity | rewrite IH; reflexivity].
Qed.

Lemma list_ascii_of_string_inj (a b : string) :
  list_ascii_of_string a = list_ascii_of_string b -> a = b.
Proof.
  intros H. rewrite <- (string_of_list_ascii_of_string a),
    <- (string_of_list_ascii_of_string b), H. reflexivity.
Qed.

Lemma append_inv_head (a x y : string) :
  String.append a x = String.append a y -> x = y.
Proof. induction a as [|c a IH]; simpl; [auto | intros [= H]; auto]. Qed.

Lemma append_inv_tail (x y t : string) :
  String.append x t = String.append y t -> x = y.
Proof.
  intros H. apply list_ascii_of_string_inj.
  apply (f_equal list_ascii_of_string) in H.
  rewrite !list_ascii_of_string_append in H.
  apply (app_inv_tail _ _ _ H).
Qed.

Lemma redis_key_inj_strategy a b ty :
  redis_key a ty = redis_key b ty -> a = b.
Proof.
  unfold redis_key. intros H. apply append_inv_head in H.
  apply (append_inv_tail _ _ _ H).
Qed.

Lemma redis_key_orders_positions a b :
  redis_key a "orders" <> redis_key b "positions".
Proof.
  unfold redis_key. intros H. apply append_inv_head in H.
  apply (f_equal list_ascii_of_string) in H.
  rewrite (list_ascii_of_string_append a),
    (list_ascii_of_string_append b) in H.
  change (list_ascii_of_string (String.append ":" "positions"))
    with (list_ascii_of_string ":po" ++ list_ascii_of_string "sitions") in H.
  rewrite app_assoc in H.
  apply app_inj_2 in H; [|reflexivity].
  destruct H as [_ H]. discriminate H.
Qed.

Lemma hget_hset r k f v k' f' :
  Redis.hget (Redis.hset r k f v) k' f' =
  if decide (k = k' /\ f = f') then Some v else Redis.hget r k' f'.
Proof. apply get2_set2. Qed.

Lemma hget_hdel r k f k' f' :
  Redis.hget (Redis.hdel r k f) k' f' =
  if decide (k = k' /\ f = f') then None else Redis.hget r k' f'.
Proof.
  unfold Redis.hget, Redis.hdel, Py.get2.
  destruct (decide (k = k')) as [<-|Hk].
  - destruct (r !! k) as [h|] eqn:Hh.
    + rewrite lookup_insert_eq.
      destruct (decide (f = f')) as [<-|Hf].
      * rewrite lookup_delete_eq, decide_True; auto.
      * rewrite lookup_delete_ne, decide_False by tauto. reflexivity.
    + rewrite Hh. destruct (decide _); reflexivity.
  - rewrite decide_False by tauto.
    destruct (r !! k) as [h|]; [|reflexivity].
    rewrite lookup_insert_ne by exact Hk. reflexivity.
Qed.

Lemma mirror_of_app (tr l : list Effect) :
  mirror_of (tr ++ l) = fold_left mirror_step l (mirror_of tr).
Proof. apply fold_left_app. Qed.

Lemma mirror_update data pos r :
  fold_left mirror_step (update_effects data pos) r
  = Redis.hset r (redis_key (req_strategy_id data) "positions")
      (req_symbol data) (JPosition (apply_request data pos)).
Proof.
  unfold update_effects.
  destruct (req_stop_loss data), (req_take_profit data); reflexivity.
Qed.

Lemma decide_redis_key {A} a b ty (f g : string) (x y : A) :
  (if decide (redis_key a ty = redis_key b ty /\ f = g) then x else y)
  = (if decide (a = b /\ f = g) then x else y).
Proof.
  destruct (decide (a = b /\ f = g)) as [[-> ->]|Hne].
  - rewrite decide_True; auto.
  - rewrite decide_False; [reflexivity|].
    intros [Hk Hf]. apply Hne. split; [|exact Hf].
    apply (redis_key_inj_strategy _ _ _ Hk).
Qed.

Lemma hget_hset_same r ty a f v b g :
  Redis.hget (Redis.hset r (redis_key a ty) f v) (redis_key b ty) g =
  if decide (a = b /\ f = g) then Some v
  else Redis.hget r (redis_key b ty) g.
Proof. rewrite hget_hset. apply decide_redis_key. Qed.

Lemma hget_hdel_same r ty a f b g :
  Redis.hget (Redis.hdel r (redis_key a ty) f) (redis_key b ty) g =
  if decide (a = b /\ f = g) then None
  else Redis.hget r (redis_key b ty) g.
Proof. rewrite hget_hdel. apply decide_redis_key. Qed.

Lemma hget_hset_orders r a f v b g :
  Redis.hget (Redis.hset r (redis_key a "orders") f v)
    (redis_key b "positions") g
  = Redis.hget r (redis_key b "positions") g.
Proof.
  rewrite hget_hset, decide_False; [reflexivity|].
  intros [Hk _]. exact (redis_key_orders_positions _ _ Hk).
Qed.

Lemma hget_hset_positions r a f v b g :
  Redis.hget (Redis.hset r (redis_key a "positions") f v)
    (redis_key b "orders") g
  = Redis.hget r (redis_key b "orders") g.
Proof.
  rewrite hget_hset, decide_False; [reflexivity|].
  intros [Hk _]. exact (redis_key_orders_positions _ _ (eq_sym Hk)).
Qed.

Lemma hget_hdel_orders r a f b g :
  Redis.hget (Redis.hdel r (redis_key a "orders") f)
    (redis_key b "positions") g
  = Redis.hget r (redis_key b "positions") g.
Proof.
  rewrite hget_hdel, decide_False; [reflexivity|].
  intros [Hk _]. exact (redis_key_orders_positions _ _ Hk).
Qed.

Lemma hget_hdel_positions r a f b g :
  Redis.hget (Redis.hdel r (redis_key a "positions") f)
    (redis_key b "orders") g
  = Redis.hget r (redis_key b "orders") g.
Proof.
  rewrite hget_hdel, decide_False; [reflexivity|].
  intros [Hk _]. exact (redis_key_orders_positions _ _ (eq_sym Hk)).
Qed.

Ltac mirror_reads :=
  repeat (rewrite hget_hset_same || rewrite hget_hdel_same
          || rewrite hget_hset_orders || rewrite hget_hset_positions
          || rewrite hget_hdel_orders || rewrite hget_hdel_positions).

Lemma step_coherent s now ev : coherent s -> coherent (step s (now, ev)).
Proof.
  intros Hco sid' sym'. destruct (Hco sid' sym') as [Cp Co]. clear Hco.
  step_cases s now ev; unfold _get_order, _get_position in *; simpl;
    rewrite ?mirror_of_app; simpl.
  - auto.
  - mirror_reads. rewrite get2_set2, Cp, Co.
    split; [reflexivity|]. destruct (decide _); reflexivity.
  - mirror_reads. rewrite (get2_pop2 _ _ _ _ _ _ Hd), Cp, Co.
    split; [|reflexivity]. destruct (decide _); reflexivity.
  - mirror_reads. rewrite (get2_pop2 _ _ _ _ _ _ Hd), get2_set2, Cp, Co.
    split; destruct (decide _); reflexivity.
  - mirror_reads.
    rewrite (get2_pop2 _ _ _ _ _ _ Hd), (get2_pop2 _ _ _ _ _ _ Hd'),
      get2_set2, Cp, Co.
    split; destruct (decide _); reflexivity.
  - mirror_reads. rewrite (get2_pop2 _ _ _ _ _ _ Hd'), Cp, Co.
    split; [|reflexivity]. destruct (decide _); reflexivity.
  - rewrite Htr, mirror_of_app, mirror_update, Ho, Hp. mirror_reads.
    rewrite Cp, Co. split; [|reflexivity].
    destruct (decide _); reflexivity.
Qed.

Lemma coherent_init : coherent init.
Proof.
  intros sid sym. unfold Redis.hget, _get_order, _get_position. simpl.
  rewrite !get2_empty. auto.
Qed.

Lemma run_coherent msgs : coherent (run msgs init).
Proof.
  apply (run_invariant coherent); [|exact coherent_init].
  intros s now ev. apply step_coherent.
Qed.

(** X14. The Mirror is a faithful copy of the engine's memory.  After
    any run of the engine from its start, with Redis empty at the
    start, [get_instrument_state] of [api.py] returns for every slot
    exactly the position and the pending order the engine holds for
    it, and nothing where it holds none. *)
Theorem mirror_shows_engine_state msgs sid sym :
  Api.get_instrument_state (mirror_of (trace (run msgs init))) sid sym
  = (JPosition <$> _get_position sid sym (run msgs init),
     JOrder <$> _get_order sid sym (run msgs init)).
Proof.
  unfold Api.get_instrument_state.
  destruct (run_coherent msgs sid sym) as [-> ->].
  destruct (_get_position sid sym (run msgs init)),
    (_get_order sid sym (run msgs init)); reflexivity.
Qed.

(** X15. The status [list_instruments] computes for a symbol of a
    strategy follows the engine: INTRADE exactly when the engine holds
    a position for the slot (also when an order is pending beside it),
    PENDING when it holds only a pending order, WAIT when it holds
    neither. *)
Theorem instrument_status_follows_engine msgs sid sym :
  Api.instrument_status (mirror_of (trace (run msgs init))) sid sym =
  match _get_position sid sym (run msgs init),
        _get_order sid sym (run msgs init) with
  | Some _, _ => "INTRADE"
  | None, Some _ => "PENDING"
  | None, None => "WAIT"
  end.
Proof.
  unfold Api.instrument_status.
  destruct (run_coherent msgs sid sym) as [-> ->].
  destruct (_get_position sid sym (run msgs init)),
    (_get_order sid sym (run msgs init)); reflexivity.
Qed.

Example status_of_reopened_slot :
  Api.instrument_status (mirror_of (trace Cases.reopened)) "S" "X"
  = "INTRADE".
Proof. vm_compute. reflexivity. Qed.

(** ** Keys and their pieces *)

Lemma split_pieces_cons sep c rest :
  split_pieces sep (String c rest) =
  if Ascii.eqb c sep
  then (EmptyString,
        fst (split_pieces sep rest) :: snd (split_pieces sep rest))
  else (String c (fst (split_pieces sep rest)), snd (split_pieces sep rest)).
Proof. simpl. destruct (split_pieces sep rest). reflexivity. Qed.

Lemma free_of_cons sep c s :
  free_of sep (String c s) -> Ascii.eqb c sep = false /\ free_of sep s.
Proof.
  unfold free_of. simpl. intros H. split.
  - apply Ascii.eqb_neq. intros ->. apply H. left. reflexivity.
  - intros Hin. apply H. right. exact Hin.
Qed.

Lemma split_pieces_free sep s :
  free_of sep s -> split_pieces sep s = (s, []).
Proof.
  induction s as [|c s IH]; intros Hfree; [reflexivity|].
  destruct (free_of_cons _ _ _ Hfree) as [Hc Hs].
  rewrite split_pieces_cons, Hc, (IH Hs). reflexivity.
Qed.

Lemma split_pieces_append sep x y :
  free_of sep x ->
  split_pieces sep (String.append x (String sep y)) =
  (x, fst (split_pieces sep y) :: snd (split_pieces sep y)).
Proof.
  induction x as [|c x IH]; intros Hfree.
  - change (String.append "" (String sep y)) with (String sep y).
    rewrite split_pieces_cons, Ascii.eqb_refl. reflexivity.
  - destruct (free_of_cons _ _ _ Hfree) as [Hc Hx].
    change (String.append (String c x) (String sep y))
      with (String c (String.append x (String sep y))).
    rewrite split_pieces_cons, Hc, (IH Hx). reflexivity.
Qed.

Lemma first_piece_append sep x y :
  fst (split_pieces sep (String.append x (String sep y)))
  = fst (split_pieces sep x).
Proof.
  induction x as [|c x IH].
  - change (String.append "" (String sep y)) with (String sep y).
    rewrite split_pieces_cons, Ascii.eqb_refl. reflexivity.
  - change (String.append (String c x) (String sep y))
      with (String c (String.append x (String sep y))).
    rewrite !split_pieces_cons.
    destruct (Ascii.eqb c sep); simpl; [reflexivity|]. rewrite IH.
    reflexivity.
Qed.

Lemma free_of_strategy : free_of colon "strategy".
Proof. unfold free_of. vm_compute. intuition discriminate. Qed.

Lemma free_of_candles : free_of colon "candles".
Proof. unfold free_of. vm_compute. intuition discriminate. Qed.

(** X16. [list_instruments] recovers the strategy id from a meta key
    with [key.split(":")[1]].  On the key [get_meta_key] builds for an
    id this yields the part of the id before its first colon: the id
    itself when the id has no colon, a proper prefix otherwise. *)
Theorem strategy_of_meta_key_round_trip strategy_id :
  strategy_of_meta_key (get_meta_key strategy_id)
  = Some (fst (split_pieces colon strategy_id)) /\
  (free_of colon strategy_id ->
   strategy_of_meta_key (get_meta_key strategy_id) = Some strategy_id).
Proof.
  assert (strategy_of_meta_key (get_meta_key strategy_id)
          = Some (fst (split_pieces colon strategy_id))) as Hgen.
  { unfold strategy_of_meta_key, split_on.
    change (get_meta_key strategy_id)
      with (String.append "strategy"
              (String colon
                 (String.append strategy_id (String colon "meta")))).
    rewrite (split_pieces_append _ _ _ free_of_strategy). simpl.
    rewrite first_piece_append. reflexivity. }
  split; [exact Hgen|].
  intros Hfree. rewrite Hgen, (split_pieces_free _ _ Hfree). reflexivity.
Qed.

Lemma strategy_of_meta_key_round_trip_witness :
  strategy_of_meta_key (get_meta_key "TopTrendBreakOut")
  = Some "TopTrendBreakOut" /\
  strategy_of_meta_key (get_meta_key "desk:alpha") = Some "desk".
Proof.
  split.
  - apply (strategy_of_meta_key_round_trip "TopTrendBreakOut").
    unfold free_of. vm_compute. intuition discriminate.
  - rewrite (proj1 (strategy_of_meta_key_round_trip "desk:alpha")).
    vm_compute. reflexivity.
Defined.

(** X17. The candle lists of two different (strategy, symbol,
    timeframe) triples never share a Redis key, provided strategy ids
    and symbols contain no colon. *)
Theorem get_candles_key_injective a b c a' b' c' :
  free_of colon a -> free_of colon b ->
  free_of colon a' -> free_of colon b' ->
  get_candles_key a b c = get_candles_key a' b' c' ->
  a = a' /\ b = b' /\ c = c'.
Proof.
  intros Ha Hb Ha' Hb' Hkey. unfold get_candles_key in Hkey.
  apply append_inv_head in Hkey.
  assert (a = a') as <-.
  { apply (f_equal (split_pieces colon)) in Hkey.
    change (String.append ":candles:" ?z)
      with (String colon (String.append "candles:" z)) in Hkey.
    rewrite !split_pieces_append in Hkey by assumption.
    congruence. }
  apply append_inv_head, append_inv_head in Hkey.
  assert (b = b') as <-.
  { apply (f_equal (split_pieces colon)) in Hkey.
    change (String.append ":" ?z) with (String colon z) in Hkey.
    rewrite !split_pieces_append in Hkey by assumption.
    congruence. }
  apply append_inv_head, append_inv_head in Hkey. auto.
Qed.

Lemma get_candles_key_injective_witness :
  get_candles_key "S" "BTCUSDT" "5" = get_candles_key "S" "BTCUSDT" "5" /\
  "S" = "S" /\ "BTCUSDT" = "BTCUSDT" /\ "5" = "5".
Proof.
  split; [reflexivity|].
  apply (get_candles_key_injective "S" "BTCUSDT" "5" "S" "BTCUSDT" "5");
    try reflexivity; unfold free_of; vm_compute; intuition discriminate.
Defined.

(** With a colon in a symbol two different triples do collide. *)
Example get_candles_key_collision :
  get_candles_key "S" "BTC:USDT" "5" = get_candles_key "S" "BTC" "USDT:5".
Proof. reflexivity. Qed.

(** ** The candle history list *)

Lemma lrange_to_end {A} (l : list A) (start : Z) :
  RedisList.lrange l start (-1) =
  drop (Z.to_nat (if (start <? 0)%Z
                  then Z.max 0 (Z.of_nat (length l) + start)
                  else start)) l.
Proof.
  unfold RedisList.lrange. cbv zeta.
  set (n := Z.of_nat (length l)).
  set (st := if (start <? 0)%Z then Z.max 0 (n + start) else start).
  assert (0 <= st)%Z as Hst by (subst st; destruct (start <? 0)%Z eqn:E; lia).
  change (-1 <? 0)%Z with true. cbv iota.
  destruct (n + -1 <? st)%Z eqn:E.
  - symmetry. apply drop_ge. subst n. lia.
  - apply take_ge. rewrite length_drop. subst n. lia.
Qed.

(** X18. The candle list a strategy keeps in Redis holds the most
    recent 200 candles: after pushing candles one by one onto an empty
    list, each push followed by the trim to the range (-200, -1), the
    list is the sequence of all pushed candles without its first
    [length - 200] elements, in the order of the pushes; it never
    holds more than 200 candles. *)
Theorem history_keeps_last_200 {A} (candles : list A) :
  fold_left push_candle candles [] = drop (length candles - 200) candles /\
  length (fold_left push_candle candles []) <= 200.
Proof.
  cut (fold_left push_candle candles []
       = drop (length candles - 200) candles).
  { intros ->. split; [reflexivity|]. rewrite length_drop. lia. }
  induction candles as [|c candles IH] using rev_ind; [reflexivity|].
  rewrite fold_left_app. simpl. rewrite IH.
  unfold push_candle, RedisList.ltrim, RedisList.rpush.
  rewrite lrange_to_end. change (-200 <? 0)%Z with true. cbv iota.
  rewrite !length_app, length_drop. simpl.
  destruct (decide (length candles < 200)) as [Hlt|Hge].
  - match goal with
    | |- context [Z.to_nat ?e] => replace (Z.to_nat e) with 0 by lia
    end.
    replace (length candles - 200) with 0 by lia.
    replace (length candles + 1 - 200) with 0 by lia.
    reflexivity.
  - match goal with
    | |- context [Z.to_nat ?e] => replace (Z.to_nat e) with 1 by lia
    end.
    rewrite drop_app_le by (rewrite length_drop; lia).
    rewrite drop_drop.
    rewrite (drop_app_le candles [c]) by lia.
    f_equal. f_equal. lia.
Qed.

(** X19. [get_historical_candles] reads the list with
    [lrange(key, -limit, -1)].  For a positive limit it returns the
    last [limit] candles (all of them when the list is shorter), oldest
    first.  For limit 0 the range is (0, -1): it returns the whole
    list, not an empty one.  For a negative limit it skips the first
    [-limit] candles and returns the rest. *)
Theorem get_historical_candles_range {A} (history : list A) (limit : Z) :
  get_historical_candles history limit =
    (if (0 <? limit)%Z
     then drop (length history - Z.to_nat limit) history
     else drop (Z.to_nat (- limit)) history) /\
  get_historical_candles history 0 = history.
Proof.
  assert (forall k : Z,
            get_historical_candles history k =
            if (0 <? k)%Z then drop (length history - Z.to_nat k) history
            else drop (Z.to_nat (- k)) history) as Hgen.
  { intros k. unfold get_historical_candles. rewrite lrange_to_end.
    destruct (0 <? k)%Z eqn:Hpos.
    - replace (- k <? 0)%Z with true by lia. f_equal. lia.
    - replace (- k <? 0)%Z with false by lia. reflexivity. }
  split; [apply Hgen|]. rewrite Hgen. reflexivity.
Qed.

Example last_two_candles :
  get_historical_candles [1; 2; 3; 4; 5]%nat 2 = [4; 5]%nat /\
  get_historical_candles [1; 2; 3; 4; 5]%nat 9 = [1; 2; 3; 4; 5]%nat /\
  get_historical_candles [1; 2; 3; 4; 5]%nat 0 = [1; 2; 3; 4; 5]%nat /\
  get_historical_candles [1; 2; 3; 4; 5]%nat (-2) = [3; 4; 5]%nat.
Proof. repeat split. Qed.

(** ** The Ledger tables *)

Lemma save_trades_rows (rows : list TradeRow) (table : list (nat * TradeRow)) :
  fold_left (fun table row => Storage.save_trade row table) rows table
  = table ++ combine (seq (S (length table)) (length rows)) rows.
Proof.
  revert table. induction rows as [|row rows IH]; intros table; simpl.
  - rewrite app_nil_r. reflexivity.
  - rewrite IH. unfold Storage.save_trade.
    rewrite <- app_assoc, length_app. simpl.
    replace (length table + 1) with (S (length table)) by lia.
    reflexivity.
Qed.

Lemma filter_combine_snd {A} (P : A -> bool) (l : list A) (n : nat) :
  map snd (List.filter (fun r => P (snd r)) (combine (seq n (length l)) l))
  = List.filter P l.
Proof.
  revert n. induction l as [|x l IH]; intros n; simpl; [reflexivity|].
  destruct (P x); simpl; rewrite IH; reflexivity.
Qed.

Lemma combine_seq_projections {A} (l : list A) (n : nat) :
  map fst (combine (seq n (length l)) l) = seq n (length l) /\
  map snd (combine (seq n (length l)) l) = l.
Proof.
  revert n. induction l as [|x l IH]; intros n; simpl; [auto|].
  destruct (IH (S n)) as [-> ->]. auto.
Qed.

(** X20. What the API reads back from the table of closed trades.
    After the engine's [save_trade] calls on an empty database, the
    rows carry the ids 1, 2, ... in the order of the calls;
    [get_trades] with a symbol returns the rows of that strategy and
    symbol, in that order; without a symbol, or with the empty string
    for the symbol, it returns the rows of the strategy for all
    symbols. *)
Theorem get_trades_reads_ledger (tr : list Effect) (sid : string)
  (c : Ascii.ascii) (rest : string) :
  let sym := String c rest in
  map fst (trades_table_of tr) = seq 1 (length (ledger_trades tr)) /\
  map snd (trades_table_of tr) = ledger_trades tr /\
  map snd (Storage.get_trades (trades_table_of tr) sid (Some sym)) =
    List.filter (fun row => String.eqb (tr_strategy_id row) sid
                            && String.eqb (tr_symbol row) sym)
      (ledger_trades tr) /\
  map snd (Storage.get_trades (trades_table_of tr) sid None) =
    List.filter (fun row => String.eqb (tr_strategy_id row) sid)
      (ledger_trades tr) /\
  Storage.get_trades (trades_table_of tr) sid (Some "")
  = Storage.get_trades (trades_table_of tr) sid None.
Proof.
  intros sym. unfold trades_table_of. rewrite save_trades_rows. simpl.
  split; [|split; [|split; [|split]]].
  - apply combine_seq_projections.
  - apply combine_seq_projections.
  - unfold Storage.get_trades, sym.
    apply (filter_combine_snd
             (fun row => String.eqb (tr_strategy_id row) sid
                         && String.eqb (tr_symbol row) (String c rest))).
  - unfold Storage.get_trades.
    apply (filter_combine_snd
             (fun row => String.eqb (tr_strategy_id row) sid)).
  - reflexivity.
Qed.

Lemma orders_table_snoc calls call :
  orders_table_of (calls ++ [call])
  = Storage.save_order (fst call) None (snd call) (orders_table_of calls).
Proof. unfold orders_table_of. rewrite fold_left_app. reflexivity. Qed.

(** X21. The table of order records keeps one row per order id, the
    last one saved.  After any sequence of [save_order] calls on an
    empty database, looking an id up gives the row of the last call
    with that id, stamped with the clock of that call, and nothing
    when no call had that id: an earlier row with the same id is
    replaced, not kept beside the new one. *)
Theorem orders_table_keeps_last_row (calls : list (Q * OrderRow))
  (order_id : string) :
  orders_table_of calls !! order_id =
  (fun call => (snd call, fst call)) <$>
    last (List.filter (fun call => String.eqb (or_order_id (snd call))
                                     order_id) calls).
Proof.
  induction calls as [|call calls IH] using rev_ind.
  - unfold orders_table_of. simpl. apply lookup_empty.
  - rewrite orders_table_snoc, List.filter_app. simpl.
    unfold Storage.save_order.
    destruct (String.eqb (or_order_id call.2) order_id) eqn:E.
    + apply String.eqb_eq in E. rewrite E, lookup_insert_eq, last_snoc.
      reflexivity.
    + apply String.eqb_neq in E.
      rewrite lookup_insert_ne, app_nil_r by exact E. exact IH.
Qed.

(** ** The strategy's caches *)

Lemma handle_position_update_lookup event positions sym :
  Strategy.handle_position_update event positions !! sym =
  if String.eqb (Strategy.pu_symbol event) sym
  then (if Qeq_bool (Strategy.pu_size event) 0 then None
        else Some (Strategy.pu_size event))
  else positions !! sym.
Proof.
  unfold Strategy.handle_position_update.
  destruct (String.eqb (Strategy.pu_symbol event) sym) eqn:E.
  - apply String.eqb_eq in E. subst sym.
    destruct (Qeq_bool (Strategy.pu_size event) 0).
    + destruct (positions !! Strategy.pu_symbol event) eqn:H;
        [apply lookup_delete_eq | exact H].
    + apply lookup_insert_eq.
  - apply String.eqb_neq in E.
    destruct (Qeq_bool (Strategy.pu_size event) 0).
    + destruct (positions !! Strategy.pu_symbol event);
        [apply lookup_delete_ne, E | reflexivity].
    + apply lookup_insert_ne, E.
Qed.

Lemma positions_after_lookup events sym :
  Strategy.positions_after events !! sym =
  match last (List.filter
                (fun e => String.eqb (Strategy.pu_symbol e) sym) events) with
  | Some e => if Qeq_bool (Strategy.pu_size e) 0 then None
              else Some (Strategy.pu_size e)
  | None => None
  end.
Proof.
  induction events as [|event events IH] using rev_ind.
  - apply lookup_empty.
  - unfold Strategy.positions_after in *.
    rewrite fold_left_app, List.filter_app. simpl.
    rewrite handle_position_update_lookup.
    destruct (String.eqb (Strategy.pu_symbol event) sym).
    + rewrite last_snoc. reflexivity.
    + rewrite app_nil_r. exact IH.
Qed.

(** X22. The strategy's position cache follows the last update of each
    symbol.  After any sequence of position updates, the entry filter
    [positions.get(symbol, 0.0) != 0] holds exactly when the last
    update for the symbol had a non-zero size; the cache then holds
    that size, and it never holds a zero. *)
Theorem position_cache_follows_last_update events sym :
  Strategy.in_position (Strategy.positions_after events) sym =
    match last (List.filter
                  (fun e => String.eqb (Strategy.pu_symbol e) sym) events)
    with
    | Some e => negb (Qeq_bool (Strategy.pu_size e) 0)
    | None => false
    end /\
  (forall size, Strategy.positions_after events !! sym = Some size ->
                ~ (size == 0)%Q).
Proof.
  unfold Strategy.in_position. rewrite positions_after_lookup.
  destruct (last _) as [e|]; [|split; [reflexivity | discriminate]].
  destruct (Qeq_bool (Strategy.pu_size e) 0) eqn:E; simpl.
  - split; [reflexivity | discriminate].
  - rewrite E. split; [reflexivity|]. intros size [= <-] H.
    apply Qeq_bool_iff in H. congruence.
Qed.

Lemma status_in_five status :
  Strategy.status_in status
    ["New"; "PartiallyFilled"; "Filled"; "Cancelled"; "Rejected"]
  = Strategy.status_in status ["New"; "PartiallyFilled"]
    || Strategy.status_in status ["Filled"; "Cancelled"; "Rejected"].
Proof.
  unfold Strategy.status_in. simpl.
  destruct (String.eqb status "New"), (String.eqb status "PartiallyFilled");
    reflexivity.
Qed.

Lemma get2_init {V} (d : gmap string (gmap string V)) k j1 j2 :
  Py.get2 (match d !! k with Some _ => d | None => <[k := ∅]> d end) j1 j2
  = Py.get2 d j1 j2.
Proof.
  destruct (d !! k) eqn:Hk; [reflexivity|].
  unfold Py.get2. destruct (decide (k = j1)) as [<-|Hne].
  - rewrite lookup_insert_eq, Hk. apply lookup_empty.
  - rewrite lookup_insert_ne by exact Hne. reflexivity.
Qed.

Lemma handle_order_update_get2 event active sym id :
  Py.get2 (Strategy.handle_order_update event active) sym id =
  if Strategy.concerns sym id event
  then (if Strategy.status_in (Strategy.ou_status event)
             ["New"; "PartiallyFilled"]
        then Some event else None)
  else Py.get2 active sym id.
Proof.
  unfold Strategy.handle_order_update, Strategy.concerns.
  rewrite status_in_five. cbv zeta.
  set (active' := match active !! Strategy.ou_symbol event with
                  | Some _ => active
                  | None => <[Strategy.ou_symbol event := ∅]> active
                  end).
  assert (forall j1 j2, Py.get2 active' j1 j2 = Py.get2 active j1 j2)
    as Hinit by (intros; apply get2_init).
  destruct (Strategy.status_in (Strategy.ou_status event)
              ["New"; "PartiallyFilled"]) eqn:Hopen.
  - rewrite get2_set2, Hinit, orb_true_l, andb_true_r.
    destruct (decide _) as [[-> ->]|Hne].
    + rewrite !String.eqb_refl. reflexivity.
    + destruct (String.eqb (Strategy.ou_symbol event) sym) eqn:E1;
        [|reflexivity].
      destruct (String.eqb (Strategy.ou_order_id event) id) eqn:E2;
        [|reflexivity].
      apply String.eqb_eq in E1, E2. tauto.
  - rewrite orb_false_l.
    destruct (Strategy.status_in (Strategy.ou_status event)
                ["Filled"; "Cancelled"; "Rejected"]) eqn:Hdone.
    + rewrite andb_true_r.
      assert (Py.get2
                (if decide (delete (Strategy.ou_order_id event)
                              (default ∅
                                 (active' !! Strategy.ou_symbol event)) = ∅)
                 then delete (Strategy.ou_symbol event) active'
                 else <[Strategy.ou_symbol event :=
                          delete (Strategy.ou_order_id event)
                            (default ∅
                               (active' !! Strategy.ou_symbol event))]>
                        active') sym id
              = if String.eqb (Strategy.ou_symbol event) sym
                then delete (Strategy.ou_order_id event)
                       (default ∅ (active' !! Strategy.ou_symbol event))
                     !! id
                else Py.get2 active' sym id) as ->.
      { unfold Py.get2.
        destruct (String.eqb (Strategy.ou_symbol event) sym) eqn:E1.
        - apply String.eqb_eq in E1. subst sym.
          destruct (decide _) as [Hempty|_].
          + rewrite lookup_delete_eq, Hempty, lookup_empty. reflexivity.
          + rewrite lookup_insert_eq. reflexivity.
        - apply String.eqb_neq in E1.
          destruct (decide _);
            [rewrite lookup_delete_ne | rewrite lookup_insert_ne];
            auto. }
      destruct (String.eqb (Strategy.ou_symbol event) sym) eqn:E1;
        [|apply Hinit].
      apply String.eqb_eq in E1. subst sym. simpl.
      destruct (String.eqb (Strategy.ou_order_id event) id) eqn:E2.
      * apply String.eqb_eq in E2. subst id. apply lookup_delete_eq.
      * apply String.eqb_neq in E2. rewrite lookup_delete_ne by exact E2.
        rewrite <- (Hinit (Strategy.ou_symbol event) id). unfold Py.get2.
        destruct (active' !! Strategy.ou_symbol event);
          [reflexivity | apply lookup_empty].
    + rewrite andb_false_r. apply Hinit.
Qed.

Lemma has_orders_spec
  (active : gmap string (gmap string Strategy.OrderUpdateEvent)) sym :
  Strategy.has_orders active sym = true <->
  exists id event, Py.get2 active sym id = Some event.
Proof.
  unfold Strategy.has_orders, Py.get2.
  destruct (active !! sym) as [d|]; [|split; [discriminate|]].
  - rewrite negb_true_iff, bool_decide_eq_false. split.
    + apply map_choose.
    + intros (id & event & H) ->. rewrite lookup_empty in H. discriminate.
  - intros (id & event & H). discriminate.
Qed.

(** X23. The strategy's order cache follows the last relevant update of
    each order.  After any sequence of order updates, the cache holds
    an entry for (symbol, order id) exactly when the last update for
    that symbol and id with a status the handler knows was New or
    PartiallyFilled, and the entry is that update; updates with any
    other status change no entry.  The entry filter
    [active_orders.get(symbol)] holds exactly when the cache holds an
    entry for some order of the symbol. *)
Theorem order_cache_follows_last_update events sym id :
  Py.get2 (Strategy.orders_after events) sym id =
    match last (List.filter (Strategy.concerns sym id) events) with
    | Some e => if Strategy.status_in (Strategy.ou_status e)
                     ["New"; "PartiallyFilled"]
                then Some e else None
    | None => None
    end /\
  (Strategy.has_orders (Strategy.orders_after events) sym = true <->
   exists id' event,
     Py.get2 (Strategy.orders_after events) sym id' = Some event).
Proof.
  split; [|apply has_orders_spec].
  induction events as [|event events IH] using rev_ind.
  - apply get2_empty.
  - unfold Strategy.orders_after in *.
    rewrite fold_left_app, List.filter_app. simpl.
    rewrite handle_order_update_get2.
    destruct (Strategy.concerns sym id event).
    + rewrite last_snoc. reflexivity.
    + rewrite app_nil_r. exact IH.
Qed.

(** ** Delivery to subscribers *)

Section BusFacts.
Context {W D : Type}.
Implicit Types (subs : list (string * @Bus.Handler W D)).

Lemma subscribed_lookup subs topic :
  default [] (Bus.subscribed subs !! topic)
  = map snd (List.filter (fun sub => String.eqb (fst sub) topic) subs).
Proof.
  induction subs as [|[t h] subs IH] using rev_ind.
  - unfold Bus.subscribed. simpl. rewrite lookup_empty. reflexivity.
  - unfold Bus.subscribed in *.
    rewrite fold_left_app, List.filter_app, map_app. simpl.
    unfold Bus.subscribe at 1. simpl.
    destruct (String.eqb t topic) eqn:E.
    + apply String.eqb_eq in E. subst t.
      rewrite lookup_insert_eq. simpl. rewrite IH. reflexivity.
    + apply String.eqb_neq in E.
      rewrite lookup_insert_ne by exact E. simpl.
      rewrite app_nil_r. exact IH.
Qed.

(** X24. [EventBus] isolates the subscribers from one another.  After
    any sequence of subscriptions, a decoded message on a topic is
    handed to every handler subscribed to that topic, in the order of
    the subscriptions and whether or not earlier handlers raised;
    handlers of other topics are not called, and a payload that does
    not decode calls none. *)
Theorem event_bus_calls_every_subscriber subs topic (data : D) (w : W) :
  Bus.listen_one (Bus.subscribed subs) topic (Some data) w
  = Bus.call_all
      (map snd (List.filter (fun sub => String.eqb (fst sub) topic) subs))
      data w /\
  Bus.listen_one (Bus.subscribed subs) topic None w = w.
Proof.
  split; [|reflexivity]. unfold Bus.listen_one.
  rewrite <- subscribed_lookup.
  destruct (Bus.subscribed subs !! topic); reflexivity.
Qed.

Lemma call_until_raise_app (hs1 hs2 : list (@Bus.Handler W D)) data w :
  Bus.call_until_raise (hs1 ++ hs2) data w =
  if snd (Bus.call_until_raise hs1 data w)
  then Bus.call_until_raise hs1 data w
  else Bus.call_until_raise hs2 data
         (fst (Bus.call_until_raise hs1 data w)).
Proof.
  revert w. induction hs1 as [|h hs1 IH]; intros w; simpl; [reflexivity|].
  destruct (h data w) as [w' raised]. destruct raised; [reflexivity|].
  apply IH.
Qed.

(** X25. [MockBus.publish] records the message first and stops at the
    first handler that raises.  The message is appended to [published]
    whatever the handlers do; when the handlers before some handler
    return and that handler raises, the call raises with the world
    that handler left, and the handlers subscribed after it are not
    called; when no handler raises, the world is the one
    [EventBus] would leave. *)
Theorem mock_bus_stops_at_first_exception
  subs published topic (data : D) (w : W) :
  let hs := map snd (List.filter (fun sub => String.eqb (fst sub) topic)
                       subs) in
  fst (Bus.mock_publish (Bus.subscribed subs) published topic data w)
  = published ++ [(topic, data)] /\
  (forall before h after,
     hs = before ++ h :: after ->
     snd (Bus.call_until_raise before data w) = false ->
     snd (h data (Bus.call_all before data w)) = true ->
     snd (Bus.mock_publish (Bus.subscribed subs) published topic data w)
     = (fst (h data (Bus.call_all before data w)), true)) /\
  (snd (Bus.call_until_raise hs data w) = false ->
   snd (Bus.mock_publish (Bus.subscribed subs) published topic data w)
   = (Bus.call_all hs data w, false)).
Proof.
  intros hs. unfold Bus.mock_publish. simpl.
  rewrite subscribed_lookup. fold hs.
  assert (forall (l : list (@Bus.Handler W D)) (w0 : W),
            snd (Bus.call_until_raise l data w0) = false ->
            Bus.call_until_raise l data w0 = (Bus.call_all l data w0, false))
    as Hquiet.
  { induction l as [|h l IH]; intros w0; simpl; [reflexivity|].
    unfold Bus.call_all. simpl.
    destruct (h data w0) as [w' raised]. destruct raised; [discriminate|].
    simpl. apply IH. }
  split; [reflexivity|]. split.
  - intros before h after -> Hbefore Hraise.
    rewrite call_until_raise_app, (Hquiet _ _ Hbefore). simpl.
    destruct (h data (Bus.call_all before data w)) as [w' raised].
    simpl in Hraise. subst raised. reflexivity.
  - apply Hquiet.
Qed.

End BusFacts.

(** On the topic [ticks] the subscribers are [add], [fail], [double]:
    [MockBus] stops after [fail], [EventBus] goes on to [double]. *)
Lemma mock_bus_stops_at_first_exception_witness :
  snd (Bus.mock_publish (Bus.subscribed BusCases.subs) [] "ticks" 5 1)
  = (6, true) /\
  Bus.listen_one (Bus.subscribed BusCases.subs) "ticks" (Some 5) 1 = 12.
Proof.
  split; [|vm_compute; reflexivity].
  destruct (mock_bus_stops_at_first_exception BusCases.subs [] "ticks" 5 1)
    as (_ & Hstop & _).
  apply (Hstop [BusCases.add] BusCases.fail [BusCases.double]);
    reflexivity.
Defined.

(** ** A limit order that is never reached *)

Lemma run_trace msgs s :
  trace (run msgs s) = trace s ++ effects_since s (run msgs s).
Proof.
  revert s. induction msgs as [|[now ev] msgs IH]; intros s; simpl.
  - rewrite effects_since_refl, app_nil_r. reflexivity.
  - assert (trace (run msgs (step s (now, ev)))
            = trace s ++
              (effects_since s (step s (now, ev)) ++
               effects_since (step s (now, ev))
                 (run msgs (step s (now, ev))))) as H.
    { rewrite IH, step_trace at 1. rewrite <- app_assoc. reflexivity. }
    rewrite (effects_since_app _ _ _ H). exact H.
Qed.

Lemma effects_since_step_run s m msgs :
  effects_since s (run msgs (step s m))
  = effects_since s (step s m)
    ++ effects_since (step s m) (run msgs (step s m)).
Proof.
  destruct m as [now ev]. apply effects_since_app.
  rewrite run_trace, step_trace at 1. rewrite <- app_assoc. reflexivity.
Qed.

(** X26. A pending order has no expiry.  A LIMIT order at price [P]
    stays pending, unchanged, across any sequence of ticks for its slot
    whose ranges all miss [P], and none of these ticks installs a
    position. *)
Theorem unreached_limit_order_stays_pending ticks sid sym order P s :
  _get_order sid sym s = Some order ->
  order_type order = LIMIT ->
  sig_price (order_data order) = Some P ->
  Forall (fun t => misses sid sym P (snd t)) ticks ->
  _get_order sid sym (run (ticks_at ticks) s) = Some order /\
  fills (effects_since s (run (ticks_at ticks) s)) = [].
Proof.
  intros Hpending Hlimit Hprice Hmiss. revert s Hpending.
  induction Hmiss as [|[now data] ticks (Hsid & Hsym & Hout) _ IH];
    intros s Hpending; simpl.
  - rewrite effects_since_refl. auto.
  - simpl in Hsid, Hsym, Hout. subst sid sym.
    assert (fill_decision order data s = Ok None s) as Hfill.
    { rewrite (fill_decision_limit order data P s Hlimit Hprice).
      destruct (Qle_bool (cdl_low data) P && Qle_bool P (cdl_high data))
        eqn:E; [|reflexivity].
      apply in_range_iff in E. contradiction. }
    destruct (process_candle_not_filled now data order s Hpending Hfill)
      as [Hstay Hnone].
    destruct (IH (step s (now, Candle data)) Hstay) as [Hlater Hfills].
    split; [exact Hlater|].
    rewrite effects_since_step_run, fills_app, Hfills, app_nil_r.
    exact Hnone.
Qed.

Lemma unreached_limit_order_stays_pending_witness :
  _get_order "S" "X" Ex.pending_limit
  = Some (order_of_signal Ex.open_long_limit) /\
  _get_order "S" "X"
    (run (ticks_at [(1%Q, Ex.quiet_tick); (2%Q, Ex.quiet_tick)])
       Ex.pending_limit)
  = Some (order_of_signal Ex.open_long_limit).
Proof.
  assert (_get_order "S" "X" Ex.pending_limit
          = Some (order_of_signal Ex.open_long_limit)) as Hpending
    by (vm_compute; reflexivity).
  split; [exact Hpending|].
  apply (unreached_limit_order_stays_pending
           [(1%Q, Ex.quiet_tick); (2%Q, Ex.quiet_tick)] "S" "X"
           (order_of_signal Ex.open_long_limit) 98%Q Ex.pending_limit
           Hpending eq_refl eq_refl).
  repeat constructor; intros [H _]; vm_compute in H; apply H; reflexivity.
Defined.
